(** * apgram-backend: the post store and the scheduled-post dispatcher

    A shallow embedding of [src/posts.js]: the [posts] table and the SQL
    statements the routes issue, the files under [uploads/] the handlers
    unlink, the route handlers, the cron tick of [attachEvents], its socket
    registry and [broadcast]; of [src/users.js]: the [users] table,
    [getRequesterId], registration, login and settings; and of the prompt
    builder of the generation module.  Statements about the embedding
    follow the definitions. *)

From Stdlib Require Import ZArith NArith List String Ascii Bool Lia.
From Stdlib Require Import Permutation Sorted RelationClasses OrdersEx.
From Stdlib Require Import DecimalString.
Import ListNotations.
Local Open Scope Z_scope.

(** ** Values crossing the HTTP / SQL boundary *)

(** A field of a parsed JSON body as the handlers look at it: absent
    ([undefined]), [null], or a string. *)
Inductive jsval : Type :=
| JUndefined
| JNull
| JString (s : string).

(** Binding a JS value to a [?] placeholder: [undefined] and [null] both
    reach SQLite as NULL. *)
Definition bind (v : jsval) : option string :=
  match v with
  | JString s => Some s
  | _ => None
  end.

(** [a ?? b] where [b] is a nullable TEXT column value. *)
Definition nullish (a : jsval) (b : option string) : option string :=
  match a with
  | JString s => Some s
  | _ => b
  end.

(** [a ?? b] where [b] is a NOT NULL TEXT column value. *)
Definition nullish_text (a : jsval) (b : string) : string :=
  match a with
  | JString s => s
  | _ => b
  end.

(** The truth test on a field that is absent, [null] or a string. *)
Definition truthy_text (v : jsval) : bool :=
  match v with
  | JString s => negb (String.eqb s "")
  | _ => false
  end.

(** A scalar of a parsed JSON body or query string as [Number] and the
    truth test see it; [VFrac] is any number that is not an integer. *)
Inductive json : Type :=
| VUndefined
| VNull
| VBool (b : bool)
| VInt (z : Z)
| VFrac
| VText (s : string).

Definition truthy (v : json) : bool :=
  match v with
  | VUndefined | VNull => false
  | VBool b => b
  | VInt z => negb (z =? 0)
  | VFrac => true
  | VText s => negb (String.eqb s "")
  end.

(** [Number.isInteger(n) ? n : null] for [n = Number(v)].  [Number] on a
    string is a builtin of the language and is taken as given:
    [Number_text s] is [Number(s)] when that is an integer. *)
Definition as_integer (Number_text : string -> option Z) (v : json) : option Z :=
  match v with
  | VUndefined => None
  | VNull => Some 0
  | VBool b => Some (if b then 1 else 0)
  | VInt z => Some z
  | VFrac => None
  | VText s => Number_text s
  end.

(** What the column [user_id INTEGER] of a row holds: NULL, an integer, or
    a text that is no number, which INTEGER affinity stores as it came. *)
Inductive sqlval : Type :=
| SNull
| SInt (z : Z)
| SText (s : string).

(** The value a bound [userId] leaves in [user_id] once [Number(userId)]
    has been found to be the integer [n]: a number or a boolean is bound as
    that integer, [null] as NULL, and a string as a text to which the
    column's INTEGER affinity is applied.  That conversion is a builtin of
    the database engine and is taken as given: [integer_text s] is the
    integer the column then holds, [None] when the text is kept. *)
Definition owner_param (integer_text : string -> option Z) (v : json) (n : Z)
  : sqlval :=
  match v with
  | VUndefined | VNull => SNull
  | VText s =>
      match integer_text s with
      | Some m => SInt m
      | None => SText s
      end
  | _ => SInt n
  end.

(** [column = ?] on an INTEGER column for a bound text: the affinity of the
    column is applied to the text before the two are compared. *)
Definition owner_is (integer_text : string -> option Z) (t : string) (v : sqlval)
  : bool :=
  match integer_text t, v with
  | Some n, SInt m => m =? n
  | None, SText s => String.eqb s t
  | _, _ => false
  end.

(** ** The [posts] table *)

(** One row of
    [posts(id, user_id, title NOT NULL, description, url, scheduledAt, sent DEFAULT 0)]. *)
Record Post : Type := mkPost {
  id : Z;
  user_id : sqlval;
  title : string;
  description : option string;
  url : option string;
  scheduledAt : option string;
  sent : Z
}.

(** The table in rowid order together with the AUTOINCREMENT high-water mark
    kept in [sqlite_sequence]. *)
Record DB : Type := mkDB {
  rows : list Post;
  seq : Z
}.

Definition empty_db : DB := {| rows := []; seq := 0 |}.

Definition ids (l : list Post) : list Z := map id l.

Definition max_id (l : list Post) : Z := fold_right Z.max 0 (ids l).

(** BINARY collation on TEXT: bytewise, a proper prefix sorts first. *)
Definition text_compare (a b : string) : comparison := String_as_OT.compare a b.

Definition text_le (a b : string) : bool :=
  match text_compare a b with
  | Gt => false
  | _ => true
  end.

(** *** Statements *)

(** [SELECT * FROM posts WHERE id = ?] through [db.get]; [i] is the integer
    the bound path text is read as (a text that is no integer matches no
    row, as an [i] that no row carries). *)
Definition sql_get (i : Z) (d : DB) : option Post :=
  find (fun p => id p =? i) (rows d).

(** [INSERT INTO posts (user_id, title, description, url, scheduledAt)
     VALUES (?, ?, ?, ?, NULL)]: [None] when the NOT NULL constraint on
    [title] rejects the row, otherwise [lastID] and the new table. *)
Definition sql_insert (uid : sqlval) (t d u : option string) (b : DB)
  : option (Z * DB) :=
  match t with
  | None => None
  | Some t' =>
      let i := Z.max (seq b) (max_id (rows b)) + 1 in
      Some (i, {| rows := rows b ++
                    [ {| id := i; user_id := uid; title := t';
                         description := d; url := u;
                         scheduledAt := None; sent := 0 |} ];
                  seq := i |})
  end.

(** [UPDATE posts SET ... WHERE id = ?]: [f] rewrites the matching rows. *)
Definition patch (i : Z) (f : Post -> Post) (p : Post) : Post :=
  if id p =? i then f p else p.

Definition update_where (i : Z) (f : Post -> Post) (b : DB) : DB :=
  {| rows := map (patch i f) (rows b); seq := seq b |}.

(** [UPDATE posts SET title = ?, description = ?, url = ?, scheduledAt = ?
     WHERE id = ?]. *)
Definition sql_update (i : Z) (t : string) (d u s : option string) (b : DB) : DB :=
  update_where i
    (fun p => {| id := id p; user_id := user_id p; title := t;
                 description := d; url := u; scheduledAt := s;
                 sent := sent p |}) b.

(** [UPDATE posts SET url = NULL WHERE id = ?]. *)
Definition sql_clear_url (i : Z) (b : DB) : DB :=
  update_where i
    (fun p => {| id := id p; user_id := user_id p; title := title p;
                 description := description p; url := None;
                 scheduledAt := scheduledAt p; sent := sent p |}) b.

(** [UPDATE posts SET scheduledAt = ?, sent = 0 WHERE id = ?]. *)
Definition sql_schedule (i : Z) (s : option string) (b : DB) : DB :=
  update_where i
    (fun p => {| id := id p; user_id := user_id p; title := title p;
                 description := description p; url := url p;
                 scheduledAt := s; sent := 0 |}) b.

(** [UPDATE posts SET scheduledAt = NULL WHERE id = ?]. *)
Definition sql_unschedule (i : Z) (b : DB) : DB :=
  update_where i
    (fun p => {| id := id p; user_id := user_id p; title := title p;
                 description := description p; url := url p;
                 scheduledAt := None; sent := sent p |}) b.

(** [DELETE FROM posts WHERE id = ?] through [db.run]: the new table and the
    [changes] count of the statement. *)
Definition sql_delete (i : Z) (b : DB) : DB * nat :=
  ({| rows := filter (fun p => negb (id p =? i)) (rows b); seq := seq b |},
   List.length (filter (fun p => id p =? i) (rows b))).

(** [SELECT * FROM posts WHERE sent = 0 AND scheduledAt IS NOT NULL
     AND scheduledAt <= ?]. *)
Definition is_due (now : string) (p : Post) : bool :=
  (sent p =? 0) &&
  match scheduledAt p with
  | Some s => text_le s now
  | None => false
  end.

Definition sql_select_due (now : string) (b : DB) : list Post :=
  filter (is_due now) (rows b).

(** *** The listing query and its ORDER BY *)

Section Listing.

(** INTEGER affinity on a bound text, as in [owner_param]. *)
Variable integer_text : string -> option Z.

(** SQLite's [datetime(X)] on a non-NULL text: the normalised
    [YYYY-MM-DD HH:MM:SS] text, or NULL when [X] is not a time value.  It is
    a builtin of the database engine and is taken as given. *)
Variable datetime : string -> option string.

Definition sql_datetime (s : option string) : option string :=
  match s with
  | Some x => datetime x
  | None => None
  end.

(** Ascending order on a nullable TEXT key: NULL sorts before any text. *)
Definition null_first_compare (a b : option string) : comparison :=
  match a, b with
  | None, None => Eq
  | None, Some _ => Lt
  | Some _, None => Gt
  | Some x, Some y => text_compare x y
  end.

(** [CASE WHEN scheduledAt IS NULL THEN 1 ELSE 0 END]. *)
Definition case_null (p : Post) : Z :=
  match scheduledAt p with
  | None => 1
  | Some _ => 0
  end.

(** The three ORDER BY terms, left to right:
    the CASE term ascending, [datetime(scheduledAt)] ascending, [id] descending. *)
Definition order_by_compare (p q : Post) : comparison :=
  match case_null p ?= case_null q with
  | Eq =>
      match null_first_compare (sql_datetime (scheduledAt p))
                               (sql_datetime (scheduledAt q)) with
      | Eq => id q ?= id p
      | c => c
      end
  | c => c
  end.

Definition order_by_le (p q : Post) : bool :=
  match order_by_compare p q with
  | Gt => false
  | _ => true
  end.

Fixpoint insert_by (p : Post) (l : list Post) : list Post :=
  match l with
  | [] => [p]
  | q :: l' => if order_by_le p q then p :: q :: l' else q :: insert_by p l'
  end.

Definition order_by (l : list Post) : list Post := fold_right insert_by [] l.

(** [SELECT * FROM posts WHERE user_id = ? ORDER BY ...] for the bound path
    text [t]. *)
Definition sql_select_by_owner (t : string) (b : DB) : list Post :=
  order_by (filter (fun p => owner_is integer_text t (user_id p)) (rows b)).

End Listing.

(** ** Process state around the table *)

(** A row of [users.db] as far as [posts.js] reads it. *)
Record UserRow : Type := mkUser {
  uid : Z;
  telegram_token : string;
  channel_id : string
}.

(** A connected WebSocket. *)
Record Client : Type := mkClient {
  handle : nat;
  readyState : Z
}.

(** The only message [posts.js] broadcasts is [{ type: "posts_updated" }]. *)
Record Message : Type := mkMessage { type : string }.

Definition posts_updated : Message := {| type := "posts_updated" |}.

(** Which code path issued a send to the Telegram bot. *)
Inductive Origin : Type := Cron | Manual.

(** One send through the bot that resolved without throwing. *)
Record Delivery : Type := mkDelivery {
  origin : Origin;
  recipient : UserRow;
  payload : Post
}.

Record World : Type := mkWorld {
  db : DB;
  usersDb : list UserRow;
  clients : list Client;
  files : list string;              (* the files under [uploads/], by name *)
  wire : list (nat * Message);      (* every [client.send], oldest first *)
  published : list Message;         (* every call of [broadcast], oldest first *)
  outbox : list Delivery;           (* every resolved bot send, oldest first *)
  errlog : list Z                   (* post ids passed to [console.error] by the cron loop *)
}.

Definition set_db (d : DB) (w : World) : World :=
  {| db := d; usersDb := usersDb w; clients := clients w; files := files w;
     wire := wire w; published := published w; outbox := outbox w;
     errlog := errlog w |}.

Definition set_files (fs : list string) (w : World) : World :=
  {| db := db w; usersDb := usersDb w; clients := clients w; files := fs;
     wire := wire w; published := published w; outbox := outbox w;
     errlog := errlog w |}.

Definition push_delivery (x : Delivery) (w : World) : World :=
  {| db := db w; usersDb := usersDb w; clients := clients w; files := files w;
     wire := wire w; published := published w; outbox := outbox w ++ [x];
     errlog := errlog w |}.

Definition log_error (i : Z) (w : World) : World :=
  {| db := db w; usersDb := usersDb w; clients := clients w; files := files w;
     wire := wire w; published := published w; outbox := outbox w;
     errlog := errlog w ++ [i] |}.

(** [broadcast(message)]: one [send] per client whose [readyState] is 1. *)
Definition broadcast (m : Message) (w : World) : World :=
  {| db := db w; usersDb := usersDb w; clients := clients w; files := files w;
     wire := wire w ++
             map (fun c => (handle c, m))
                 (filter (fun c => readyState c =? 1) (clients w));
     published := published w ++ [m]; outbox := outbox w; errlog := errlog w |}.

(** [usersDb.get("SELECT telegram_token, channel_id FROM users WHERE id = ?",
    post.user_id)]: NULL equals no id, and neither does a text that the
    column kept as a text. *)
Definition users_get (v : sqlval) (w : World) : option UserRow :=
  match v with
  | SInt i => find (fun u => uid u =? i) (usersDb w)
  | _ => None
  end.

(** ** Files under [uploads/] *)

(** [s.includes(sub)]. *)
Fixpoint includes (sub s : string) : bool :=
  String.prefix sub s ||
  match s with
  | EmptyString => false
  | String _ s' => includes sub s'
  end.

(** [path.basename(s)] (POSIX): the last segment between slashes, trailing
    slashes dropped.  [cur] is the segment being read, [last] the last one
    completed. *)
Fixpoint basename_from (cur last s : string) : string :=
  match s with
  | EmptyString => match cur with EmptyString => last | _ => cur end
  | String c s' =>
      if Ascii.eqb c "/"
      then basename_from EmptyString
             (match cur with EmptyString => last | _ => cur end) s'
      else basename_from (cur ++ String c EmptyString) last s'
  end.

Definition basename (s : string) : string :=
  basename_from EmptyString EmptyString s.

(** [post.url?.includes("/uploads/")] and, when it holds,
    [path.basename(post.url)]: the name the handlers look for under
    [uploads/]. *)
Definition uploaded (post : Post) : option string :=
  match url post with
  | Some u => if includes "/uploads/" u then Some (basename u) else None
  | None => None
  end.

(** [path.join(uploadDir, name)] is [uploads/] itself for ["."] and its
    parent for [".."]; any other name is an entry of [uploads/], where the
    upload route stores files only. *)
Definition is_directory (name : string) : bool :=
  String.eqb name "." || String.eqb name "..".

Definition stored_file (name : string) (w : World) : bool :=
  negb (is_directory name) && existsb (String.eqb name) (files w).

(** [fs.existsSync(path.join(uploadDir, name))]. *)
Definition existsSync (name : string) (w : World) : bool :=
  is_directory name || stored_file name w.

(** [fs.unlinkSync(path.join(uploadDir, name))]: removes a file; [None]
    when it throws, on a directory or on a path that is not there. *)
Definition unlinkSync (name : string) (w : World) : option World :=
  if stored_file name w
  then Some (set_files (filter (fun f => negb (String.eqb f name)) (files w)) w)
  else None.

(** [if (post.url?.includes("/uploads/")) { ...;
     if (fs.existsSync(p)) fs.unlinkSync(p); }]. *)
Definition discard_upload (post : Post) (w : World) : option World :=
  match uploaded post with
  | Some name => if existsSync name w then unlinkSync name w else Some w
  | None => Some w
  end.

(** The post names [uploads/] itself or its parent as its upload: the path
    exists and cannot be unlinked. *)
Definition jammed (post : Post) : bool :=
  match uploaded post with
  | Some name => is_directory name
  | None => false
  end.

(** ** Route handlers *)

(** What a handler answers: a success body (with [lastID] for the create
    route), a row or a list of rows, or [status(code)] with
    [success: false]. *)
Inductive Response : Type :=
| Success (lastID : option Z)
| OneRow (p : Post)
| Rows (l : list Post)
| Failure (code : Z).

(** The handlers receive the identity [getRequesterId(req)] resolved for the
    request: [None] is its [null]. *)
Definition Requester : Type := option Z.

(** [post.user_id !== requesterId] is false only for an integer column
    value equal to the requester's id. *)
Definition same_owner (v : sqlval) (r : Z) : bool :=
  match v with
  | SInt n => n =? r
  | _ => false
  end.

(** [verifyOwnershipOrReject]: [None] when the requester owns the post,
    otherwise the status already sent. *)
Definition verifyOwnershipOrReject (post : Post) (requesterId : Requester)
  : option Z :=
  match requesterId with
  | None => Some 400
  | Some r => if same_owner (user_id post) r then None else Some 403
  end.

(** Body of [POST /]. *)
Record CreateBody : Type := mkCreate {
  c_userId : json;
  c_title : jsval;
  c_description : jsval;
  c_url : jsval
}.

(** Body of [PUT /:id]. *)
Record UpdateBody : Type := mkUpdate {
  u_title : jsval;
  u_description : jsval;
  u_url : jsval;
  u_scheduledAt : jsval
}.

(** The third bound parameter: [url === undefined ? post.url : url]. *)
Definition url_param (v : jsval) (old : option string) : option string :=
  match v with
  | JUndefined => old
  | _ => bind v
  end.

(** [url && url !== post.url]. *)
Definition replaces_url (v : jsval) (old : option string) : bool :=
  match v with
  | JString s =>
      negb (String.eqb s "") &&
      negb (match old with
            | Some o => String.eqb s o
            | None => false
            end)
  | _ => false
  end.

(** [router.put("/:id")]. *)
Definition update (requesterId : Requester) (i : Z) (body : UpdateBody) (w : World)
  : Response * World :=
  match sql_get i (db w) with
  | None => (Failure 404, w)
  | Some post =>
      match verifyOwnershipOrReject post requesterId with
      | Some code => (Failure code, w)
      | None =>
          match (if replaces_url (u_url body) (url post)
                 then discard_upload post w else Some w) with
          | None => (Failure 500, w)
          | Some w1 =>
              let d := sql_update i
                         (nullish_text (u_title body) (title post))
                         (nullish (u_description body) (description post))
                         (url_param (u_url body) (url post))
                         (nullish (u_scheduledAt body) (scheduledAt post))
                         (db w1) in
              (Success None, broadcast posts_updated (set_db d w1))
          end
      end
  end.

(** The shape shared by the routes that load a post, check its owner,
    unlink its upload ([discard], the two delete routes) and issue one
    statement. *)
Definition owned (discard : bool) (requesterId : Requester) (i : Z)
    (stmt : DB -> DB) (w : World) : Response * World :=
  match sql_get i (db w) with
  | None => (Failure 404, w)
  | Some post =>
      match verifyOwnershipOrReject post requesterId with
      | Some code => (Failure code, w)
      | None =>
          match (if discard then discard_upload post w else Some w) with
          | None => (Failure 500, w)
          | Some w1 =>
              (Success None, broadcast posts_updated (set_db (stmt (db w1)) w1))
          end
      end
  end.

(** [router.delete("/:id")]. *)
Definition delete (requesterId : Requester) (i : Z) (w : World) : Response * World :=
  owned true requesterId i (fun d => fst (sql_delete i d)) w.

(** [router.delete("/:id/image")]. *)
Definition deleteImage (requesterId : Requester) (i : Z) (w : World) : Response * World :=
  owned true requesterId i (sql_clear_url i) w.

(** [router.post("/schedulePost/:id")]. *)
Definition schedulePost (requesterId : Requester) (i : Z) (at_ : jsval) (w : World)
  : Response * World :=
  owned false requesterId i (sql_schedule i (bind at_)) w.

(** [router.delete("/schedulePost/:id")]. *)
Definition cancelSchedule (requesterId : Requester) (i : Z) (w : World)
  : Response * World :=
  owned false requesterId i (sql_unschedule i) w.

(** [router.get("/:id")]. *)
Definition getPost (requesterId : Requester) (i : Z) (w : World) : Response :=
  match sql_get i (db w) with
  | None => Failure 404
  | Some post =>
      match verifyOwnershipOrReject post requesterId with
      | Some code => Failure code
      | None => OneRow post
      end
  end.

Section Routes.

Variable Number_text : string -> option Z.
Variable integer_text : string -> option Z.

(** [router.post("/")]: the check is on [Number(userId)], the INSERT binds
    [userId] as it came. *)
Definition create (requesterId : Requester) (body : CreateBody) (w : World)
  : Response * World :=
  match requesterId with
  | None => (Failure 400, w)
  | Some r =>
      match as_integer Number_text (c_userId body) with
      | None => (Failure 403, w)
      | Some n =>
          if negb (n =? r) then (Failure 403, w)
          else
            match sql_insert (owner_param integer_text (c_userId body) n)
                             (bind (c_title body))
                             (bind (c_description body))
                             (bind (c_url body)) (db w) with
            | None => (Failure 500, w)
            | Some (lastID, d) =>
                (Success (Some lastID), broadcast posts_updated (set_db d w))
            end
      end
  end.

(** [router.get("/user/:userId")]: the check is on [Number(userId)], the
    query binds the path text. *)
Definition listByOwner (datetime : string -> option string)
    (requesterId : Requester) (userId : string) (w : World) : Response :=
  match requesterId with
  | None => Failure 400
  | Some r =>
      match Number_text userId with
      | None => Failure 403
      | Some n =>
          if negb (n =? r) then Failure 403
          else Rows (sql_select_by_owner integer_text datetime userId (db w))
      end
  end.

End Routes.

(** ** Delivery *)

(** The sends of a [try] block ([sendPhoto] with a stream or a URL, or
    [sendMessage], by the post's [url]) enter through their outcome for the
    given credentials and post: [true] when the awaited call resolved,
    [false] when it threw. *)
Definition Gateway : Type := UserRow -> Post -> bool.

Definition delete_row (i : Z) (w : World) : World :=
  set_db (fst (sql_delete i (db w))) w.

(** The file a send streams: the upload of the post when [fs.existsSync]
    finds it, otherwise none (the url itself, or no photo, is sent). *)
Definition stream_of (post : Post) (w : World) : option string :=
  match uploaded post with
  | Some name => if existsSync name w then Some name else None
  | None => None
  end.

(** What follows a send that resolved, before the DELETE:
    [fs.unlinkSync(filePath)] when a file was streamed. *)
Definition after_send (stream : option string) (w : World) : option World :=
  match stream with
  | Some name => unlinkSync name w
  | None => Some w
  end.

(** [router.post("/sendPost/:id")]. *)
Definition sendPost (gw : Gateway) (requesterId : Requester) (i : Z) (w : World)
  : Response * World :=
  match sql_get i (db w) with
  | None => (Failure 404, w)
  | Some post =>
      match verifyOwnershipOrReject post requesterId with
      | Some code => (Failure code, w)
      | None =>
          match users_get (user_id post) w with
          | None => (Failure 400, w)
          | Some user =>
              if gw user post then
                let w1 := push_delivery
                            {| origin := Manual; recipient := user; payload := post |} w in
                match after_send (stream_of post w) w1 with
                | Some w2 => (Success None, broadcast posts_updated (delete_row i w2))
                | None => (Failure 500, w1)
                end
              else (Failure 500, w)
          end
      end
  end.

(** The [for (const post of posts)] loop of the cron callback. *)
Fixpoint cron_loop (gw : Gateway) (posts : list Post) (w : World) : World :=
  match posts with
  | [] => w
  | post :: rest =>
      match users_get (user_id post) w with
      | None => cron_loop gw rest w
      | Some user =>
          if gw user post then
            let w1 := push_delivery
                        {| origin := Cron; recipient := user; payload := post |} w in
            match after_send (stream_of post w) w1 with
            | Some w2 => cron_loop gw rest (delete_row (id post) w2)
            | None => cron_loop gw rest (log_error (id post) w1)
            end
          else cron_loop gw rest (log_error (id post) w)
      end
  end.

(** [if (posts.length) broadcast(...)]. *)
Definition cron_finish (posts : list Post) (w : World) : World :=
  match posts with
  | [] => w
  | _ :: _ => broadcast posts_updated w
  end.

(** One run of the callback given to [cron.schedule]; [now] is
    [new Date().toISOString()] read at its start. *)
Definition cron_tick (gw : Gateway) (now : string) (w : World) : World :=
  let posts := sql_select_due now (db w) in
  cron_finish posts (cron_loop gw posts w).

(** ** The two delivery paths as interleaved tasks

    Both the cron callback and the [sendPost] handler are [async] functions:
    each [await] is a point at which the other may run.  A task is a program
    counter; one step performs the awaited operation and runs on to the next
    [await]. *)

(** The cron callback.  [posts] is the array returned by [db.all]; [rest] is
    what the [for] loop has not reached yet; [stream] is the file the send
    under way was given. *)
Inductive CronPc : Type :=
| CQuery
| CLoop (posts rest : list Post)
| CSend (posts : list Post) (user : UserRow) (post : Post)
        (stream : option string) (rest : list Post)
| CDelete (posts : list Post) (post : Post) (rest : list Post)
| CDone.

Definition cron_step (gw : Gateway) (now : string) (pc : CronPc) (w : World)
  : CronPc * World :=
  match pc with
  | CQuery =>
      let posts := sql_select_due now (db w) in (CLoop posts posts, w)
  | CLoop posts [] => (CDone, cron_finish posts w)
  | CLoop posts (post :: rest) =>
      match users_get (user_id post) w with
      | None => (CLoop posts rest, w)
      | Some user => (CSend posts user post (stream_of post w) rest, w)
      end
  | CSend posts user post stream rest =>
      if gw user post then
        let w1 := push_delivery
                    {| origin := Cron; recipient := user; payload := post |} w in
        match after_send stream w1 with
        | Some w2 => (CDelete posts post rest, w2)
        | None => (CLoop posts rest, log_error (id post) w1)
        end
      else (CLoop posts rest, log_error (id post) w)
  | CDelete posts post rest => (CLoop posts rest, delete_row (id post) w)
  | CDone => (CDone, w)
  end.

(** The [sendPost] handler for [req.params.id = i]. *)
Inductive ManualPc : Type :=
| MGet
| MVerify (post : Post)
| MUser (post : Post)
| MSend (user : UserRow) (post : Post) (stream : option string)
| MDelete
| MDone (r : Response).

Definition manual_step (gw : Gateway) (requesterId : Requester) (i : Z)
    (pc : ManualPc) (w : World) : ManualPc * World :=
  match pc with
  | MGet =>
      match sql_get i (db w) with
      | None => (MDone (Failure 404), w)
      | Some post => (MVerify post, w)
      end
  | MVerify post =>
      match verifyOwnershipOrReject post requesterId with
      | Some code => (MDone (Failure code), w)
      | None => (MUser post, w)
      end
  | MUser post =>
      match users_get (user_id post) w with
      | None => (MDone (Failure 400), w)
      | Some user => (MSend user post (stream_of post w), w)
      end
  | MSend user post stream =>
      if gw user post then
        let w1 := push_delivery
                    {| origin := Manual; recipient := user; payload := post |} w in
        match after_send stream w1 with
        | Some w2 => (MDelete, w2)
        | None => (MDone (Failure 500), w1)
        end
      else (MDone (Failure 500), w)
  | MDelete => (MDone (Success None), broadcast posts_updated (delete_row i w))
  | MDone r => (MDone r, w)
  end.

Record Sys : Type := mkSys {
  world : World;
  cron : CronPc;
  manual : ManualPc
}.

Inductive Turn : Type := TCron | TManual.

Section Race.

Variable gw : Gateway.
Variable now : string.
Variable requesterId : Requester.
Variable i : Z.

Definition sys_step (s : Sys) (t : Turn) : Sys :=
  match t with
  | TCron =>
      let '(pc, w) := cron_step gw now (cron s) (world s) in
      {| world := w; cron := pc; manual := manual s |}
  | TManual =>
      let '(pc, w) := manual_step gw requesterId i (manual s) (world s) in
      {| world := w; cron := cron s; manual := pc |}
  end.

(** A schedule says whose turn it is at each step. *)
Definition run (sched : list Turn) (s : Sys) : Sys :=
  fold_left sys_step sched s.

Definition start (w : World) : Sys :=
  {| world := w; cron := CQuery; manual := MGet |}.

Definition finished (s : Sys) : Prop :=
  cron s = CDone /\ exists r, manual s = MDone r.

End Race.

(** Resolved sends of the post with id [i], and those issued by one path. *)
Definition sends_of (i : Z) (w : World) : nat :=
  List.length (filter (fun x => id (payload x) =? i) (outbox w)).

Definition is_cron (o : Origin) : bool :=
  match o with
  | Cron => true
  | Manual => false
  end.

Definition sends_by (c : bool) (i : Z) (w : World) : nat :=
  List.length
    (filter (fun x => (id (payload x) =? i) && Bool.eqb (is_cron (origin x)) c)
            (outbox w)).

(** ** Requests in sequence *)

(** Everything [posts.js] does to the table, one request or tick after the
    other. *)
Inductive Request : Type :=
| ReqCreate (r : Requester) (body : CreateBody)
| ReqUpdate (r : Requester) (i : Z) (body : UpdateBody)
| ReqDelete (r : Requester) (i : Z)
| ReqDeleteImage (r : Requester) (i : Z)
| ReqSchedule (r : Requester) (i : Z) (at_ : jsval)
| ReqCancel (r : Requester) (i : Z)
| ReqSend (gw : Gateway) (r : Requester) (i : Z)
| Tick (gw : Gateway) (now : string)
| Outside (us : list UserRow) (cs : list Client) (fs : list string).

Section Serving.

Variable Number_text : string -> option Z.
Variable integer_text : string -> option Z.

Definition handle_request (w : World) (q : Request) : World :=
  match q with
  | ReqCreate r body => snd (create Number_text integer_text r body w)
  | ReqUpdate r i body => snd (update r i body w)
  | ReqDelete r i => snd (delete r i w)
  | ReqDeleteImage r i => snd (deleteImage r i w)
  | ReqSchedule r i at_ => snd (schedulePost r i at_ w)
  | ReqCancel r i => snd (cancelSchedule r i w)
  | ReqSend gw r i => snd (sendPost gw r i w)
  | Tick gw now => cron_tick gw now w
  | Outside us cs fs =>
      (* [users.js] wrote to [users.db]; sockets connected or closed; the
         upload route stored files *)
      {| db := db w; usersDb := us; clients := cs; files := fs; wire := wire w;
         published := published w; outbox := outbox w; errlog := errlog w |}
  end.

Definition serve (qs : list Request) (w : World) : World :=
  fold_left handle_request qs w.

(** The responses of the handlers, gathered as [handle_request] gathers
    their effects; a tick and a change from outside answer nobody. *)
Definition answer (w : World) (q : Request) : option Response :=
  match q with
  | ReqCreate r body => Some (fst (create Number_text integer_text r body w))
  | ReqUpdate r i body => Some (fst (update r i body w))
  | ReqDelete r i => Some (fst (delete r i w))
  | ReqDeleteImage r i => Some (fst (deleteImage r i w))
  | ReqSchedule r i at_ => Some (fst (schedulePost r i at_ w))
  | ReqCancel r i => Some (fst (cancelSchedule r i w))
  | ReqSend gw r i => Some (fst (sendPost gw r i w))
  | Tick _ _ => None
  | Outside _ _ _ => None
  end.

(** What may happen while a tick is under way: the tick takes its next
    step, or a request is served in between. *)
Inductive Happening : Type :=
| HStep
| HRequest (q : Request).

Definition tick_among (gw : Gateway) (now : string) (st : CronPc * World)
    (h : Happening) : CronPc * World :=
  match h with
  | HStep => cron_step gw now (fst st) (snd st)
  | HRequest q => (fst st, handle_request (snd st) q)
  end.

Definition tick_through (gw : Gateway) (now : string) (hs : list Happening)
    (st : CronPc * World) : CronPc * World :=
  fold_left (tick_among gw now) hs st.

End Serving.

(** The happening leaves the users row with id [r] as [user]. *)
Definition keeps_user (r : Z) (user : UserRow) (h : Happening) : Prop :=
  match h with
  | HRequest (Outside us _ _) => find (fun u => uid u =? r) us = Some user
  | _ => True
  end.

(** The process right after start-up on fresh database files, with [fs]
    under [uploads/]. *)
Definition boot (us : list UserRow) (cs : list Client) (fs : list string) : World :=
  {| db := empty_db; usersDb := us; clients := cs; files := fs; wire := [];
     published := []; outbox := []; errlog := [] |}.

(** Primary key: no two rows share an [id]. *)
Definition well_keyed (b : DB) : Prop := NoDup (ids (rows b)).

(** The requester and the post id of the requests that address one post. *)
Definition targets (q : Request) : option (Requester * Z) :=
  match q with
  | ReqUpdate r i _ => Some (r, i)
  | ReqDelete r i => Some (r, i)
  | ReqDeleteImage r i => Some (r, i)
  | ReqSchedule r i _ => Some (r, i)
  | ReqCancel r i => Some (r, i)
  | ReqSend _ r i => Some (r, i)
  | _ => None
  end.


(** Primary key with AUTOINCREMENT: ids are distinct and none exceeds the
    high-water mark. *)
Definition key_inv (b : DB) : Prop :=
  NoDup (ids (rows b)) /\ (forall j, In j (ids (rows b)) -> j <= seq b).

(** ** Orders the claims speak of *)

(** The order of two texts byte by byte: the empty text comes before every
    other, the smaller first byte decides, and equal first bytes leave it to
    the rest. *)
Inductive bytewise_lt : string -> string -> Prop :=
| lt_empty : forall c s, bytewise_lt EmptyString (String c s)
| lt_head : forall a b s t,
    (nat_of_ascii a < nat_of_ascii b)%nat -> bytewise_lt (String a s) (String b t)
| lt_tail : forall a s t, bytewise_lt s t -> bytewise_lt (String a s) (String a t).

Definition bytewise_le (a b : string) : Prop := a = b \/ bytewise_lt a b.

(** The decimal digit a byte writes. *)
Definition digit (c : ascii) : option Z :=
  let n := Z.of_nat (nat_of_ascii c) in
  if (48 <=? n) && (n <=? 57) then Some (n - 48) else None.

(** Reads a text along a pattern: [true] asks for a digit, which is added
    to the number read so far, [false] skips one byte. *)
Fixpoint read_along (pattern : list bool) (acc : Z) (s : string) : option Z :=
  match pattern, s with
  | [], _ => Some acc
  | _ :: _, EmptyString => None
  | true :: rest, String c s' =>
      match digit c with
      | Some d => read_along rest (10 * acc + d) s'
      | None => None
      end
  | false :: rest, String _ s' => read_along rest acc s'
  end.

(** The time a text names when it is written [YYYY-MM-DD], one byte,
    [HH:MM:SS]: the fourteen digits as one number, which orders such texts
    as their times are ordered. *)
Definition clock_reading (s : string) : option Z :=
  read_along [true; true; true; true; false; true; true; false; true; true;
              false; true; true; false; true; true; false; true; true] 0 s.

(** ** The listing order as a proposition *)

Section ListingOrder.

Variable datetime : string -> option string.

(** The order the three ORDER BY terms define. *)
Definition before (p q : Post) : Prop :=
  case_null p < case_null q \/
  (case_null p = case_null q /\
   (null_first_compare (sql_datetime datetime (scheduledAt p))
                       (sql_datetime datetime (scheduledAt q)) = Lt \/
    (sql_datetime datetime (scheduledAt p) = sql_datetime datetime (scheduledAt q) /\
     id q <= id p))).

(** A key of the listing comes strictly first: NULL before any text, texts
    byte by byte. *)
Definition key_lt (x y : option string) : Prop :=
  match x, y with
  | None, Some _ => True
  | Some a, Some b => bytewise_lt a b
  | _, None => False
  end.

(** The ordering contract of the listing: a scheduled row comes ahead of an
    unscheduled one; scheduled rows go by ascending [datetime(scheduledAt)],
    those with equal keys by descending id; unscheduled rows by descending
    id. *)
Definition listed_before (p q : Post) : Prop :=
  match scheduledAt p, scheduledAt q with
  | Some a, Some b =>
      key_lt (datetime a) (datetime b) \/
      (datetime a = datetime b /\ id q <= id p)
  | Some _, None => True
  | None, Some _ => False
  | None, None => id q <= id p
  end.

End ListingOrder.

(** ** Bookkeeping for the cron loop and the race *)

(** Whether the loop body for [q] gets past its send. *)
Definition delivers (gw : Gateway) (w : World) (q : Post) : bool :=
  match users_get (user_id q) w with
  | Some u => gw u q
  | None => false
  end.

(** Whether the loop body for [q] gets as far as its DELETE: the send
    resolves and [unlinkSync] does not throw after it. *)
Definition removes (gw : Gateway) (w : World) (q : Post) : bool :=
  delivers gw w q && negb (jammed q).

(** [f] is the name of the upload of [q]. *)
Definition names (q : Post) (f : string) : bool :=
  match uploaded q with
  | Some name => String.eqb f name
  | None => false
  end.

Definition unsent (p : Post) : Prop := sent p = 0.

Definition count_id (i : Z) (l : list Post) : nat :=
  List.length (filter (fun p => id p =? i) l).

(** How many sends of rows with id [i] the cron task may still issue. *)
Definition cron_pending (i : Z) (c : CronPc) (w : World) : nat :=
  match c with
  | CQuery => count_id i (rows (db w))
  | CLoop _ rest => count_id i rest
  | CSend _ _ p _ rest => count_id i (p :: rest)
  | CDelete _ _ rest => count_id i rest
  | CDone => 0
  end.

(** How many sends the handler for id [i] may still issue. *)
Definition manual_pending (i : Z) (m : ManualPc) (w : World) : nat :=
  match m with
  | MGet => count_id i (rows (db w))
  | MVerify _ | MUser _ | MSend _ _ _ => 1
  | MDelete | MDone _ => 0
  end.

Definition cron_potential (i : Z) (s : Sys) : nat :=
  sends_by true i (world s) + cron_pending i (cron s) (world s).

Definition manual_potential (i : Z) (s : Sys) : nat :=
  sends_by false i (world s) + manual_pending i (manual s) (world s).

(** No row with [P]'s id is stored. *)
Definition gone (P : Post) (b : DB) : Prop := ~ In (id P) (ids (rows b)).

(** The row of [P] is gone or the handler is about to delete it. *)
Definition doomed (P : Post) (m : ManualPc) (w : World) : Prop :=
  gone P (db w) \/ m = MDelete.

(** The file a task streams for [P] is still there, unless [other] holds. *)
Definition stream_kept (P : Post) (stream : option string) (w : World)
    (other : Prop) : Prop :=
  forall name, stream = Some name ->
    uploaded P = Some name /\ (stored_file name w = true \/ other).

(** What is known at each point of the cron task when [P] was stored and
    due at the start, its send resolves and its upload is no directory;
    [m] is where the handler stands. *)
Definition cron_inv (P : Post) (user : UserRow) (m : ManualPc) (c : CronPc)
    (w : World) : Prop :=
  match c with
  | CQuery => sends_by true (id P) w = 0%nat
  | CLoop _ rest => In P rest \/ doomed P m w
  | CSend _ u p stream rest =>
      (p = P /\ u = user /\ stream_kept P stream w (doomed P m w)) \/
      In P rest \/ doomed P m w
  | CDelete _ p rest =>
      (1 <= sends_of (id p) w)%nat /\ (p = P \/ In P rest \/ doomed P m w)
  | CDone => doomed P m w
  end.

(** The same for the handler sending [P]; [c] is where the tick stands. *)
Definition manual_inv (P : Post) (user : UserRow) (c : CronPc) (m : ManualPc)
    (w : World) : Prop :=
  match m with
  | MGet => sends_by false (id P) w = 0%nat
  | MVerify p | MUser p => p = P
  | MSend u p stream =>
      p = P /\ u = user /\ stream_kept P stream w (c <> CQuery)
  | MDelete => (1 <= sends_of (id P) w)%nat
  | MDone _ =>
      (1 <= sends_of (id P) w)%nat /\ (gone P (db w) \/ c <> CQuery)
  end.

Definition race_inv (w0 : World) (P : Post) (user : UserRow) (s : Sys) : Prop :=
  incl (rows (db (world s))) (rows (db w0)) /\
  usersDb (world s) = usersDb w0 /\
  (gone P (db (world s)) -> (1 <= sends_of (id P) (world s))%nat) /\
  cron_inv P user (manual s) (cron s) (world s) /\
  manual_inv P user (cron s) (manual s) (world s).

(** What is known of a tick that read [P], whatever is served in between:
    [P] is still ahead of the loop, or its send is under way, or it has been
    sent, or its send has thrown. *)
Definition read_inv (gw : Gateway) (P : Post) (user : UserRow)
    (st : CronPc * World) : Prop :=
  match fst st with
  | CLoop _ rest => In P rest
  | CSend _ u p _ rest => (p = P /\ u = user) \/ In P rest
  | CDelete _ _ rest => In P rest
  | _ => False
  end \/
  if gw user P
  then In {| origin := Cron; recipient := user; payload := P |} (outbox (snd st))
  else In (id P) (errlog (snd st)).

(** The users row with id [r] is [user]. *)
Definition credentials (r : Z) (user : UserRow) (w : World) : Prop :=
  find (fun u => uid u =? r) (usersDb w) = Some user.

(** ** What one pass of the cron loop sends and logs *)

(** The send the loop body records for [q], if it gets that far. *)
Definition tick_delivery (gw : Gateway) (w : World) (q : Post) : list Delivery :=
  match users_get (user_id q) w with
  | Some u =>
      if gw u q then [ {| origin := Cron; recipient := u; payload := q |} ] else []
  | None => []
  end.

(** The id the loop body passes to [console.error] for [q]: when its send
    throws, and when [unlinkSync] throws after it. *)
Definition tick_failure (gw : Gateway) (w : World) (q : Post) : list Z :=
  match users_get (user_id q) w with
  | Some u => if gw u q then (if jammed q then [id q] else []) else [id q]
  | None => []
  end.

(** The file the loop body unlinks for [q]. *)
Definition tick_unlinks (gw : Gateway) (w : World) (q : Post) (f : string) : bool :=
  removes gw w q && names q f.

(** ** Sample data *)

Definition demo_post (i : Z) (s : option string) : Post :=
  {| id := i; user_id := SInt 7; title := "X"; description := Some "Y"%string;
     url := None; scheduledAt := s; sent := 0 |}.

(** A post with an upload, and one whose url names [uploads/] itself. *)
Definition demo_photo (i : Z) (u : string) (s : option string) : Post :=
  {| id := i; user_id := SInt 7; title := "X"; description := None;
     url := Some u; scheduledAt := s; sent := 0 |}.

Definition demo_db : DB :=
  {| rows := [demo_post 1 None; demo_post 2 (Some "2024-01-01T00:00:00.000Z"%string)];
     seq := 2 |}.

Definition demo_world (b : DB) : World :=
  {| db := b; usersDb := [ {| uid := 7; telegram_token := "t"; channel_id := "c" |} ];
     clients := [ {| handle := 0; readyState := 1 |} ]; files := [];
     wire := []; published := []; outbox := []; errlog := [] |}.

Definition demo_update : UpdateBody :=
  {| u_title := JString "Z"; u_description := JUndefined;
     u_url := JNull; u_scheduledAt := JUndefined |}.

Definition demo_create : CreateBody :=
  {| c_userId := VInt 7; c_title := JString ""; c_description := JString "Y";
     c_url := JUndefined |}.

Definition demo_now : string := "2024-06-01T00:00:00.000Z".

Definition demo_due_db : DB :=
  {| rows := [demo_post 1 (Some "2024-01-01T00:00:00.000Z"%string);
              demo_post 2 (Some "2024-01-02T00:00:00.000Z"%string);
              demo_post 3 None];
     seq := 3 |}.

(** A table with one due post that has an upload, and one due post whose
    url names [uploads/] itself; [a.png] is on disk. *)
Definition demo_photo_db : DB :=
  {| rows := [demo_photo 1 "/uploads/a.png" (Some "2024-01-01T00:00:00.000Z"%string);
              demo_photo 2 "/uploads/." (Some "2024-01-02T00:00:00.000Z"%string)];
     seq := 2 |}.

Definition demo_photo_world : World :=
  set_files ["a.png"%string] (demo_world demo_photo_db).

(** A gateway on which only the send for post 1 resolves. *)
Definition demo_gateway : Gateway := fun _ p => id p =? 1.

(** A stand-in for [datetime] on texts that are already normalised. *)
Definition demo_datetime : string -> option string := Some.

(** [datetime] on a text written as [toISOString] writes it: the date, a
    space and the time to the second; the fraction and the zone letter are
    dropped. *)
Definition iso_datetime (s : string) : option string :=
  if (19 <=? String.length s)%nat
  then Some (substring 0 10 s ++ " " ++ substring 11 8 s)%string
  else None.

Definition always : Gateway := fun _ _ => true.

(** The handler reads the row, the whole tick runs, the handler resumes. *)
Definition overlap_schedule : list Turn :=
  [TManual] ++ repeat TCron 8 ++ repeat TManual 4.

(** The handler runs to its end, then the tick. *)
Definition apart_schedule : list Turn :=
  repeat TManual 5 ++ repeat TCron 5.

(** A text of decimal digits as a number. *)
Fixpoint decimal_from (acc : Z) (s : string) : option Z :=
  match s with
  | EmptyString => Some acc
  | String c s' =>
      match digit c with
      | Some d => decimal_from (10 * acc + d) s'
      | None => None
      end
  end.

Definition decimal (s : string) : option Z :=
  match s with
  | EmptyString => None
  | _ => decimal_from 0 s
  end.

(** Stand-ins used in the samples.  [Number] reads decimal digits, the
    empty string as 0 and ["0x7"] as 7; INTEGER affinity reads decimal
    digits only. *)
Definition demo_number (s : string) : option Z :=
  if String.eqb s "" then Some 0
  else if String.eqb s "0x7" then Some 7
  else decimal s.

Definition demo_integer_text (s : string) : option Z := decimal s.

(** ** The users table ([users.js]) *)

(** One row of [users]; [createdAt] holds CURRENT_TIMESTAMP of the insert. *)
Record Account : Type := mkAccount {
  a_id : Z;
  username : string;
  password : string;
  a_telegram_token : option string;
  a_channel_id : option string;
  createdAt : string;
  add_images : Z;
  use_own_posts : Z;
  use_other_channels : Z;
  channels_list : option string;
  use_sites : Z;
  sites_list : option string;
  auth_token : option string
}.

Record UsersDB : Type := mkUsersDB {
  accounts : list Account;
  users_seq : Z
}.

Definition empty_users : UsersDB := {| accounts := []; users_seq := 0 |}.

Definition account_ids (l : list Account) : list Z := map a_id l.

Definition max_account_id (l : list Account) : Z :=
  fold_right Z.max 0 (account_ids l).

Definition has_token (t : string) (a : Account) : bool :=
  match auth_token a with
  | Some x => String.eqb x t
  | None => false
  end.

(** [SELECT id FROM users WHERE auth_token = ?]. *)
Definition by_token (t : string) (u : UsersDB) : option Account :=
  find (has_token t) (accounts u).

(** [SELECT ... FROM users WHERE username = ?]. *)
Definition by_username (n : string) (u : UsersDB) : option Account :=
  find (fun a => String.eqb (username a) n) (accounts u).

(** [SELECT ... FROM users WHERE id = ?] for an integer. *)
Definition by_id (i : Z) (u : UsersDB) : option Account :=
  find (fun a => a_id a =? i) (accounts u).

(** [INSERT INTO users (username, password, telegram_token, channel_id,
    auth_token) VALUES (?, ?, ?, ?, ?)] at time [clock]: [None] when a
    UNIQUE constraint ([username], [auth_token]) rejects the row; the other
    columns take their defaults. *)
Definition users_insert (n pw : string) (tg ch : option string) (tok clock : string)
    (u : UsersDB) : option (Z * UsersDB) :=
  if existsb (fun a => String.eqb (username a) n) (accounts u)
     || existsb (has_token tok) (accounts u)
  then None
  else
    let i := Z.max (users_seq u) (max_account_id (accounts u)) + 1 in
    Some (i, {| accounts := accounts u ++
                  [ {| a_id := i; username := n; password := pw;
                       a_telegram_token := tg; a_channel_id := ch;
                       createdAt := clock;
                       add_images := 1; use_own_posts := 0;
                       use_other_channels := 0; channels_list := None;
                       use_sites := 0; sites_list := None;
                       auth_token := Some tok |} ];
                users_seq := i |}).

(** ** Who is asking ([getRequesterId], the same in both routers) *)

(** [a || b]. *)
Definition or_else (a b : jsval) : jsval := if truthy_text a then a else b.

(** [req.headers[name]]. *)
Definition header (h : option string) : jsval :=
  match h with
  | Some s => JString s
  | None => JUndefined
  end.

(** What [getRequesterId] reads of a request; an absent [req.body] or
    [req.query] reads as absent fields. *)
Record Req : Type := mkReq {
  x_auth_token : option string;
  x_auth_token_alt : option string;
  x_user_id : option string;
  body_auth_token : jsval;
  query_auth_token : jsval;
  body_userId : json;
  query_userId : json
}.

Definition given (v : json) : bool :=
  match v with
  | VUndefined | VNull => false
  | _ => true
  end.

Section Identity.

(** [Number(s)] on a string when the result is an integer, as
    [Number.isInteger] tells; a builtin of the language, taken as given. *)
Variable Number_text : string -> option Z.

(** The legacy part: a numeric [userId] in the body, the query or a header. *)
Definition legacy_id (req : Req) : Requester :=
  if given (body_userId req) then as_integer Number_text (body_userId req)
  else if given (query_userId req) then as_integer Number_text (query_userId req)
  else
    match or_else (header (x_auth_token req)) (header (x_user_id req)) with
    | JString s => Number_text s
    | _ => None
    end.

Definition token_of (req : Req) : jsval :=
  or_else (or_else (or_else (header (x_auth_token req))
                            (header (x_auth_token_alt req)))
                   (body_auth_token req))
          (query_auth_token req).

Definition getRequesterId (req : Req) (u : UsersDB) : Requester :=
  match token_of req with
  | JString t =>
      if negb (String.eqb t "") then
        match by_token t u with
        | Some row => if negb (a_id row =? 0) then Some (a_id row) else legacy_id req
        | None => legacy_id req
        end
      else legacy_id req
  | _ => legacy_id req
  end.

End Identity.

(** ** Registration and login *)

(** Body of [POST /register]. *)
Record RegisterBody : Type := mkRegister {
  rb_username : jsval;
  rb_password : jsval;
  rb_telegram_token : jsval;
  rb_channel_id : jsval
}.

(** Body of [POST /login]. *)
Record LoginBody : Type := mkLogin {
  lb_username : jsval;
  lb_password : jsval
}.

(** What the routes of [users.js] answer. *)
Inductive UResponse (J : Type) : Type :=
| Registered (userId : Z) (token : string)
| LoggedIn (userId : Z) (telegram channel token : option string)
| SettingsOf (name : string) (telegram channel : option string)
             (images own other : bool) (channels : J) (sites : bool) (site_list : J)
| Updated
| Refused (code : Z).

Arguments Registered {J}.
Arguments LoggedIn {J}.
Arguments SettingsOf {J}.
Arguments Updated {J}.
Arguments Refused {J}.

Section Accounts.

Variable J : Type.

(** [bcrypt.hash(password, 10)] with the salt it drew, and [bcrypt.compare]. *)
Variable bcrypt_hash : string -> string -> string.
Variable bcrypt_compare : string -> string -> bool.

(** [router.post("/register")]; [salt] and [tok] are what [bcrypt] and
    [crypto.randomBytes(32).toString("hex")] drew, [clock] the time. *)
Definition register (salt tok clock : string) (body : RegisterBody) (u : UsersDB)
  : UResponse J * UsersDB :=
  match rb_username body, rb_password body,
        rb_telegram_token body, rb_channel_id body with
  | JString n, JString pw, JString tg, JString ch =>
      if String.eqb n "" || String.eqb pw "" || String.eqb tg "" || String.eqb ch ""
      then (Refused 400, u)
      else
        match by_username n u with
        | Some _ => (Refused 400, u)
        | None =>
            match users_insert n (bcrypt_hash salt pw) (Some tg) (Some ch)
                               tok clock u with
            | Some (lastID, u') => (Registered lastID tok, u')
            | None => (Refused 400, u)
            end
        end
  | _, _, _, _ => (Refused 400, u)
  end.

(** [router.post("/login")]. *)
Definition login (body : LoginBody) (u : UsersDB) : UResponse J :=
  match
    match lb_username body with
    | JString n => by_username n u
    | _ => None
    end
  with
  | None => Refused 404
  | Some user =>
      match lb_password body with
      | JString pw =>
          if bcrypt_compare pw (password user)
          then LoggedIn (a_id user) (a_telegram_token user) (a_channel_id user)
                        (auth_token user)
          else Refused 403
      | _ => Refused 500
      end
  end.

End Accounts.

(** ** Settings *)

Section Settings.

(** Parsed JSON values, with [JSON.stringify], [JSON.parse] ([None] when it
    throws) and the empty array. *)
Variable J : Type.
Variable stringify : J -> string.
Variable parse : string -> option J.
Variable empty_array : J.

(** [Number] on the path text, and the INTEGER affinity of the [id] column
    on it, as in [as_integer] and [owner_param]. *)
Variable Number_text : string -> option Z.
Variable integer_text : string -> option Z.

(** Body of [PUT /settings/:userId]: the flags are only tested for truth;
    of the two lists only a truthy value is looked at ([None] is any falsy
    one). *)
Record SettingsBody : Type := mkSettings {
  s_add_images : json;
  s_use_own_posts : json;
  s_use_other_channels : json;
  s_channels_list : option J;
  s_use_sites : json;
  s_sites_list : option J;
  s_channel_id : jsval;
  s_telegram_token : jsval
}.

(** [x ? 1 : 0]. *)
Definition flag (v : json) : Z := if truthy v then 1 else 0.

(** [JSON.stringify(x || [])]. *)
Definition list_text (v : option J) : string :=
  match v with
  | Some x => stringify x
  | None => stringify empty_array
  end.

(** [x || null]. *)
Definition or_null (v : jsval) : option string :=
  if truthy_text v then bind v else None.

(** [COALESCE(?, column)]. *)
Definition coalesce (a b : option string) : option string :=
  match a with
  | Some _ => a
  | None => b
  end.

(** The UPDATE of the settings route on the row with id [i]. *)
Definition users_update (i : Z) (body : SettingsBody) (u : UsersDB) : UsersDB :=
  {| accounts :=
       map (fun a =>
              if a_id a =? i then
                {| a_id := a_id a; username := username a; password := password a;
                   a_telegram_token :=
                     coalesce (or_null (s_telegram_token body)) (a_telegram_token a);
                   a_channel_id :=
                     coalesce (or_null (s_channel_id body)) (a_channel_id a);
                   createdAt := createdAt a;
                   add_images := flag (s_add_images body);
                   use_own_posts := flag (s_use_own_posts body);
                   use_other_channels := flag (s_use_other_channels body);
                   channels_list := Some (list_text (s_channels_list body));
                   use_sites := flag (s_use_sites body);
                   sites_list := Some (list_text (s_sites_list body));
                   auth_token := auth_token a |}
              else a)
           (accounts u);
     users_seq := users_seq u |}.

(** [UPDATE users SET ... WHERE id = ?] for the bound path text: a text that
    is no integer matches no row. *)
Definition users_update_text (t : string) (body : SettingsBody) (u : UsersDB)
  : UsersDB :=
  match integer_text t with
  | Some i => users_update i body u
  | None => u
  end.

(** [SELECT ... FROM users WHERE id = ?] for the bound path text. *)
Definition by_id_text (t : string) (u : UsersDB) : option Account :=
  match integer_text t with
  | Some i => by_id i u
  | None => None
  end.

(** [router.put("/settings/:userId")]: the check is on [Number(userId)], the
    UPDATE binds the path text. *)
Definition putSettings (requesterId : Requester) (userId : string)
    (body : SettingsBody) (u : UsersDB) : UResponse J * UsersDB :=
  match requesterId with
  | None => (Refused 400, u)
  | Some r =>
      match Number_text userId with
      | None => (Refused 403, u)
      | Some n =>
          if negb (n =? r) then (Refused 403, u)
          else (Updated, users_update_text userId body u)
      end
  end.

(** [column ? JSON.parse(column) : []]. *)
Definition list_value (c : option string) : option J :=
  match c with
  | Some s => if String.eqb s "" then Some empty_array else parse s
  | None => Some empty_array
  end.

(** [router.get("/settings/:userId")]. *)
Definition getSettings (requesterId : Requester) (userId : string) (u : UsersDB)
  : UResponse J :=
  match requesterId with
  | None => Refused 400
  | Some r =>
      match Number_text userId with
      | None => Refused 403
      | Some n =>
          if negb (n =? r) then Refused 403
          else
            match by_id_text userId u with
            | None => Refused 404
            | Some a =>
                match list_value (channels_list a), list_value (sites_list a) with
                | Some cl, Some sl =>
                    SettingsOf (username a) (a_telegram_token a) (a_channel_id a)
                               (negb (add_images a =? 0))
                               (negb (use_own_posts a =? 0))
                               (negb (use_other_channels a =? 0))
                               cl
                               (negb (use_sites a =? 0))
                               sl
                | _, _ => Refused 500
                end
            end
      end
  end.

End Settings.

(** ** Writes to the users table in sequence *)

Section UsersLog.

Variable J : Type.
Variable stringify : J -> string.
Variable empty_array : J.
Variable bcrypt_hash : string -> string -> string.
Variable Number_text : string -> option Z.
Variable integer_text : string -> option Z.

(** The two routes of [users.js] that write. *)
Inductive UserOp : Type :=
| OpRegister (salt tok clock : string) (body : RegisterBody)
| OpPutSettings (r : Requester) (userId : string) (body : SettingsBody J).

Definition users_step (u : UsersDB) (op : UserOp) : UsersDB :=
  match op with
  | OpRegister salt tok clock body =>
      snd (register J bcrypt_hash salt tok clock body u)
  | OpPutSettings r userId body =>
      snd (putSettings J stringify empty_array Number_text integer_text
             r userId body u)
  end.

Definition users_serve (ops : list UserOp) (u : UsersDB) : UsersDB :=
  fold_left users_step ops u.

End UsersLog.

(** Two versions of a row agree on what identifies the account. *)
Definition same_account (a a' : Account) : Prop :=
  a_id a' = a_id a /\ username a' = username a /\
  password a' = password a /\ auth_token a' = auth_token a.

(** UNIQUE and PRIMARY KEY on the users table. *)
Definition users_inv (u : UsersDB) : Prop :=
  NoDup (account_ids (accounts u)) /\
  NoDup (map username (accounts u)) /\
  (forall a b t, In a (accounts u) -> In b (accounts u) ->
                 auth_token a = Some t -> auth_token b = Some t -> a = b).

(** Stand-ins used in the samples: values are texts, written in brackets;
    the hash is the password itself. *)
Definition demo_stringify (s : string) : string := String "[" s.

Definition demo_parse (t : string) : option string :=
  match t with
  | String _ s => Some s
  | EmptyString => None
  end.

Definition demo_hash (salt pw : string) : string := pw.

Definition demo_register : RegisterBody :=
  {| rb_username := JString "ann"; rb_password := JString "pw";
     rb_telegram_token := JString "t"; rb_channel_id := JString "c" |}.

Definition demo_request (tok : option string) (claimed : json) : Req :=
  {| x_auth_token := tok; x_auth_token_alt := None; x_user_id := None;
     body_auth_token := JUndefined; query_auth_token := JUndefined;
     body_userId := claimed; query_userId := VUndefined |}.

Definition demo_settings : SettingsBody string :=
  {| s_add_images := VBool false; s_use_own_posts := VInt 1;
     s_use_other_channels := VUndefined; s_channels_list := Some "a"%string;
     s_use_sites := VText "yes"; s_sites_list := None;
     s_channel_id := JString ""; s_telegram_token := JString "t2" |}.

(** ** Sockets coming and going ([attachEvents]) *)

Definition set_clients (cs : list Client) (w : World) : World :=
  {| db := db w; usersDb := usersDb w; clients := cs; files := files w;
     wire := wire w; published := published w; outbox := outbox w;
     errlog := errlog w |}.

(** [wss.on("connection", (ws) => clients.add(ws))]: the socket is open when
    it connects, and a Set holds it once. *)
Definition on_connection (h : nat) (w : World) : World :=
  if existsb (fun c => Nat.eqb (handle c) h) (clients w) then w
  else set_clients (clients w ++ [ {| handle := h; readyState := 1 |} ]) w.

(** [ws.on("close", () => clients.delete(ws))]. *)
Definition on_close (h : nat) (w : World) : World :=
  set_clients (filter (fun c => negb (Nat.eqb (handle c) h)) (clients w)) w.

(** The [readyState] of a socket changing under the Set (2 is CLOSING, 3 CLOSED). *)
Definition on_state (h : nat) (st : Z) (w : World) : World :=
  set_clients
    (map (fun c => if Nat.eqb (handle c) h
                   then {| handle := handle c; readyState := st |} else c)
         (clients w)) w.

(** What happens to the process, in order. *)
Inductive Event : Type :=
| EvConnect (h : nat)
| EvClose (h : nat)
| EvState (h : nat) (st : Z)
| EvRequest (q : Request).

Section Playing.

Variable Number_text : string -> option Z.
Variable integer_text : string -> option Z.

Definition play_event (w : World) (e : Event) : World :=
  match e with
  | EvConnect h => on_connection h w
  | EvClose h => on_close h w
  | EvState h st => on_state h st w
  | EvRequest q => handle_request Number_text integer_text w q
  end.

Definition play (es : list Event) (w : World) : World :=
  fold_left play_event es w.

End Playing.

(** The messages sent to socket [h] so far. *)
Definition inbox (h : nat) (w : World) : list (nat * Message) :=
  filter (fun x => Nat.eqb (fst x) h) (wire w).

(** Socket [h] is in the Set and open. *)
Definition listening (h : nat) (w : World) : bool :=
  existsb (fun c => Nat.eqb (handle c) h && (readyState c =? 1)) (clients w).

(** The event does not bring socket [h] into the Set. *)
Definition stays_away (h : nat) (e : Event) : Prop :=
  match e with
  | EvConnect h' => h' <> h
  | EvRequest (Outside _ cs _) => ~ In h (map handle cs)
  | _ => True
  end.

(** ** Generated posts ([POST /generate-posts/:userId]) *)

(** A post as the generation service returns it, and as the route shows it. *)
Record GenPost : Type := mkGen {
  g_id : json;
  g_title : jsval;
  g_description : jsval;
  g_url : jsval
}.

Record ShownPost : Type := mkShown {
  sh_id : json;
  sh_title : string;
  sh_description : string;
  sh_url : option string
}.

(** [v || d] for a text default [d]. *)
Definition or_text (v : jsval) (d : string) : string :=
  if truthy_text v then match v with JString s => s | _ => d end else d.

(** The default title of the post at index [i]: the literal, then [i + 1]. *)
Definition default_title (i : nat) : string :=
  String.append "Пост #" (NilEmpty.string_of_uint (Nat.to_uint (S i))).

Definition default_description : string := "Описание отсутствует".

(** One element of [posts.map((p, i) => ...)]. *)
Definition format_post (i : nat) (p : GenPost) : ShownPost :=
  {| sh_id := g_id p;
     sh_title := or_text (g_title p) (default_title i);
     sh_description := or_text (g_description p) default_description;
     sh_url := or_null (g_url p) |}.

(** [posts.map((p, i) => ...)], from index [i] on. *)
Fixpoint format_from (i : nat) (l : list GenPost) : list ShownPost :=
  match l with
  | [] => []
  | p :: rest => format_post i p :: format_from (S i) rest
  end.

(** The answer carries [userId] as the path gave it. *)
Inductive GenResponse : Type :=
| Generated (userId : string) (posts : list ShownPost)
| GenRefused (code : Z).

(** The route; [service] is what [generatePostsService] resolved to for the
    settings row read and the prompt, [None] when it threw. *)
Definition generatePostsRoute (Number_text : string -> option Z)
    (requesterId : Requester) (userId : string)
    (service : option (list GenPost)) : GenResponse :=
  match requesterId with
  | None => GenRefused 400
  | Some r =>
      match Number_text userId with
      | None => GenRefused 403
      | Some n =>
          if negb (n =? r) then GenRefused 403
          else
            match service with
            | None => GenRefused 500
            | Some posts => Generated userId (format_from 0 posts)
            end
      end
  end.

(** ** The prompt built from the news ([buildPromptFromNews]) *)

Record NewsItem : Type := mkNews {
  n_title : jsval;
  n_description : jsval
}.

Definition nl : string := String (ascii_of_nat 10) EmptyString.

(** A value inside a template literal. *)
Definition template_text (v : jsval) : string :=
  match v with
  | JString s => s
  | JNull => "null"
  | JUndefined => "undefined"
  end.

(** [Array.prototype.join]. *)
Fixpoint join (sep : string) (l : list string) : string :=
  match l with
  | [] => EmptyString
  | [a] => a
  | a :: rest => String.append a (String.append sep (join sep rest))
  end.

Definition news_line (it : NewsItem) : string :=
  String.append (template_text (n_title it))
                (String.append nl (or_text (n_description it) EmptyString)).

Definition news_block (items : list NewsItem) : string :=
  join (String.append nl nl) (map news_line (firstn 6 items)).

Definition prompt_head : string := "На основе этих новостей:".

Definition prompt_tail : string :=
  String.append "Сгенерируй массив из трёх новых постов в формате JSON. У каждого поста должны быть:"
 (String.append nl
 (String.append "- title"
 (String.append nl
 (String.append "- description (длинный, как полноценный новостной пост в Telegram)"
 (String.append nl
 (String.append "Только массив из трёх постов, ничего лишнего, на русском языке."
 (String.append nl
  "Важно: не используй обёртку ```json, никаких дополнительных комментариев или текста — только чистый JSON-массив."))))))).

Definition buildPromptFromNews (items : list NewsItem) : string :=
  String.append prompt_head
 (String.append nl
 (String.append (news_block items)
 (String.append nl (String.append nl prompt_tail)))).

Definition demo_news (n : string) : NewsItem :=
  {| n_title := JString n; n_description := JUndefined |}.

(** * Properties *)

(** Turns a fact about [?=] on integers into the inequality it stands for. *)
Ltac zcmp H :=
  match type of H with
  | (?a ?= ?b) = Eq => apply Z.compare_eq in H
  | (?a ?= ?b) = Lt => change (a < b) in H
  | (?a ?= ?b) = Gt => change (a > b) in H
  end.

(** ** Helper facts about the statements *)

Lemma sql_get_some (i : Z) (b : DB) (p : Post) :
  sql_get i b = Some p -> In p (rows b) /\ id p = i.
Proof.
  unfold sql_get. intro H. apply find_some in H.
  destruct H as [Hin Heq]. apply Z.eqb_eq in Heq. auto.
Qed.

Lemma sql_get_none (i : Z) (b : DB) :
  sql_get i b = None <-> ~ In i (ids (rows b)).
Proof.
  unfold sql_get, ids. split.
  - intros H Hin. apply in_map_iff in Hin. destruct Hin as [p [Hp Hin]].
    pose proof (find_none _ _ H p Hin) as Hf. simpl in Hf.
    rewrite Hp, Z.eqb_refl in Hf. discriminate.
  - intro H. destruct (find _ _) eqn:E; [|reflexivity].
    apply find_some in E. destruct E as [Hin Heq]. apply Z.eqb_eq in Heq.
    exfalso. apply H. apply in_map_iff. eauto.
Qed.

Lemma in_keyed_eq (l : list Post) (p q : Post) :
  NoDup (ids l) -> In p l -> In q l -> id p = id q -> p = q.
Proof.
  induction l as [|a l IH]; simpl; [tauto|].
  intros Hnd Hp Hq Heq. inversion Hnd as [|? ? Hni Hnd']; subst.
  destruct Hp as [Hp|Hp], Hq as [Hq|Hq]; subst; auto.
  - exfalso. apply Hni. rewrite Heq. apply in_map. assumption.
  - exfalso. apply Hni. rewrite <- Heq. apply in_map. assumption.
Qed.

Lemma sql_get_in (b : DB) (p : Post) :
  well_keyed b -> In p (rows b) -> sql_get (id p) b = Some p.
Proof.
  intros Hk Hin. destruct (sql_get (id p) b) as [q|] eqn:E.
  - apply sql_get_some in E. destruct E as [Hq Hid].
    f_equal. apply (in_keyed_eq (rows b)); auto.
  - apply sql_get_none in E. exfalso. apply E. apply in_map. assumption.
Qed.

Lemma ids_filter_NoDup (f : Post -> bool) (l : list Post) :
  NoDup (ids l) -> NoDup (ids (filter f l)).
Proof.
  induction l as [|a l IH]; simpl; intro H; [constructor|].
  inversion H as [|? ? Hni Hnd]; subst.
  destruct (f a); simpl; auto. constructor; auto.
  intro Hin. apply Hni. unfold ids in *. apply in_map_iff in Hin.
  destruct Hin as [x [Hx Hin]]. apply filter_In in Hin.
  apply in_map_iff. exists x. tauto.
Qed.

Lemma delete_rows_in (i : Z) (b : DB) (p : Post) :
  In p (rows (fst (sql_delete i b))) <-> In p (rows b) /\ id p <> i.
Proof.
  simpl. rewrite filter_In. rewrite negb_true_iff, Z.eqb_neq. tauto.
Qed.

Lemma delete_well_keyed (i : Z) (b : DB) :
  well_keyed b -> well_keyed (fst (sql_delete i b)).
Proof. unfold well_keyed. simpl. apply ids_filter_NoDup. Qed.

Lemma filter_none_id {A : Type} (f : A -> bool) (l : list A) :
  (forall x, In x l -> f x = false) -> filter f l = [].
Proof.
  induction l as [|a l IH]; simpl; intro H; [reflexivity|].
  rewrite (H a (or_introl eq_refl)). apply IH. intros x Hx. apply H. auto.
Qed.

Lemma filter_all_id {A : Type} (f : A -> bool) (l : list A) :
  (forall x, In x l -> f x = true) -> filter f l = l.
Proof.
  induction l as [|a l IH]; simpl; intro H; [reflexivity|].
  rewrite (H a (or_introl eq_refl)). f_equal. apply IH. intros x Hx. apply H. auto.
Qed.

Lemma count_keyed (l : list Post) (p : Post) :
  NoDup (ids l) -> In p l ->
  List.length (filter (fun q => id q =? id p) l) = 1%nat.
Proof.
  induction l as [|a l IH]; simpl; [tauto|].
  intros Hnd Hin. inversion Hnd as [|? ? Hni Hnd']; subst.
  destruct Hin as [->|Hin].
  - rewrite Z.eqb_refl. simpl. f_equal.
    rewrite filter_none_id; [reflexivity|].
    intros x Hx. apply Z.eqb_neq. intro E. apply Hni. rewrite <- E.
    apply in_map. assumption.
  - destruct (id a =? id p) eqn:E.
    + apply Z.eqb_eq in E. exfalso. apply Hni. rewrite E. apply in_map. assumption.
    + auto.
Qed.

(** ** The text order *)

Lemma text_lt_irrefl (a : string) : ~ String_as_OT.lt a a.
Proof. exact (@StrictOrder_Irreflexive _ _ String_as_OT.lt_strorder a). Qed.

Lemma text_lt_trans (a b c : string) :
  String_as_OT.lt a b -> String_as_OT.lt b c -> String_as_OT.lt a c.
Proof. exact (@StrictOrder_Transitive _ _ String_as_OT.lt_strorder a b c). Qed.

Lemma text_compare_refl (a : string) : text_compare a a = Eq.
Proof.
  unfold text_compare. destruct (String_as_OT.compare_spec a a) as [_|H|H];
    [reflexivity | |]; exfalso; exact (text_lt_irrefl _ H).
Qed.

Lemma text_compare_eq (a b : string) : text_compare a b = Eq -> a = b.
Proof.
  unfold text_compare. destruct (String_as_OT.compare_spec a b); congruence.
Qed.

Lemma text_compare_lt_trans (a b c : string) :
  text_compare a b = Lt -> text_compare b c = Lt -> text_compare a c = Lt.
Proof. apply text_lt_trans. Qed.

Lemma text_compare_gt_lt (a b : string) :
  text_compare a b = Gt <-> text_compare b a = Lt.
Proof.
  unfold text_compare.
  destruct (String_as_OT.compare_spec a b) as [E|H|H],
           (String_as_OT.compare_spec b a) as [E'|H'|H'];
    split; intro X; try discriminate; try reflexivity;
    unfold String_as_OT.eq in *; subst; exfalso;
    first [ exact (text_lt_irrefl _ H)
          | exact (text_lt_irrefl _ H')
          | exact (text_lt_irrefl _ (text_lt_trans _ _ _ H H')) ].
Qed.

Lemma text_le_trans (a b c : string) :
  text_le a b = true -> text_le b c = true -> text_le a c = true.
Proof.
  unfold text_le. intros Hab Hbc.
  destruct (text_compare a b) eqn:Eab; try discriminate;
  destruct (text_compare b c) eqn:Ebc; try discriminate.
  - apply text_compare_eq in Eab, Ebc. subst. rewrite text_compare_refl. reflexivity.
  - apply text_compare_eq in Eab. subst. rewrite Ebc. reflexivity.
  - apply text_compare_eq in Ebc. subst. rewrite Eab. reflexivity.
  - rewrite (text_compare_lt_trans _ _ _ Eab Ebc). reflexivity.
Qed.

(** The comparison of two bytes is the comparison of their codes. *)
Lemma byte_compare_lt (a b : ascii) :
  Ascii_as_OT.compare a b = Lt <-> (nat_of_ascii a < nat_of_ascii b)%nat.
Proof.
  unfold Ascii_as_OT.compare, nat_of_ascii.
  change (N_as_OT.compare (N_of_ascii a) (N_of_ascii b))
    with (N.compare (N_of_ascii a) (N_of_ascii b)).
  rewrite N2Nat.inj_compare. apply Nat.compare_lt_iff.
Qed.

Lemma byte_compare_eq (a b : ascii) : Ascii_as_OT.compare a b = Eq -> a = b.
Proof. apply Ascii.compare_eq_iff. Qed.

Lemma byte_compare_refl (a : ascii) : Ascii_as_OT.compare a a = Eq.
Proof.
  unfold Ascii_as_OT.compare.
  change (N_as_OT.compare (N_of_ascii a) (N_of_ascii a))
    with (N.compare (N_of_ascii a) (N_of_ascii a)).
  apply N.compare_refl.
Qed.

(** The comparison of the column is the byte-by-byte order. *)
Lemma text_compare_lt_iff (a b : string) :
  text_compare a b = Lt <-> bytewise_lt a b.
Proof.
  unfold text_compare. revert b.
  induction a as [|x s IH]; intros [|y t]; cbn [String_as_OT.compare].
  - split; [discriminate|intro H; inversion H].
  - split; [intros _; constructor|reflexivity].
  - split; [discriminate|intro H; inversion H].
  - destruct (Ascii_as_OT.compare x y) eqn:E.
    + apply byte_compare_eq in E. subst y. rewrite IH. split.
      * intro H. apply lt_tail. exact H.
      * intro H. inversion H; subst; [lia|assumption].
    + split; [|reflexivity]. intros _. apply lt_head.
      apply byte_compare_lt. exact E.
    + split; [discriminate|]. intro H. inversion H; subst.
      * apply byte_compare_lt in H1. congruence.
      * rewrite byte_compare_refl in E. discriminate.
Qed.

Lemma text_le_iff (a b : string) : text_le a b = true <-> bytewise_le a b.
Proof.
  unfold text_le, bytewise_le. rewrite <- text_compare_lt_iff.
  destruct (text_compare a b) eqn:E.
  - apply text_compare_eq in E. tauto.
  - tauto.
  - split; [discriminate|]. intros [->|H]; [|discriminate].
    rewrite text_compare_refl in E. discriminate.
Qed.

(** ** Candidate query *)

(** C2, as stated, fails: the query compares the stored text with the text
    of [now], not the times they name.  A post whose text names a time
    later than [now] is returned, because a space sorts before [T]; a post
    whose text names a time not after [now] is not returned, because [Z]
    sorts after the point; and a post whose text is empty, which names no
    time, is returned at any [now]. *)
Lemma due_goes_by_text :
  let late := demo_post 1 (Some "2024-06-01 23:59:59"%string) in
  let early := demo_post 2 (Some "2024-06-01T23:59:59Z"%string) in
  let blank := demo_post 3 (Some ""%string) in
  let b := {| rows := [late; early; blank]; seq := 3 |} in
  (In late (sql_select_due "2024-06-01T01:00:00.000Z" b) /\
   clock_reading "2024-06-01 23:59:59" = Some 20240601235959 /\
   clock_reading "2024-06-01T01:00:00.000Z" = Some 20240601010000) /\
  (~ In early (sql_select_due "2024-06-01T23:59:59.500Z" b) /\
   clock_reading "2024-06-01T23:59:59Z" = Some 20240601235959 /\
   clock_reading "2024-06-01T23:59:59.500Z" = Some 20240601235959) /\
  (In blank (sql_select_due "2024-06-01T01:00:00.000Z" b) /\
   clock_reading "" = None).
Proof.
  cbv zeta. repeat split; try reflexivity.
  - left. reflexivity.
  - cbn. intros [H|[H|[]]]; discriminate H.
  - right. left. reflexivity.
Qed.

(** C2, amended. The query of the cron tick returns a stored post exactly
    when its [sent] flag is 0 and its [scheduledAt] is a text that comes at
    or before the text of [now] byte by byte; so neither an unscheduled
    draft nor a post flagged as sent is ever returned. *)
Theorem due_candidates_iff (now : string) (b : DB) (p : Post) :
  (In p (sql_select_due now b) <->
     In p (rows b) /\
     (exists s, scheduledAt p = Some s /\ bytewise_le s now) /\
     sent p = 0)
  /\ (scheduledAt p = None -> ~ In p (sql_select_due now b))
  /\ (sent p <> 0 -> ~ In p (sql_select_due now b)).
Proof.
  assert (Hiff : In p (sql_select_due now b) <->
     In p (rows b) /\
     (exists s, scheduledAt p = Some s /\ bytewise_le s now) /\
     sent p = 0).
  { unfold sql_select_due, is_due. rewrite filter_In, andb_true_iff, Z.eqb_eq.
    destruct (scheduledAt p) as [s|].
    - rewrite text_le_iff. split.
      + intros [Hin [Hs Hle]]. repeat split; eauto.
      + intros [Hin [[s' [Hs' Hle]] Hs]]. inversion Hs'; subst. auto.
    - split.
      + intros [_ [_ H]]. discriminate.
      + intros [_ [[s' [Hs' _]] _]]. discriminate. }
  split; [exact Hiff|]. split.
  - intros Hn Hin. apply Hiff in Hin. destruct Hin as [_ [[s [Hs _]] _]]. congruence.
  - intros Hn Hin. apply Hiff in Hin. tauto.
Qed.

(** ** Deleting on delivery *)

(** C3. The DELETE issued after a delivery removes the post's row; issued a
    second time for the same id it changes no row, leaves the table as it
    was and raises nothing ([changes] is 1, then 0). *)
Theorem delete_twice_once (b : DB) (p : Post) :
  well_keyed b -> In p (rows b) ->
  let b1 := fst (sql_delete (id p) b) in
  snd (sql_delete (id p) b) = 1%nat /\
  snd (sql_delete (id p) b1) = 0%nat /\
  fst (sql_delete (id p) b1) = b1 /\
  sql_get (id p) b1 = None /\
  (forall q, In q (rows b1) <-> In q (rows b) /\ id q <> id p).
Proof.
  intros Hk Hin b1. split; [|split; [|split; [|split]]].
  - simpl. apply count_keyed; assumption.
  - subst b1. simpl. rewrite filter_none_id; [reflexivity|].
    intros x Hx. apply filter_In in Hx. destruct Hx as [_ Hx].
    apply negb_true_iff in Hx. assumption.
  - subst b1. unfold sql_delete. simpl. f_equal.
    apply filter_all_id. intros x Hx. apply filter_In in Hx. tauto.
  - apply sql_get_none. intro H. apply in_map_iff in H.
    destruct H as [q [Hq H]]. apply delete_rows_in in H. tauto.
  - intro q. apply delete_rows_in.
Qed.

Lemma demo_db_keyed : well_keyed demo_db.
Proof.
  unfold well_keyed. simpl. repeat constructor; simpl; intuition discriminate.
Qed.

Lemma delete_twice_once_witness :
  snd (sql_delete 2 demo_db) = 1%nat /\
  snd (sql_delete 2 (fst (sql_delete 2 demo_db))) = 0%nat.
Proof.
  pose proof (delete_twice_once demo_db
                (demo_post 2 (Some "2024-01-01T00:00:00.000Z"%string))
                demo_db_keyed (or_intror (or_introl eq_refl))) as H.
  simpl in H. destruct H as [H1 [H2 _]]. split; assumption.
Defined.

(** ** Row updates *)

Section UpdateWhere.

Variable i : Z.
Variable f : Post -> Post.
Hypothesis f_id : forall p, id (f p) = id p.

Lemma patch_id (p : Post) : id (patch i f p) = id p.
Proof. unfold patch. destruct (id p =? i); auto. Qed.

Lemma update_where_ids (b : DB) : ids (rows (update_where i f b)) = ids (rows b).
Proof.
  unfold update_where, ids. simpl. rewrite map_map.
  apply map_ext. intro p. apply patch_id.
Qed.

Lemma update_where_get (j : Z) (b : DB) :
  sql_get j (update_where i f b) = option_map (patch i f) (sql_get j b).
Proof.
  unfold sql_get, update_where. simpl.
  induction (rows b) as [|a l IH]; simpl; [reflexivity|].
  rewrite patch_id. destruct (id a =? j); [reflexivity|apply IH].
Qed.

Lemma update_where_get_same (b : DB) (p : Post) :
  sql_get i b = Some p -> sql_get i (update_where i f b) = Some (f p).
Proof.
  intro H. rewrite update_where_get, H. simpl. unfold patch.
  apply sql_get_some in H. destruct H as [_ H]. rewrite H, Z.eqb_refl. reflexivity.
Qed.

Lemma update_where_get_other (j : Z) (b : DB) :
  j <> i -> sql_get j (update_where i f b) = sql_get j b.
Proof.
  intro H. rewrite update_where_get.
  destruct (sql_get j b) as [p|] eqn:E; [|reflexivity].
  simpl. unfold patch. apply sql_get_some in E. destruct E as [_ E].
  rewrite E. apply Z.eqb_neq in H. rewrite H. reflexivity.
Qed.

Lemma update_where_forall (Q : Post -> Prop) (b : DB) :
  (forall p, Q p -> Q (f p)) ->
  Forall Q (rows b) -> Forall Q (rows (update_where i f b)).
Proof.
  intros HQ H. unfold update_where. simpl. apply Forall_map.
  eapply Forall_impl; [|exact H]. intros p Hp. unfold patch.
  destruct (id p =? i); auto.
Qed.

End UpdateWhere.

(** ** The files the handlers unlink *)

Lemma set_files_same (w : World) : set_files (files w) w = w.
Proof. destruct w. reflexivity. Qed.

Lemma unlinkSync_some (name : string) (w w1 : World) :
  unlinkSync name w = Some w1 ->
  stored_file name w = true /\
  w1 = set_files (filter (fun f => negb (String.eqb f name)) (files w)) w.
Proof.
  unfold unlinkSync. destruct (stored_file name w); [|discriminate].
  intro H. inversion H. split; reflexivity.
Qed.

(** A path that exists can be unlinked unless it is a directory. *)
Lemma exists_unlink (name : string) (w : World) :
  existsSync name w = true ->
  (unlinkSync name w = None <-> is_directory name = true).
Proof.
  unfold existsSync, unlinkSync, stored_file.
  destruct (is_directory name); cbn [negb andb orb].
  - intros _. split; reflexivity.
  - intros ->. split; discriminate.
Qed.

Lemma absent_not_stored (name : string) (w : World) :
  existsSync name w = false -> stored_file name w = false.
Proof.
  unfold existsSync. intro H. apply orb_false_iff in H. tauto.
Qed.

Lemma filter_not_stored (name : string) (w : World) :
  is_directory name = false -> stored_file name w = false ->
  filter (fun f => negb (String.eqb f name)) (files w) = files w.
Proof.
  unfold stored_file. intros -> H. cbn [negb andb] in H.
  apply filter_all_id. intros f Hf. apply negb_true_iff.
  destruct (String.eqb f name) eqn:E; [|reflexivity].
  apply String.eqb_eq in E. subst f.
  assert (X : existsb (String.eqb name) (files w) = true).
  { apply existsb_exists. exists name. split; [exact Hf|apply String.eqb_refl]. }
  congruence.
Qed.

(** The unlink before the statement of the update and delete routes throws
    exactly for a post whose upload is a directory. *)
Lemma discard_upload_none (post : Post) (w : World) :
  discard_upload post w = None <-> jammed post = true.
Proof.
  unfold discard_upload, jammed. destruct (uploaded post) as [name|].
  - destruct (existsSync name w) eqn:E.
    + apply exists_unlink. exact E.
    + unfold existsSync in E. apply orb_false_iff in E. destruct E as [E _].
      rewrite E. split; discriminate.
  - split; discriminate.
Qed.

(** When it does not throw it removes the upload and touches nothing else. *)
Lemma discard_upload_some (post : Post) (w w1 : World) :
  discard_upload post w = Some w1 ->
  w1 = set_files (filter (fun f => negb (names post f)) (files w)) w.
Proof.
  unfold discard_upload, names. destruct (uploaded post) as [name|] eqn:Eu.
  - destruct (existsSync name w) eqn:E.
    + intro H. apply unlinkSync_some in H. tauto.
    + intro H. inversion H; subst w1.
      assert (Hd : is_directory name = false).
      { unfold existsSync in E. apply orb_false_iff in E. tauto. }
      rewrite (filter_not_stored name w Hd (absent_not_stored _ _ E)).
      symmetry. apply set_files_same.
  - intro H. inversion H; subst w1.
    rewrite filter_all_id by reflexivity. symmetry. apply set_files_same.
Qed.

Lemma discard_upload_cases (post : Post) (w : World) :
  (jammed post = true /\ discard_upload post w = None) \/
  (jammed post = false /\
   discard_upload post w =
     Some (set_files (filter (fun f => negb (names post f)) (files w)) w)).
Proof.
  destruct (discard_upload post w) as [w1|] eqn:E.
  - right. split.
    + destruct (jammed post) eqn:J; [|reflexivity].
      apply (proj2 (discard_upload_none post w)) in J. congruence.
    + f_equal. apply discard_upload_some. exact E.
  - left. split; [apply discard_upload_none in E; exact E|reflexivity].
Qed.

(** The unlink after a send that resolved, when no other handler ran since
    the file was looked for: it throws exactly for a post whose upload is a
    directory, and otherwise removes the upload. *)
Lemma after_send_cases (post : Post) (w w1 : World) :
  files w1 = files w ->
  (jammed post = true /\ after_send (stream_of post w) w1 = None) \/
  (jammed post = false /\
   after_send (stream_of post w) w1 =
     Some (set_files (filter (fun f => negb (names post f)) (files w1)) w1)).
Proof.
  intro Hf.
  assert (Hs : forall name, stored_file name w1 = stored_file name w)
    by (intro name; unfold stored_file; rewrite Hf; reflexivity).
  unfold stream_of, jammed, names, after_send.
  destruct (uploaded post) as [name|].
  - destruct (existsSync name w) eqn:E.
    + unfold unlinkSync. rewrite Hs. unfold existsSync in E.
      destruct (is_directory name) eqn:D.
      * left. unfold stored_file. rewrite D. split; reflexivity.
      * right. cbn [orb] in E. rewrite E. split; reflexivity.
    + right. unfold existsSync in E. apply orb_false_iff in E. destruct E as [D E].
      split; [exact D|]. f_equal.
      rewrite <- Hs in E. rewrite (filter_not_stored name w1 D E).
      symmetry. apply set_files_same.
  - right. split; [reflexivity|]. f_equal.
    rewrite filter_all_id by reflexivity. symmetry. apply set_files_same.
Qed.

(** Whenever the unlink after a send succeeds, it has only changed the files. *)
Lemma after_send_some (stream : option string) (w w1 : World) :
  after_send stream w = Some w1 -> exists fs, w1 = set_files fs w.
Proof.
  destruct stream as [name|]; cbn [after_send]; intro H.
  - apply unlinkSync_some in H. destruct H as [_ H]. eexists. exact H.
  - inversion H; subst w1. exists (files w). symmetry. apply set_files_same.
Qed.

(** ** Updating a post *)

Lemma update_outcome (r : Requester) (i : Z) (body : UpdateBody) (w : World)
    (post : Post) :
  sql_get i (db w) = Some post ->
  verifyOwnershipOrReject post r = None ->
  (replaces_url (u_url body) (url post) && jammed post = true /\
   update r i body w = (Failure 500, w)) \/
  (replaces_url (u_url body) (url post) && jammed post = false /\
   exists fs,
     update r i body w =
     (Success None,
      broadcast posts_updated
        (set_db (sql_update i
                   (nullish_text (u_title body) (title post))
                   (nullish (u_description body) (description post))
                   (url_param (u_url body) (url post))
                   (nullish (u_scheduledAt body) (scheduledAt post))
                   (db w))
                (set_files fs w)))).
Proof.
  intros Hget Hown. unfold update. rewrite Hget, Hown.
  destruct (replaces_url (u_url body) (url post)); cbn [andb].
  - destruct (discard_upload_cases post w) as [[J E]|[J E]]; rewrite J, E.
    + left. split; reflexivity.
    + right. split; [reflexivity|]. eexists. reflexivity.
  - right. split; [reflexivity|]. exists (files w).
    rewrite set_files_same. reflexivity.
Qed.

(** C7. A [PUT /:id] by the owner touches only the fields present in the
    body: a field left out keeps its stored value, [url: null] stores NULL,
    and [id], [user_id], [sent] and every other row stay as they were.  The
    request is answered with success, and then a field given as a string
    has taken it, unless it replaces the url of a post whose upload cannot
    be unlinked: that request is answered 500 and changes nothing. *)
Theorem update_changes_only_supplied
    (r : Requester) (i : Z) (body : UpdateBody) (w : World) (post : Post) :
  sql_get i (db w) = Some post ->
  verifyOwnershipOrReject post r = None ->
  let w' := snd (update r i body w) in
  (exists post',
      sql_get i (db w') = Some post' /\
      id post' = id post /\ user_id post' = user_id post /\ sent post' = sent post /\
      (u_title body = JUndefined -> title post' = title post) /\
      (u_description body = JUndefined -> description post' = description post) /\
      (u_url body = JUndefined -> url post' = url post) /\
      (u_scheduledAt body = JUndefined -> scheduledAt post' = scheduledAt post) /\
      (u_url body = JNull -> url post' = None) /\
      (fst (update r i body w) = Success None ->
         (forall s, u_title body = JString s -> title post' = s) /\
         (forall s, u_description body = JString s -> description post' = Some s) /\
         (forall s, u_url body = JString s -> url post' = Some s) /\
         (forall s, u_scheduledAt body = JString s -> scheduledAt post' = Some s))) /\
  (forall j, j <> i -> sql_get j (db w') = sql_get j (db w)) /\
  ids (rows (db w')) = ids (rows (db w)) /\
  (if replaces_url (u_url body) (url post) && jammed post
   then update r i body w = (Failure 500, w)
   else fst (update r i body w) = Success None).
Proof.
  intros Hget Hown w'. subst w'.
  destruct (update_outcome r i body w post Hget Hown) as [[C E]|[C [fs E]]];
    rewrite C, E; cbn [fst snd].
  - split; [|split; [|split]]; try reflexivity.
    exists post. split; [exact Hget|].
    assert (Hu : exists s, u_url body = JString s).
    { apply andb_true_iff in C. destruct C as [C _]. unfold replaces_url in C.
      destruct (u_url body) as [| |s]; try discriminate. eauto. }
    destruct Hu as [s Hu].
    repeat split; try reflexivity; try congruence; intros; discriminate.
  - cbn [db broadcast set_db set_files]. unfold sql_update.
    split; [|split; [|split]]; try reflexivity.
    + eexists. split.
      * apply update_where_get_same; [reflexivity|exact Hget].
      * cbn [id user_id sent title description url scheduledAt].
        repeat split; try reflexivity; intros; subst;
          repeat match goal with H : _ = _ |- _ => rewrite H end; reflexivity.
    + intros j Hj. apply update_where_get_other; [reflexivity|exact Hj].
    + apply update_where_ids. reflexivity.
Qed.

Example update_demo_row :
  sql_get 2 (db (snd (update (Some 7) 2 demo_update (demo_world demo_db))))
  = Some {| id := 2; user_id := SInt 7; title := "Z"; description := Some "Y"%string;
            url := None; scheduledAt := Some "2024-01-01T00:00:00.000Z"%string;
            sent := 0 |}.
Proof. reflexivity. Qed.

(** A new url for the post whose stored url is ["/uploads/."]: the unlink
    throws, the answer is 500 and nothing is written. *)
Example update_jammed_demo :
  update (Some 7) 2
    {| u_title := JString "Z"; u_description := JUndefined;
       u_url := JString "/uploads/b.png"; u_scheduledAt := JUndefined |}
    demo_photo_world
  = (Failure 500, demo_photo_world).
Proof. reflexivity. Qed.

Lemma update_changes_only_supplied_witness :
  ids (rows (db (snd (update (Some 7) 2 demo_update (demo_world demo_db)))))
  = ids (rows (db (demo_world demo_db))).
Proof.
  exact (proj1 (proj2 (proj2 (update_changes_only_supplied (Some 7) 2 demo_update
           (demo_world demo_db)
           (demo_post 2 (Some "2024-01-01T00:00:00.000Z"%string))
           eq_refl eq_refl)))).
Defined.

(** ** Creating a post *)

Lemma max_id_bound (l : list Post) (j : Z) : In j (ids l) -> j <= max_id l.
Proof.
  unfold max_id. induction (ids l) as [|a t IH]; simpl; [tauto|].
  intros [->|H]; [lia|]. specialize (IH H). lia.
Qed.

Lemma insert_fresh (u : sqlval) (t : string) (d x : option string) (b b' : DB) (k : Z) :
  sql_insert u (Some t) d x b = Some (k, b') -> ~ In k (ids (rows b)).
Proof.
  unfold sql_insert. intros H Hin. inversion H; subst.
  apply max_id_bound in Hin. lia.
Qed.

(** What [POST /] does once the requester has passed the check on
    [Number(userId)]. *)
Lemma create_checked (Number_text integer_text : string -> option Z)
    (r : Z) (body : CreateBody) (w : World) :
  as_integer Number_text (c_userId body) = Some r ->
  create Number_text integer_text (Some r) body w =
  match sql_insert (owner_param integer_text (c_userId body) r)
                   (bind (c_title body)) (bind (c_description body))
                   (bind (c_url body)) (db w) with
  | None => (Failure 500, w)
  | Some (lastID, d) => (Success (Some lastID), broadcast posts_updated (set_db d w))
  end.
Proof. intro H. unfold create. rewrite H, Z.eqb_refl. reflexivity. Qed.

(** C4, as stated, fails: a request whose title is the empty string is
    answered with success and its row is stored. *)
Lemma create_accepts_empty_title :
  fst (create demo_number demo_integer_text (Some 7) demo_create (boot [] [] []))
  = Success (Some 1) /\
  rows (db (snd (create demo_number demo_integer_text (Some 7) demo_create
                   (boot [] [] [])))) =
    [ {| id := 1; user_id := SInt 7; title := ""; description := Some "Y"%string;
         url := None; scheduledAt := None; sent := 0 |} ].
Proof. split; reflexivity. Qed.

(** C4, amended. For a requester whose id is what [Number] makes of the
    [userId] of the body, [POST /] is refused (status 500, table and
    broadcasts untouched) exactly when the title is absent, [undefined] or
    [null]: that is the NOT NULL constraint of the column.  Any string
    title, the empty one included, is stored as an unscheduled, unsent row
    under an id no stored row has, with [userId] as the INSERT bound it in
    [user_id]; that id is returned, and one [posts_updated] is broadcast. *)
Theorem create_rejects_missing_title
    (Number_text integer_text : string -> option Z)
    (r : Z) (body : CreateBody) (w : World) :
  as_integer Number_text (c_userId body) = Some r ->
  match bind (c_title body) with
  | None => create Number_text integer_text (Some r) body w = (Failure 500, w)
  | Some t =>
      exists k,
        fst (create Number_text integer_text (Some r) body w) = Success (Some k) /\
        ~ In k (ids (rows (db w))) /\
        rows (db (snd (create Number_text integer_text (Some r) body w))) =
          rows (db w) ++
          [ {| id := k; user_id := owner_param integer_text (c_userId body) r;
               title := t;
               description := bind (c_description body);
               url := bind (c_url body);
               scheduledAt := None; sent := 0 |} ] /\
        published (snd (create Number_text integer_text (Some r) body w))
        = published w ++ [posts_updated]
  end.
Proof.
  intro Hu. rewrite (create_checked _ _ _ _ _ Hu).
  destruct (bind (c_title body)) as [t|] eqn:Et.
  - destruct (sql_insert _ (Some t) _ _ (db w)) as [[k b']|] eqn:Ei;
      [|discriminate Ei].
    exists k. pose proof (insert_fresh _ _ _ _ _ _ _ Ei) as Hf.
    unfold sql_insert in Ei. inversion Ei; subst. clear Ei.
    cbn. repeat split; auto.
  - reflexivity.
Qed.

Lemma create_rejects_missing_title_witness :
  create demo_number demo_integer_text (Some 7)
    {| c_userId := VText "7"; c_title := JNull; c_description := JUndefined;
       c_url := JUndefined |} (demo_world demo_db)
  = (Failure 500, demo_world demo_db).
Proof.
  exact (create_rejects_missing_title demo_number demo_integer_text 7
    {| c_userId := VText "7"; c_title := JNull; c_description := JUndefined;
       c_url := JUndefined |} (demo_world demo_db) eq_refl).
Defined.

(** A [userId] that [Number] reads as 7 and the column keeps as a text:
    requester 7 creates the post, and the row belongs to nobody. *)
Example create_keeps_text_owner :
  rows (db (snd (create demo_number demo_integer_text (Some 7)
                   {| c_userId := VText "0x7"; c_title := JString "t";
                      c_description := JNull; c_url := JNull |}
                   (boot [] [] [])))) =
    [ {| id := 1; user_id := SText "0x7"; title := "t"; description := None;
         url := None; scheduledAt := None; sent := 0 |} ] /\
  getPost (Some 7) 1
    (snd (create demo_number demo_integer_text (Some 7)
            {| c_userId := VText "0x7"; c_title := JString "t";
               c_description := JNull; c_url := JNull |}
            (boot [] [] []))) = Failure 403.
Proof. split; reflexivity. Qed.

(** ** The cron loop *)

Section CronLoop.

Variable gw : Gateway.

(** The three ways the body of the loop leaves the world for a post whose
    owner has a users row. *)
Lemma loop_body_cases (a : Post) (u : UserRow) (w : World) :
  let w1 := push_delivery {| origin := Cron; recipient := u; payload := a |} w in
  (gw u a = false) \/
  (gw u a = true /\ jammed a = true /\ after_send (stream_of a w) w1 = None) \/
  (gw u a = true /\ jammed a = false /\
   after_send (stream_of a w) w1 =
     Some (set_files (filter (fun f => negb (names a f)) (files w)) w1)).
Proof.
  intro w1. destruct (gw u a); [right|left; reflexivity].
  destruct (after_send_cases a w w1 eq_refl) as [[J E]|[J E]];
    [left|right]; repeat split; assumption.
Qed.

(** Reasoning along the loop: a property of the world that the body keeps
    is kept by the loop. *)
Lemma cron_loop_keeps (Q : World -> Prop) :
  (forall x w, Q w -> Q (push_delivery x w)) ->
  (forall fs w, Q w -> Q (set_files fs w)) ->
  (forall i w, Q w -> Q (delete_row i w)) ->
  (forall i w, Q w -> Q (log_error i w)) ->
  forall l w, Q w -> Q (cron_loop gw l w).
Proof.
  intros Hp Hf Hd He. induction l as [|a l IH]; intros w H; cbn [cron_loop]; [exact H|].
  destruct (users_get (user_id a) w) as [u|]; [|apply IH; exact H].
  destruct (loop_body_cases a u w) as [G|[[G [J E]]|[G [J E]]]]; rewrite G; cbv zeta.
  - apply IH. apply He. exact H.
  - rewrite E. apply IH. apply He. apply Hp. exact H.
  - rewrite E. apply IH. apply Hd. apply Hf. apply Hp. exact H.
Qed.

Lemma cron_loop_usersDb (l : list Post) (w : World) :
  usersDb (cron_loop gw l w) = usersDb w.
Proof.
  apply (cron_loop_keeps (fun w' => usersDb w' = usersDb w)); auto.
Qed.

Lemma cron_loop_published (l : list Post) (w : World) :
  published (cron_loop gw l w) = published w.
Proof.
  apply (cron_loop_keeps (fun w' => published w' = published w)); auto.
Qed.

Lemma delivers_usersDb (w w' : World) (q : Post) :
  usersDb w' = usersDb w -> delivers gw w' q = delivers gw w q.
Proof. unfold delivers, users_get. intros ->. reflexivity. Qed.

Lemma removes_usersDb (w w' : World) (q : Post) :
  usersDb w' = usersDb w -> removes gw w' q = removes gw w q.
Proof. intro H. unfold removes. rewrite (delivers_usersDb _ _ _ H). reflexivity. Qed.

Lemma cron_loop_rows (l : list Post) (w : World) (p : Post) :
  In p (rows (db (cron_loop gw l w))) <->
  In p (rows (db w)) /\
  (forall q, In q l -> removes gw w q = true -> id q <> id p).
Proof.
  revert w. induction l as [|a l IH]; intro w; cbn [cron_loop].
  - simpl. intuition.
  - pose proof (eq_refl (removes gw w a)) as Ha.
    unfold removes at 2, delivers in Ha.
    destruct (users_get (user_id a) w) as [u|] eqn:Eu.
    + destruct (loop_body_cases a u w) as [G|[[G [J E]]|[G [J E]]]];
        rewrite G; cbv zeta; try rewrite E; rewrite IH;
        rewrite G, ?J in Ha; cbn [andb negb] in Ha.
      * cbn [db log_error]. split.
        -- intros [Hin Hall]. split; [exact Hin|].
           intros q [<-|Hq] Hd; [congruence|].
           apply Hall; [exact Hq|]. rewrite <- Hd. apply removes_usersDb. reflexivity.
        -- intros [Hin Hall]. split; [exact Hin|].
           intros q Hq Hd. apply Hall; [right; exact Hq|].
           rewrite <- Hd. symmetry. apply removes_usersDb. reflexivity.
      * cbn [db log_error push_delivery]. split.
        -- intros [Hin Hall]. split; [exact Hin|].
           intros q [<-|Hq] Hd; [congruence|].
           apply Hall; [exact Hq|]. rewrite <- Hd. apply removes_usersDb. reflexivity.
        -- intros [Hin Hall]. split; [exact Hin|].
           intros q Hq Hd. apply Hall; [right; exact Hq|].
           rewrite <- Hd. symmetry. apply removes_usersDb. reflexivity.
      * unfold delete_row. cbn [db set_db set_files push_delivery].
        rewrite delete_rows_in. split.
        -- intros [[Hin Hne] Hall]. split; [exact Hin|].
           intros q [<-|Hq] Hd; [congruence|].
           apply Hall; [exact Hq|]. rewrite <- Hd. apply removes_usersDb. reflexivity.
        -- intros [Hin Hall]. split; [split; [exact Hin|]|].
           ++ intro E'. apply (Hall a (or_introl eq_refl) Ha). congruence.
           ++ intros q Hq Hd. apply Hall; [right; exact Hq|].
              rewrite <- Hd. symmetry. apply removes_usersDb. reflexivity.
    + rewrite IH. cbn [andb] in Ha. split.
      * intros [Hin Hall]. split; [exact Hin|].
        intros q [<-|Hq] Hd; [congruence|]. apply Hall; assumption.
      * intros [Hin Hall]. split; [exact Hin|].
        intros q Hq Hd. apply Hall; [right; exact Hq|exact Hd].
Qed.

Lemma cron_loop_well_keyed (l : list Post) (w : World) :
  well_keyed (db w) -> well_keyed (db (cron_loop gw l w)).
Proof.
  apply (cron_loop_keeps (fun w' => well_keyed (db w'))); auto.
  intros i w' H. unfold delete_row. cbn [db set_db]. apply delete_well_keyed. exact H.
Qed.

Lemma cron_loop_outbox_keeps (l : list Post) (w : World) (x : Delivery) :
  In x (outbox w) -> In x (outbox (cron_loop gw l w)).
Proof.
  apply (cron_loop_keeps (fun w' => In x (outbox w'))); auto.
  intros y w' H. cbn. apply in_or_app. left. exact H.
Qed.

Lemma cron_loop_errlog_keeps (l : list Post) (w : World) (i : Z) :
  In i (errlog w) -> In i (errlog (cron_loop gw l w)).
Proof.
  apply (cron_loop_keeps (fun w' => In i (errlog w'))); auto.
  intros y w' H. cbn. apply in_or_app. left. exact H.
Qed.

Lemma cron_loop_outbox (l : list Post) (w : World) (q : Post) (u : UserRow) :
  In q l -> users_get (user_id q) w = Some u -> gw u q = true ->
  In {| origin := Cron; recipient := u; payload := q |} (outbox (cron_loop gw l w)).
Proof.
  revert w. induction l as [|a l IH]; intro w; cbn [cron_loop]; [simpl; tauto|].
  intros [->|Hq] Hu Hg.
  - rewrite Hu, Hg. cbv zeta.
    destruct (after_send _ _) as [w2|] eqn:E.
    + apply after_send_some in E. destruct E as [fs ->].
      apply cron_loop_outbox_keeps. cbn. apply in_or_app. right. left. reflexivity.
    + apply cron_loop_outbox_keeps. cbn. apply in_or_app. right. left. reflexivity.
  - destruct (users_get (user_id a) w) as [u'|] eqn:Eu; [|auto].
    destruct (loop_body_cases a u' w) as [G|[[G [J E]]|[G [J E]]]]; rewrite G;
      cbv zeta; try rewrite E; apply IH; auto.
Qed.

(** A due post whose unlink throws after its send is logged. *)
Lemma cron_loop_jammed (l : list Post) (w : World) (q : Post) (u : UserRow) :
  In q l -> users_get (user_id q) w = Some u -> gw u q = true -> jammed q = true ->
  In (id q) (errlog (cron_loop gw l w)).
Proof.
  revert w. induction l as [|a l IH]; intro w; cbn [cron_loop]; [simpl; tauto|].
  intros [->|Hq] Hu Hg Hj.
  - rewrite Hu, Hg. cbv zeta.
    destruct (after_send_cases q w
                (push_delivery {| origin := Cron; recipient := u; payload := q |} w)
                eq_refl) as [[J E]|[J E]]; [|congruence].
    rewrite E. apply cron_loop_errlog_keeps. cbn. apply in_or_app. right. left.
    reflexivity.
  - destruct (users_get (user_id a) w) as [u'|] eqn:Eu; [|auto].
    destruct (loop_body_cases a u' w) as [G|[[G [J E]]|[G [J E]]]]; rewrite G;
      cbv zeta; try rewrite E; apply IH; auto.
Qed.


Lemma cron_finish_db (l : list Post) (w : World) : db (cron_finish l w) = db w.
Proof. destruct l; reflexivity. Qed.

Lemma cron_finish_outbox (l : list Post) (w : World) :
  outbox (cron_finish l w) = outbox w.
Proof. destruct l; reflexivity. Qed.

Lemma cron_finish_errlog (l : list Post) (w : World) :
  errlog (cron_finish l w) = errlog w.
Proof. destruct l; reflexivity. Qed.

Lemma cron_finish_files (l : list Post) (w : World) :
  files (cron_finish l w) = files w.
Proof. destruct l; reflexivity. Qed.

End CronLoop.

Lemma due_in_table (now : string) (b : DB) (q : Post) :
  In q (sql_select_due now b) -> In q (rows b).
Proof. unfold sql_select_due. intro H. apply filter_In in H. tauto. Qed.

(** C6. When the send for a due post [p] throws during a tick, the tick
    leaves [p]'s row exactly as it was, so [p] is returned again by the
    candidate query at that and any later time; and every other due post
    whose send resolves is still sent in the same tick, and removed unless
    the unlink after its send throws, in which case its row stays and its
    id is logged. *)
Theorem failed_delivery_is_isolated
    (gw : Gateway) (now : string) (w : World) (p : Post) (user : UserRow) :
  well_keyed (db w) ->
  In p (sql_select_due now (db w)) ->
  users_get (user_id p) w = Some user ->
  gw user p = false ->
  let w' := cron_tick gw now w in
  sql_get (id p) (db w') = Some p /\
  (forall now', text_le now now' = true -> In p (sql_select_due now' (db w'))) /\
  (forall q u, In q (sql_select_due now (db w)) ->
     users_get (user_id q) w = Some u -> gw u q = true ->
     In {| origin := Cron; recipient := u; payload := q |} (outbox w') /\
     (jammed q = false -> sql_get (id q) (db w') = None) /\
     (jammed q = true ->
        sql_get (id q) (db w') = Some q /\ In (id q) (errlog w'))).
Proof.
  intros Hk Hdue Hu Hg w'. subst w'. unfold cron_tick.
  set (l := sql_select_due now (db w)) in *.
  assert (Hl : forall q, In q l -> In q (rows (db w)))
    by (intros q Hq; eapply due_in_table; exact Hq).
  assert (Hstays : forall q, In q l -> removes gw w q = false ->
                             In q (rows (db (cron_loop gw l w)))).
  { intros q Hq Hr. apply cron_loop_rows. split; [auto|].
    intros q' Hq' Hd E.
    assert (q' = q) by (apply (in_keyed_eq (rows (db w))); auto). subst q'.
    congruence. }
  assert (Hstay : In p (rows (db (cron_loop gw l w)))).
  { apply Hstays; [exact Hdue|]. unfold removes, delivers. rewrite Hu, Hg. reflexivity. }
  split; [|split].
  - rewrite cron_finish_db. apply sql_get_in; [|exact Hstay].
    apply cron_loop_well_keyed. exact Hk.
  - intros now' Hle. unfold sql_select_due. rewrite cron_finish_db.
    apply filter_In. split; [exact Hstay|].
    unfold l, sql_select_due in Hdue. apply filter_In in Hdue.
    destruct Hdue as [_ Hd]. unfold is_due in *.
    apply andb_true_iff in Hd. destruct Hd as [Hs Ht]. rewrite Hs. simpl.
    destruct (scheduledAt p) as [s|]; [|discriminate].
    eapply text_le_trans; eassumption.
  - intros q u Hq Hqu Hqg. split; [|split].
    + rewrite cron_finish_outbox. apply cron_loop_outbox; assumption.
    + intro Hj. rewrite cron_finish_db. apply sql_get_none. intro Hin.
      apply in_map_iff in Hin. destruct Hin as [x [Hx Hin]].
      apply cron_loop_rows in Hin. destruct Hin as [_ Hall].
      apply (Hall q Hq); [|congruence].
      unfold removes, delivers. rewrite Hqu, Hqg, Hj. reflexivity.
    + intro Hj. split.
      * rewrite cron_finish_db. apply sql_get_in.
        -- apply cron_loop_well_keyed. exact Hk.
        -- apply Hstays; [exact Hq|]. unfold removes. rewrite Hj.
           apply andb_false_r.
      * rewrite cron_finish_errlog. eapply cron_loop_jammed; eassumption.
Qed.


Lemma demo_due_db_keyed : well_keyed demo_due_db.
Proof.
  unfold well_keyed. simpl. repeat constructor; simpl; intuition discriminate.
Qed.

Lemma demo_photo_db_keyed : well_keyed demo_photo_db.
Proof.
  unfold well_keyed. simpl. repeat constructor; simpl; intuition discriminate.
Qed.

Lemma failed_delivery_is_isolated_witness :
  sql_get 2 (db (cron_tick demo_gateway demo_now (demo_world demo_due_db)))
  = Some (demo_post 2 (Some "2024-01-02T00:00:00.000Z"%string)).
Proof.
  exact (proj1 (failed_delivery_is_isolated demo_gateway demo_now
           (demo_world demo_due_db)
           (demo_post 2 (Some "2024-01-02T00:00:00.000Z"%string))
           {| uid := 7; telegram_token := "t"; channel_id := "c" |}
           demo_due_db_keyed (or_intror (or_introl eq_refl)) eq_refl eq_refl)).
Defined.

Example tick_demo_rows :
  rows (db (cron_tick demo_gateway demo_now (demo_world demo_due_db)))
  = [demo_post 2 (Some "2024-01-02T00:00:00.000Z"%string); demo_post 3 None]
  /\ published (cron_tick demo_gateway demo_now (demo_world demo_due_db))
     = [posts_updated].
Proof. split; reflexivity. Qed.

(** A tick on which every send resolves: the post with an upload is sent,
    its file is unlinked and its row removed; the post whose url names
    [uploads/] itself is sent, its row stays and its id is logged. *)
Example tick_photo_demo :
  rows (db (cron_tick always demo_now demo_photo_world))
  = [demo_photo 2 "/uploads/." (Some "2024-01-02T00:00:00.000Z"%string)]
  /\ files (cron_tick always demo_now demo_photo_world) = []
  /\ errlog (cron_tick always demo_now demo_photo_world) = [2]
  /\ List.length (outbox (cron_tick always demo_now demo_photo_world)) = 2%nat.
Proof. repeat split; reflexivity. Qed.

(** ** The [sent] column *)

Lemma delete_forall (Q : Post -> Prop) (i : Z) (b : DB) :
  Forall Q (rows b) -> Forall Q (rows (fst (sql_delete i b))).
Proof.
  intro H. simpl. apply Forall_forall. intros p Hp.
  apply filter_In in Hp. rewrite Forall_forall in H. apply H. tauto.
Qed.

Lemma discard_table (discard : bool) (post : Post) (w w1 : World) :
  (if discard then discard_upload post w else Some w) = Some w1 -> db w1 = db w.
Proof.
  destruct discard; intro H.
  - apply discard_upload_some in H. subst w1. reflexivity.
  - inversion H. reflexivity.
Qed.

Lemma owned_forall (Q : Post -> Prop) (discard : bool) (r : Requester) (i : Z)
    (stmt : DB -> DB) (w : World) :
  (forall b, Forall Q (rows b) -> Forall Q (rows (stmt b))) ->
  Forall Q (rows (db w)) -> Forall Q (rows (db (snd (owned discard r i stmt w)))).
Proof.
  intros Hs H. unfold owned. destruct (sql_get i (db w)) as [p|]; [|exact H].
  destruct (verifyOwnershipOrReject p r); [exact H|].
  destruct (if discard then _ else _) as [w1|] eqn:E; [|exact H].
  cbn. apply Hs. rewrite (discard_table _ _ _ _ E). exact H.
Qed.

Lemma cron_loop_forall (Q : Post -> Prop) (gw : Gateway) (l : list Post) (w : World) :
  Forall Q (rows (db w)) -> Forall Q (rows (db (cron_loop gw l w))).
Proof.
  intro H. apply Forall_forall. intros p Hp. apply cron_loop_rows in Hp.
  rewrite Forall_forall in H. apply H. tauto.
Qed.

Lemma handle_request_unsent (Number_text integer_text : string -> option Z)
    (w : World) (q : Request) :
  Forall unsent (rows (db w)) ->
  Forall unsent (rows (db (handle_request Number_text integer_text w q))).
Proof.
  intro H. destruct q; cbn [handle_request].
  - (* create *)
    unfold create. destruct r as [r|]; [|exact H].
    destruct (as_integer Number_text (c_userId body)) as [k|]; [|exact H].
    destruct (negb (k =? r)); [exact H|].
    destruct (sql_insert _ _ _ _ _) as [[j b']|] eqn:E; [|exact H].
    unfold sql_insert in E. destruct (bind (c_title body)); [|discriminate].
    inversion E; subst. cbn. apply Forall_app. split; [exact H|].
    constructor; [reflexivity|constructor].
  - (* update *)
    unfold update. destruct (sql_get i (db w)) as [p|]; [|exact H].
    destruct (verifyOwnershipOrReject p r); [exact H|].
    destruct (if replaces_url _ _ then _ else _) as [w1|] eqn:E; [|exact H].
    cbn. apply update_where_forall; [intros x Hx; exact Hx|].
    rewrite (discard_table _ _ _ _ E). exact H.
  - apply owned_forall; [|exact H]. intro b. apply delete_forall.
  - apply owned_forall; [|exact H]. intros b Hb.
    apply update_where_forall; [|exact Hb]. intros x Hx. exact Hx.
  - apply owned_forall; [|exact H]. intros b Hb.
    apply update_where_forall; [|exact Hb]. intros x Hx. reflexivity.
  - apply owned_forall; [|exact H]. intros b Hb.
    apply update_where_forall; [|exact Hb]. intros x Hx. exact Hx.
  - (* sendPost *)
    unfold sendPost. destruct (sql_get i (db w)) as [p|]; [|exact H].
    destruct (verifyOwnershipOrReject p r); [exact H|].
    destruct (users_get (user_id p) w) as [u|]; [|exact H].
    destruct (gw u p); [|exact H]. cbv zeta.
    destruct (after_send _ _) as [w2|] eqn:E; [|exact H].
    apply after_send_some in E. destruct E as [fs ->].
    cbn [snd broadcast db]. unfold delete_row. cbn [set_db set_files db push_delivery].
    apply delete_forall. exact H.
  - (* tick *)
    unfold cron_tick. rewrite cron_finish_db. apply cron_loop_forall. exact H.
  - exact H.
Qed.

(** C9. Every request and every tick keeps the property that all stored
    rows have [sent = 0]; so whatever the process has served since it started
    on an empty table, every stored row has [sent = 0]. *)
Theorem sent_flag_stays_zero (Number_text integer_text : string -> option Z) :
  (forall (w : World) (q : Request),
      Forall (fun p => sent p = 0) (rows (db w)) ->
      Forall (fun p => sent p = 0)
             (rows (db (handle_request Number_text integer_text w q)))) /\
  (forall (us : list UserRow) (cs : list Client) (fs : list string)
          (qs : list Request),
      Forall (fun p => sent p = 0)
             (rows (db (serve Number_text integer_text qs (boot us cs fs))))).
Proof.
  split; [exact (handle_request_unsent Number_text integer_text)|].
  assert (H : forall qs w, Forall unsent (rows (db w)) ->
                Forall unsent (rows (db (serve Number_text integer_text qs w)))).
  { induction qs as [|q qs IH]; intros w Hw; simpl; [exact Hw|].
    apply IH. apply handle_request_unsent. exact Hw. }
  intros us cs fs qs. apply (H qs (boot us cs fs)). constructor.
Qed.

Example serve_demo :
  rows (db (serve demo_number demo_integer_text
    [ ReqCreate (Some 7) demo_create;
      ReqSchedule (Some 7) 1 (JString "2024-01-01T00:00:00.000Z");
      ReqCreate (Some 7) demo_create;
      Tick (fun _ _ => true) demo_now;
      ReqCreate (Some 7) demo_create ]
    (boot [ {| uid := 7; telegram_token := "t"; channel_id := "c" |} ] [] [])))
  = [ {| id := 2; user_id := SInt 7; title := ""; description := Some "Y"%string;
         url := None; scheduledAt := None; sent := 0 |};
      {| id := 3; user_id := SInt 7; title := ""; description := Some "Y"%string;
         url := None; scheduledAt := None; sent := 0 |} ].
Proof. reflexivity. Qed.

(** ** Steps of the two tasks *)

(** The step that follows a send of the cron task. *)
Lemma cron_send_cases (gw : Gateway) (now : string) (posts : list Post)
    (u : UserRow) (a : Post) (stream : option string) (rest : list Post) (w : World) :
  let w1 := push_delivery {| origin := Cron; recipient := u; payload := a |} w in
  (gw u a = false /\
   cron_step gw now (CSend posts u a stream rest) w
   = (CLoop posts rest, log_error (id a) w)) \/
  (gw u a = true /\ after_send stream w1 = None /\
   cron_step gw now (CSend posts u a stream rest) w
   = (CLoop posts rest, log_error (id a) w1)) \/
  (gw u a = true /\ exists fs,
     after_send stream w1 = Some (set_files fs w1) /\
     cron_step gw now (CSend posts u a stream rest) w
     = (CDelete posts a rest, set_files fs w1)).
Proof.
  intro w1. cbn [cron_step]. fold w1. destruct (gw u a); [right|left; split; reflexivity].
  destruct (after_send stream w1) as [w2|] eqn:E.
  - right. split; [reflexivity|]. destruct (after_send_some _ _ _ E) as [fs ->].
    exists fs. split; reflexivity.
  - left. repeat split.
Qed.

(** The step that follows the send of the handler. *)
Lemma manual_send_cases (gw : Gateway) (r : Requester) (i : Z)
    (u : UserRow) (a : Post) (stream : option string) (w : World) :
  let w1 := push_delivery {| origin := Manual; recipient := u; payload := a |} w in
  (gw u a = false /\
   manual_step gw r i (MSend u a stream) w = (MDone (Failure 500), w)) \/
  (gw u a = true /\ after_send stream w1 = None /\
   manual_step gw r i (MSend u a stream) w = (MDone (Failure 500), w1)) \/
  (gw u a = true /\ exists fs,
     after_send stream w1 = Some (set_files fs w1) /\
     manual_step gw r i (MSend u a stream) w = (MDelete, set_files fs w1)).
Proof.
  intro w1. cbn [manual_step]. fold w1. destruct (gw u a); [right|left; split; reflexivity].
  destruct (after_send stream w1) as [w2|] eqn:E.
  - right. split; [reflexivity|]. destruct (after_send_some _ _ _ E) as [fs ->].
    exists fs. split; reflexivity.
  - left. repeat split.
Qed.

Lemma delete_row_incl (i : Z) (w : World) :
  incl (rows (db (delete_row i w))) (rows (db w)).
Proof. intros p Hp. apply delete_rows_in in Hp. tauto. Qed.

Lemma cron_step_incl (gw : Gateway) (now : string) (pc : CronPc) (w : World) :
  incl (rows (db (snd (cron_step gw now pc w)))) (rows (db w)).
Proof.
  destruct pc as [|posts [|a rest]|posts u a stream rest|posts a rest|].
  - apply incl_refl.
  - cbn [cron_step snd]. rewrite cron_finish_db. apply incl_refl.
  - cbn [cron_step]. destruct (users_get (user_id a) w); apply incl_refl.
  - destruct (cron_send_cases gw now posts u a stream rest w)
      as [[_ E]|[[_ [_ E]]|[_ [fs [_ E]]]]]; rewrite E; apply incl_refl.
  - apply delete_row_incl.
  - apply incl_refl.
Qed.

Lemma manual_step_incl (gw : Gateway) (r : Requester) (i : Z)
    (pc : ManualPc) (w : World) :
  incl (rows (db (snd (manual_step gw r i pc w)))) (rows (db w)).
Proof.
  destruct pc as [|p|p|u p stream| |x].
  - cbn [manual_step]. destruct (sql_get i (db w)); apply incl_refl.
  - cbn [manual_step]. destruct (verifyOwnershipOrReject p r); apply incl_refl.
  - cbn [manual_step]. destruct (users_get (user_id p) w); apply incl_refl.
  - destruct (manual_send_cases gw r i u p stream w)
      as [[_ E]|[[_ [_ E]]|[_ [fs [_ E]]]]]; rewrite E; apply incl_refl.
  - apply (delete_row_incl i w).
  - apply incl_refl.
Qed.

Lemma sys_step_incl (gw : Gateway) (now : string) (r : Requester) (i : Z)
    (s : Sys) (t : Turn) :
  incl (rows (db (world (sys_step gw now r i s t)))) (rows (db (world s))).
Proof.
  destruct t; unfold sys_step.
  - pose proof (cron_step_incl gw now (cron s) (world s)) as H.
    destruct (cron_step gw now (cron s) (world s)). exact H.
  - pose proof (manual_step_incl gw r i (manual s) (world s)) as H.
    destruct (manual_step gw r i (manual s) (world s)). exact H.
Qed.

Lemma run_incl (gw : Gateway) (now : string) (r : Requester) (i : Z)
    (sched : list Turn) (s : Sys) :
  incl (rows (db (world (run gw now r i sched s)))) (rows (db (world s))).
Proof.
  revert s. induction sched as [|t sched IH]; intro s; simpl; [apply incl_refl|].
  eapply incl_tran; [apply IH|apply sys_step_incl].
Qed.

(** ** Cancelling a schedule *)

(** C8. A row whose [scheduledAt] is NULL is never returned by the candidate
    query.  Once [DELETE /schedulePost/:id] has been accepted for a post, no
    row with that id is returned by the query at any time, and this stays so
    through every further step of a cron tick and of a manual send that were
    already under way, whatever point they had reached. *)
Theorem cancelled_post_never_candidate
    (r : Requester) (i : Z) (w : World) (post : Post) :
  sql_get i (db w) = Some post ->
  verifyOwnershipOrReject post r = None ->
  let w1 := snd (cancelSchedule r i w) in
  (forall b now p, scheduledAt p = None -> ~ In p (sql_select_due now b)) /\
  fst (cancelSchedule r i w) = Success None /\
  (forall gw now r' j (c : CronPc) (m : ManualPc) (sched : list Turn) now' p,
      In p (sql_select_due now'
              (db (world (run gw now r' j sched
                            {| world := w1; cron := c; manual := m |})))) ->
      id p <> i).
Proof.
  intros Hget Hown w1. subst w1.
  assert (Hnone : forall b now p, scheduledAt p = None -> ~ In p (sql_select_due now b)).
  { intros b now p Hs Hin. unfold sql_select_due in Hin. apply filter_In in Hin.
    destruct Hin as [_ Hd]. unfold is_due in Hd. rewrite Hs in Hd.
    rewrite andb_false_r in Hd. discriminate. }
  split; [exact Hnone|].
  unfold cancelSchedule, owned. rewrite Hget, Hown. cbn [fst snd].
  split; [reflexivity|].
  intros gw now r' j c m sched now' p Hin Hid.
  assert (Hrow : In p (rows (db (broadcast posts_updated
                                   (set_db (sql_unschedule i (db w)) w))))).
  { unfold sql_select_due in Hin. apply filter_In in Hin. destruct Hin as [Hin _].
    apply run_incl in Hin. exact Hin. }
  cbn [db broadcast set_db] in Hrow. unfold sql_unschedule, update_where in Hrow.
  cbn [rows] in Hrow. apply in_map_iff in Hrow. destruct Hrow as [x [Hx _]].
  refine (Hnone _ now' p _ Hin). unfold patch in Hx.
  destruct (id x =? i) eqn:E.
  - subst p. reflexivity.
  - subst p. apply Z.eqb_neq in E. contradiction.
Qed.

Lemma cancelled_post_never_candidate_witness :
  fst (cancelSchedule (Some 7) 2 (demo_world demo_due_db)) = Success None.
Proof.
  exact (proj1 (proj2 (cancelled_post_never_candidate (Some 7) 2
           (demo_world demo_due_db)
           (demo_post 2 (Some "2024-01-02T00:00:00.000Z"%string))
           eq_refl eq_refl))).
Defined.

Example cancel_demo :
  sql_select_due demo_now
    (db (snd (cancelSchedule (Some 7) 2 (demo_world demo_due_db))))
  = [demo_post 1 (Some "2024-01-01T00:00:00.000Z"%string)].
Proof. reflexivity. Qed.

(** ** The listing order *)

Lemma StronglySorted_impl {A : Type} (R R' : A -> A -> Prop) (l : list A) :
  (forall x y, R x y -> R' x y) -> StronglySorted R l -> StronglySorted R' l.
Proof.
  intros HR H. induction H as [|a l Hs IH Hf]; constructor; auto.
  eapply Forall_impl; [|exact Hf]. intros x Hx. apply HR. exact Hx.
Qed.

(** Two sorted arrangements of the same rows coincide when the order never
    holds both ways between distinct rows. *)
Lemma sorted_perm_unique {A : Type} (R : A -> A -> Prop) (l1 l2 : list A) :
  (forall x y, In x l1 -> In y l1 -> R x y -> R y x -> x = y) ->
  StronglySorted R l1 -> StronglySorted R l2 -> Permutation l1 l2 -> l1 = l2.
Proof.
  revert l2. induction l1 as [|a t IH]; intros l2 Hanti H1 H2 Hp.
  - apply Permutation_nil in Hp. subst. reflexivity.
  - destruct l2 as [|b t2].
    + apply Permutation_sym, Permutation_nil in Hp. discriminate.
    + apply StronglySorted_inv in H1. destruct H1 as [H1 Ha].
      apply StronglySorted_inv in H2. destruct H2 as [H2 Hb].
      rewrite Forall_forall in Ha, Hb.
      assert (Hab : a = b).
      { assert (Hin1 : In a (b :: t2))
          by (eapply Permutation_in; [exact Hp|left; reflexivity]).
        assert (Hin2 : In b (a :: t))
          by (eapply Permutation_in;
              [apply Permutation_sym; exact Hp|left; reflexivity]).
        destruct Hin1 as [E|Hin1]; [auto|].
        destruct Hin2 as [E|Hin2]; [auto|].
        apply Hanti; [left; reflexivity|right; exact Hin2|apply Ha|apply Hb]; auto. }
      subst b. f_equal. apply IH; auto.
      * intros x y Hx Hy. apply Hanti; right; assumption.
      * eapply Permutation_cons_inv. exact Hp.
Qed.

(** The comparison of two keys is the order [key_lt] speaks of. *)
Lemma nf_lt_iff (a b : option string) :
  null_first_compare a b = Lt <-> key_lt a b.
Proof.
  destruct a as [x|], b as [y|]; cbn [null_first_compare key_lt].
  - apply text_compare_lt_iff.
  - split; [discriminate|tauto].
  - tauto.
  - split; [discriminate|tauto].
Qed.

Section ListingFacts.

Variable datetime : string -> option string.

Lemma nf_refl (a : option string) : null_first_compare a a = Eq.
Proof. destruct a; simpl; [apply text_compare_refl|reflexivity]. Qed.

Lemma nf_eq (a b : option string) : null_first_compare a b = Eq -> a = b.
Proof.
  destruct a, b; simpl; intro H; try discriminate; [|reflexivity].
  f_equal. apply text_compare_eq. exact H.
Qed.

Lemma nf_gt_lt (a b : option string) :
  null_first_compare a b = Gt -> null_first_compare b a = Lt.
Proof.
  destruct a, b; simpl; intro H; try discriminate; [|reflexivity].
  apply text_compare_gt_lt. exact H.
Qed.

Lemma nf_lt_trans (a b c : option string) :
  null_first_compare a b = Lt -> null_first_compare b c = Lt ->
  null_first_compare a c = Lt.
Proof.
  destruct a, b, c; simpl; intros H1 H2; try discriminate; try reflexivity.
  eapply text_compare_lt_trans; eassumption.
Qed.

Lemma order_by_le_true (p q : Post) :
  order_by_le datetime p q = true -> before datetime p q.
Proof.
  unfold order_by_le, order_by_compare, before.
  destruct (case_null p ?= case_null q) eqn:E1; zcmp E1.
  - destruct (null_first_compare (sql_datetime datetime (scheduledAt p)) (sql_datetime datetime (scheduledAt q))) eqn:E2.
    + apply nf_eq in E2.
      destruct (id q ?= id p) eqn:E3; zcmp E3; intro H; try discriminate;
        right; (split; [exact E1|right; split; [exact E2|lia]]).
    + intros _. right. split; [exact E1|left; reflexivity].
    + discriminate.
  - intros _. left. exact E1.
  - discriminate.
Qed.

Lemma order_by_le_false (p q : Post) :
  order_by_le datetime p q = false -> before datetime q p.
Proof.
  unfold order_by_le, order_by_compare, before.
  destruct (case_null p ?= case_null q) eqn:E1; zcmp E1.
  - destruct (null_first_compare (sql_datetime datetime (scheduledAt p)) (sql_datetime datetime (scheduledAt q))) eqn:E2.
    + apply nf_eq in E2.
      destruct (id q ?= id p) eqn:E3; zcmp E3; intro H; try discriminate.
      right. split; [lia|right; split; [congruence|lia]].
    + discriminate.
    + intros _. right. split; [lia|left; apply nf_gt_lt; exact E2].
  - discriminate.
  - intros _. left. lia.
Qed.

Lemma before_trans (p q r : Post) : before datetime p q -> before datetime q r -> before datetime p r.
Proof.
  unfold before.
  intros [H1|[E1 [H1|[K1 H1]]]] [H2|[E2 [H2|[K2 H2]]]];
    try (left; lia); right; (split; [lia|]).
  - left. eapply nf_lt_trans; eassumption.
  - left. rewrite <- K2. exact H1.
  - left. rewrite K1. exact H2.
  - right. split; [congruence|lia].
Qed.

Lemma before_both_id (p q : Post) : before datetime p q -> before datetime q p -> id p = id q.
Proof.
  unfold before.
  intros [H1|[E1 [H1|[K1 H1]]]] [H2|[E2 [H2|[K2 H2]]]]; try lia.
  - pose proof (nf_lt_trans _ _ _ H1 H2) as H. rewrite nf_refl in H. discriminate.
  - rewrite K2, nf_refl in H1. discriminate.
  - rewrite K1, nf_refl in H2. discriminate.
Qed.

Lemma insert_by_perm (p : Post) (l : list Post) :
  Permutation (insert_by datetime p l) (p :: l).
Proof.
  induction l as [|q l IH]; simpl; [reflexivity|].
  destruct (order_by_le datetime p q); [reflexivity|].
  rewrite IH. apply perm_swap.
Qed.

Lemma insert_by_sorted (p : Post) (l : list Post) :
  StronglySorted (before datetime) l -> StronglySorted (before datetime) (insert_by datetime p l).
Proof.
  induction l as [|q l IH]; simpl; intro H.
  - constructor; constructor.
  - apply StronglySorted_inv in H. destruct H as [Hs Hq].
    destruct (order_by_le datetime p q) eqn:E.
    + apply order_by_le_true in E. constructor.
      * constructor; assumption.
      * constructor; [exact E|].
        eapply Forall_impl; [|exact Hq]. intros x Hx.
        eapply before_trans; eassumption.
    + apply order_by_le_false in E. constructor; [apply IH; exact Hs|].
      apply Forall_forall. intros x Hx.
      apply (Permutation_in _ (insert_by_perm p l)) in Hx.
      destruct Hx as [<-|Hx]; [exact E|].
      rewrite Forall_forall in Hq. apply Hq. exact Hx.
Qed.

Lemma order_by_perm (l : list Post) : Permutation (order_by datetime l) l.
Proof.
  induction l as [|p l IH]; simpl; [reflexivity|].
  rewrite insert_by_perm. constructor. exact IH.
Qed.

Lemma order_by_sorted (l : list Post) : StronglySorted (before datetime) (order_by datetime l).
Proof.
  induction l as [|p l IH]; simpl; [constructor|].
  apply insert_by_sorted. exact IH.
Qed.

Lemma before_listed (p q : Post) : before datetime p q -> listed_before datetime p q.
Proof.
  unfold before, listed_before, case_null.
  destruct (scheduledAt p) as [a|], (scheduledAt q) as [b|]; cbn [sql_datetime].
  - intros [H|[_ [H|[H1 H2]]]]; [lia| |].
    + left. apply nf_lt_iff. exact H.
    + right. split; assumption.
  - trivial.
  - intros [H|[H _]]; lia.
  - intros [H|[_ [H|[_ H]]]]; [lia|discriminate|exact H].
Qed.

(** A row list in the order of the query is the answer of the query. *)
Lemma order_by_unique (own l : list Post) :
  NoDup (ids own) -> StronglySorted (before datetime) l -> Permutation own l ->
  order_by datetime own = l.
Proof.
  intros Hn Hs Hp. apply (sorted_perm_unique (before datetime)).
  - intros x y Hx Hy Hxy Hyx.
    assert (Hnd : NoDup (ids (order_by datetime own))).
    { apply (Permutation_NoDup (l := ids own)); [|exact Hn].
      apply Permutation_map. apply Permutation_sym. apply order_by_perm. }
    apply (in_keyed_eq (order_by datetime own)); auto.
    eapply before_both_id; eassumption.
  - apply order_by_sorted.
  - exact Hs.
  - rewrite order_by_perm. exact Hp.
Qed.

End ListingFacts.

(** C5, as stated, fails: B is scheduled at T1 and C at T2, T2 is earlier
    than T1 but in the same second, and [datetime] gives both the same
    text; the tie goes to the larger id, and the answer is [B; C; A]. *)
Lemma listing_ties_within_a_second :
  let A := demo_post 1 None in
  let C := demo_post 2 (Some "2024-06-01T07:00:00.100Z"%string) in
  let B := demo_post 3 (Some "2024-06-01T07:00:00.900Z"%string) in
  bytewise_lt "2024-06-01T07:00:00.100Z" "2024-06-01T07:00:00.900Z" /\
  iso_datetime "2024-06-01T07:00:00.100Z" = Some "2024-06-01 07:00:00"%string /\
  iso_datetime "2024-06-01T07:00:00.900Z" = Some "2024-06-01 07:00:00"%string /\
  listByOwner demo_number demo_integer_text iso_datetime (Some 7) "7"
    (demo_world {| rows := [A; C; B]; seq := 3 |}) = Rows [B; C; A].
Proof.
  cbv zeta. split; [|repeat split; reflexivity].
  apply text_compare_lt_iff. reflexivity.
Qed.

(** C5, amended. For a requester whose id is what [Number] makes of the
    path text, [GET /user/:userId] answers with exactly the rows whose
    [user_id] equals the path text as the query binds it, ordered so that
    every scheduled row precedes every unscheduled one, scheduled rows go
    by ascending [datetime(scheduledAt)] (NULL first, then byte by byte),
    rows with equal [datetime(scheduledAt)] by descending id, and
    unscheduled rows by descending id.  When the rows are A (unscheduled),
    B (scheduled at T1) and C (scheduled at T2), the answer is [C; B; A]
    when [datetime(T2)] comes before [datetime(T1)], and [B; C; A] when the
    two are equal and C has the smaller id. *)
Theorem listByOwner_order
    (Number_text integer_text : string -> option Z)
    (datetime : string -> option string) (r : Z) (t : string) (w : World) :
  well_keyed (db w) ->
  Number_text t = Some r ->
  exists l,
    listByOwner Number_text integer_text datetime (Some r) t w = Rows l /\
    Permutation l (filter (fun p => owner_is integer_text t (user_id p))
                          (rows (db w))) /\
    (integer_text t = Some r ->
     forall p, In p l <-> In p (rows (db w)) /\ user_id p = SInt r) /\
    NoDup (ids l) /\
    StronglySorted (listed_before datetime) l /\
    (forall A B C t1 t2,
        scheduledAt A = None -> scheduledAt B = Some t1 -> scheduledAt C = Some t2 ->
        Permutation (filter (fun p => owner_is integer_text t (user_id p))
                            (rows (db w))) [A; B; C] ->
        (key_lt (datetime t2) (datetime t1) -> l = [C; B; A]) /\
        (datetime t2 = datetime t1 -> id C < id B -> l = [B; C; A])).
Proof.
  intros Hk Hn. unfold listByOwner. rewrite Hn, Z.eqb_refl. cbn [negb].
  unfold sql_select_by_owner.
  set (own := filter (fun p => owner_is integer_text t (user_id p)) (rows (db w))).
  exists (order_by datetime own).
  assert (Hperm : Permutation (order_by datetime own) own) by apply order_by_perm.
  assert (Hown : NoDup (ids own)) by (apply ids_filter_NoDup; exact Hk).
  assert (Hnd : NoDup (ids (order_by datetime own))).
  { apply (Permutation_NoDup (l := ids own)); [|exact Hown].
    apply Permutation_map. apply Permutation_sym. exact Hperm. }
  split; [reflexivity|]. split; [exact Hperm|]. split; [|split; [exact Hnd|split]].
  - intros Hi p. split.
    + intro Hp. apply (Permutation_in _ Hperm) in Hp. unfold own in Hp.
      apply filter_In in Hp. destruct Hp as [Hin Ho]. split; [exact Hin|].
      unfold owner_is in Ho. rewrite Hi in Ho.
      destruct (user_id p) as [|m|s]; try discriminate.
      apply Z.eqb_eq in Ho. congruence.
    + intros [Hin Ho]. apply (Permutation_in _ (Permutation_sym Hperm)).
      unfold own. apply filter_In. split; [exact Hin|].
      unfold owner_is. rewrite Hi, Ho. apply Z.eqb_refl.
  - eapply StronglySorted_impl; [|apply order_by_sorted]. apply before_listed.
  - intros A B C t1 t2 HA HB HC Habc.
    assert (HCA : before datetime C A).
    { unfold before, case_null. rewrite HA, HC. left. lia. }
    assert (HBA : before datetime B A).
    { unfold before, case_null. rewrite HA, HB. left. lia. }
    split.
    + intro Hlt. apply order_by_unique; [exact Hown| |].
      * assert (HCB : before datetime C B).
        { unfold before, case_null. rewrite HB, HC. cbn [sql_datetime]. right.
          split; [reflexivity|left; apply nf_lt_iff; exact Hlt]. }
        repeat first [apply SSorted_nil | apply SSorted_cons
                     | apply Forall_nil | apply Forall_cons | assumption].
      * rewrite Habc. apply (Permutation_rev [A; B; C]).
    + intros Heq Hid. apply order_by_unique; [exact Hown| |].
      * assert (HBC : before datetime B C).
        { unfold before, case_null. rewrite HB, HC. cbn [sql_datetime]. right.
          split; [reflexivity|right; split; [congruence|lia]]. }
        repeat first [apply SSorted_nil | apply SSorted_cons
                     | apply Forall_nil | apply Forall_cons | assumption].
      * rewrite Habc. transitivity [B; A; C]; [apply perm_swap|].
        apply perm_skip. apply perm_swap.
Qed.

Lemma listByOwner_order_witness :
  exists l,
    listByOwner demo_number demo_integer_text demo_datetime (Some 7) "7"
      (demo_world demo_due_db) = Rows l /\
    NoDup (ids l).
Proof.
  destruct (listByOwner_order demo_number demo_integer_text demo_datetime 7 "7"
              (demo_world demo_due_db) demo_due_db_keyed eq_refl)
    as [l [H1 [_ [_ [H2 _]]]]].
  exists l. split; assumption.
Defined.

Example listByOwner_demo :
  listByOwner demo_number demo_integer_text demo_datetime (Some 7) "7"
    (demo_world
       {| rows := [demo_post 1 None;
                   demo_post 2 (Some "2024-03-01 10:00:00"%string);
                   demo_post 3 (Some "2024-02-01 10:00:00"%string);
                   demo_post 4 None];
          seq := 4 |})
  = Rows [demo_post 3 (Some "2024-02-01 10:00:00"%string);
          demo_post 2 (Some "2024-03-01 10:00:00"%string);
          demo_post 4 None;
          demo_post 1 None].
Proof. reflexivity. Qed.

(** The path text ["0x7"] passes the check for requester 7 and matches no
    row of user 7: the listing is empty. *)
Example listByOwner_text_path :
  listByOwner demo_number demo_integer_text demo_datetime (Some 7) "0x7"
    (demo_world demo_due_db) = Rows [].
Proof. reflexivity. Qed.

(** ** The race between the tick and a manual send *)

Lemma sends_of_split (i : Z) (w : World) :
  sends_of i w = (sends_by true i w + sends_by false i w)%nat.
Proof.
  unfold sends_of, sends_by. induction (outbox w) as [|x l IH]; simpl; [reflexivity|].
  destruct (id (payload x) =? i); simpl; [|exact IH].
  destruct (is_cron (origin x)); simpl; lia.
Qed.

Lemma sends_by_push (c : bool) (i : Z) (x : Delivery) (w : World) :
  sends_by c i (push_delivery x w) =
  (sends_by c i w +
   if ((id (payload x) =? i)%Z && Bool.eqb (is_cron (origin x)) c)%bool
   then 1 else 0)%nat.
Proof.
  unfold sends_by, push_delivery. cbn [outbox].
  rewrite filter_app, length_app. simpl.
  destruct ((id (payload x) =? i) && Bool.eqb (is_cron (origin x)) c); reflexivity.
Qed.

Lemma sends_of_push (i : Z) (x : Delivery) (w : World) :
  sends_of i (push_delivery x w) =
  (sends_of i w + if (id (payload x) =? i)%Z then 1 else 0)%nat.
Proof.
  unfold sends_of, push_delivery. cbn [outbox].
  rewrite filter_app, length_app. simpl.
  destruct (id (payload x) =? i); reflexivity.
Qed.

Lemma count_id_filter (i : Z) (f : Post -> bool) (l : list Post) :
  (count_id i (filter f l) <= count_id i l)%nat.
Proof.
  unfold count_id. induction l as [|a l IH]; simpl; [lia|].
  destruct (f a); simpl; destruct (id a =? i); simpl; lia.
Qed.

Lemma count_id_cons (i : Z) (p : Post) (l : list Post) :
  count_id i (p :: l) = ((if (id p =? i)%Z then 1 else 0) + count_id i l)%nat.
Proof. unfold count_id. simpl. destruct (id p =? i); reflexivity. Qed.

Lemma count_id_delete (i j : Z) (w : World) :
  (count_id i (rows (db (delete_row j w))) <= count_id i (rows (db w)))%nat.
Proof. unfold delete_row. cbn. apply count_id_filter. Qed.

Lemma count_id_found (i : Z) (b : DB) (p : Post) :
  sql_get i b = Some p -> (1 <= count_id i (rows b))%nat.
Proof.
  unfold sql_get, count_id. induction (rows b) as [|a l IH]; simpl; [discriminate|].
  destruct (id a =? i); simpl; [lia|exact IH].
Qed.

Lemma count_id_zero (i : Z) (l : list Post) :
  ~ In i (ids l) -> count_id i l = 0%nat.
Proof.
  intro H. unfold count_id. rewrite filter_none_id; [reflexivity|].
  intros x Hx. apply Z.eqb_neq. intro E. apply H. rewrite <- E. apply in_map. exact Hx.
Qed.

Lemma sends_by_frame (c : bool) (i : Z) (w w' : World) :
  outbox w' = outbox w -> sends_by c i w' = sends_by c i w.
Proof. unfold sends_by. intros ->. reflexivity. Qed.

Lemma sends_of_frame (i : Z) (w w' : World) :
  outbox w' = outbox w -> sends_of i w' = sends_of i w.
Proof. unfold sends_of. intros ->. reflexivity. Qed.

Lemma sends_by_log (c : bool) (i j : Z) (w : World) :
  sends_by c i (log_error j w) = sends_by c i w.
Proof. reflexivity. Qed.

Lemma sends_by_files (c : bool) (i : Z) (fs : list string) (w : World) :
  sends_by c i (set_files fs w) = sends_by c i w.
Proof. reflexivity. Qed.

Lemma sends_of_log (i j : Z) (w : World) :
  sends_of i (log_error j w) = sends_of i w.
Proof. reflexivity. Qed.

Lemma sends_of_files (i : Z) (fs : list string) (w : World) :
  sends_of i (set_files fs w) = sends_of i w.
Proof. reflexivity. Qed.

(** One step of the cron task: its own potential does not grow, it adds no
    manual send, and it removes rows at most. *)
Lemma cron_step_potential (gw : Gateway) (now : string) (i : Z) (c : CronPc) (w : World) :
  (sends_by true i (snd (cron_step gw now c w))
   + cron_pending i (fst (cron_step gw now c w)) (snd (cron_step gw now c w))
   <= sends_by true i w + cron_pending i c w)%nat /\
  sends_by false i (snd (cron_step gw now c w)) = sends_by false i w /\
  (count_id i (rows (db (snd (cron_step gw now c w)))) <= count_id i (rows (db w)))%nat.
Proof.
  destruct c as [|posts [|a rest]|posts u a stream rest|posts a rest|].
  - cbn [cron_step fst snd cron_pending].
    pose proof (count_id_filter i (is_due now) (rows (db w))).
    unfold sql_select_due. lia.
  - cbn [cron_step fst snd cron_pending].
    rewrite !(sends_by_frame _ i w (cron_finish posts w)) by apply cron_finish_outbox.
    rewrite cron_finish_db. cbn. lia.
  - cbn [cron_step]. destruct (users_get (user_id a) w); cbn [fst snd cron_pending];
      rewrite ?count_id_cons; lia.
  - destruct (cron_send_cases gw now posts u a stream rest w)
      as [[_ E]|[[_ [_ E]]|[_ [fs [_ E]]]]]; rewrite E; cbn [fst snd cron_pending];
      rewrite count_id_cons.
    + rewrite !sends_by_log.
      cbn [db log_error]. lia.
    + rewrite !sends_by_log.
      rewrite !sends_by_push. cbn [payload origin is_cron Bool.eqb].
      cbn [db log_error push_delivery].
      destruct (id a =? i); simpl; lia.
    + rewrite !sends_by_files.
      rewrite !sends_by_push. cbn [payload origin is_cron Bool.eqb].
      cbn [db set_files push_delivery].
      destruct (id a =? i); simpl; lia.
  - cbn [cron_step fst snd cron_pending]. pose proof (count_id_delete i (id a) w).
    rewrite !(sends_by_frame _ i w (delete_row (id a) w)) by reflexivity. lia.
  - cbn. lia.
Qed.

(** One step of the handler for id [i], likewise. *)
Lemma manual_step_potential (gw : Gateway) (r : Requester) (i : Z)
    (m : ManualPc) (w : World) :
  (sends_by false i (snd (manual_step gw r i m w))
   + manual_pending i (fst (manual_step gw r i m w)) (snd (manual_step gw r i m w))
   <= sends_by false i w + manual_pending i m w)%nat /\
  sends_by true i (snd (manual_step gw r i m w)) = sends_by true i w /\
  (count_id i (rows (db (snd (manual_step gw r i m w)))) <= count_id i (rows (db w)))%nat.
Proof.
  destruct m as [|p|p|u p stream| |x].
  - cbn [manual_step].
    destruct (sql_get i (db w)) as [p|] eqn:E; cbn [fst snd manual_pending].
    + apply count_id_found in E. lia.
    + lia.
  - cbn [manual_step]. destruct (verifyOwnershipOrReject p r); cbn; lia.
  - cbn [manual_step]. destruct (users_get (user_id p) w); cbn; lia.
  - destruct (manual_send_cases gw r i u p stream w)
      as [[_ E]|[[_ [_ E]]|[_ [fs [_ E]]]]]; rewrite E; cbn [fst snd manual_pending].
    + lia.
    + rewrite !sends_by_push. cbn [payload origin is_cron Bool.eqb db push_delivery].
      destruct (id p =? i); simpl; lia.
    + rewrite !sends_by_files.
      rewrite !sends_by_push. cbn [payload origin is_cron Bool.eqb].
      cbn [db set_files push_delivery].
      destruct (id p =? i); simpl; lia.
  - cbn [manual_step fst snd manual_pending]. pose proof (count_id_delete i i w).
    rewrite !(sends_by_frame _ i w (broadcast posts_updated (delete_row i w)))
      by reflexivity.
    cbn [db broadcast]. cbn [db broadcast] in H. lia.
  - cbn. lia.
Qed.

Lemma cron_pending_mono (i : Z) (c : CronPc) (w w' : World) :
  (count_id i (rows (db w')) <= count_id i (rows (db w)))%nat ->
  (cron_pending i c w' <= cron_pending i c w)%nat.
Proof. destruct c; simpl; lia. Qed.

Lemma manual_pending_mono (i : Z) (m : ManualPc) (w w' : World) :
  (count_id i (rows (db w')) <= count_id i (rows (db w)))%nat ->
  (manual_pending i m w' <= manual_pending i m w)%nat.
Proof. destruct m; simpl; lia. Qed.

Lemma sys_step_potential (gw : Gateway) (now : string) (r : Requester) (i : Z)
    (s : Sys) (t : Turn) :
  (cron_potential i (sys_step gw now r i s t) <= cron_potential i s)%nat /\
  (manual_potential i (sys_step gw now r i s t) <= manual_potential i s)%nat.
Proof.
  unfold cron_potential, manual_potential. destruct t; unfold sys_step.
  - pose proof (cron_step_potential gw now i (cron s) (world s)) as [H1 [H2 H3]].
    destruct (cron_step gw now (cron s) (world s)) as [c' w'].
    cbn [fst snd world cron manual] in *.
    pose proof (manual_pending_mono i (manual s) _ _ H3). lia.
  - pose proof (manual_step_potential gw r i (manual s) (world s)) as [H1 [H2 H3]].
    destruct (manual_step gw r i (manual s) (world s)) as [m' w'].
    cbn [fst snd world cron manual] in *.
    pose proof (cron_pending_mono i (cron s) _ _ H3). lia.
Qed.

Lemma run_potential (gw : Gateway) (now : string) (r : Requester) (i : Z)
    (sched : list Turn) (s : Sys) :
  (cron_potential i (run gw now r i sched s) <= cron_potential i s)%nat /\
  (manual_potential i (run gw now r i sched s) <= manual_potential i s)%nat.
Proof.
  revert s. induction sched as [|t sched IH]; intro s; simpl; [lia|].
  pose proof (IH (sys_step gw now r i s t)) as [H1 H2].
  pose proof (sys_step_potential gw now r i s t) as [H3 H4].
  unfold run in *. lia.
Qed.

Lemma sends_of_le_push (j : Z) (x : Delivery) (w : World) :
  (sends_of j w <= sends_of j (push_delivery x w))%nat.
Proof. rewrite sends_of_push. lia. Qed.

(** Frame of one step of either task: [users.db] is not written, sends are
    only added, and the program counter of the tick never goes back to its
    query. *)
Lemma cron_step_frame (gw : Gateway) (now : string) (c : CronPc) (w : World) :
  usersDb (snd (cron_step gw now c w)) = usersDb w /\
  (forall j, sends_of j w <= sends_of j (snd (cron_step gw now c w)))%nat /\
  fst (cron_step gw now c w) <> CQuery.
Proof.
  destruct c as [|posts [|a rest]|posts u a stream rest|posts a rest|].
  - cbn [cron_step fst snd]. split; [reflexivity|]. split; [intro j; lia|discriminate].
  - cbn [cron_step fst snd]. split; [destruct posts; reflexivity|].
    split; [|discriminate].
    intro j. rewrite (sends_of_frame j w (cron_finish posts w)); [lia|].
    apply cron_finish_outbox.
  - cbn [cron_step]. destruct (users_get (user_id a) w); cbn [fst snd];
      (split; [reflexivity|]); (split; [intro j; lia|discriminate]).
  - destruct (cron_send_cases gw now posts u a stream rest w)
      as [[_ E]|[[_ [_ E]]|[_ [fs [_ E]]]]]; rewrite E; cbn [fst snd];
      (split; [reflexivity|]); (split; [intro j|discriminate]).
    + rewrite sends_of_log. lia.
    + rewrite sends_of_log.
      apply sends_of_le_push.
    + rewrite sends_of_files.
      apply sends_of_le_push.
  - cbn [cron_step fst snd]. split; [reflexivity|]. split; [|discriminate]. intro j.
    rewrite (sends_of_frame j w (delete_row (id a) w)); [lia|reflexivity].
  - cbn [cron_step fst snd]. split; [reflexivity|]. split; [intro j; lia|discriminate].
Qed.

Lemma manual_step_frame (gw : Gateway) (r : Requester) (i : Z)
    (m : ManualPc) (w : World) :
  usersDb (snd (manual_step gw r i m w)) = usersDb w /\
  (forall j, sends_of j w <= sends_of j (snd (manual_step gw r i m w)))%nat.
Proof.
  destruct m as [|p|p|u p stream| |x].
  - cbn [manual_step]. destruct (sql_get i (db w)); cbn [snd]; split;
      try reflexivity; intro j; lia.
  - cbn [manual_step]. destruct (verifyOwnershipOrReject p r); cbn [snd]; split;
      try reflexivity; intro j; lia.
  - cbn [manual_step]. destruct (users_get (user_id p) w); cbn [snd]; split;
      try reflexivity; intro j; lia.
  - destruct (manual_send_cases gw r i u p stream w)
      as [[_ E]|[[_ [_ E]]|[_ [fs [_ E]]]]]; rewrite E; cbn [snd];
      (split; [reflexivity|]); intro j.
    + lia.
    + apply sends_of_le_push.
    + rewrite sends_of_files.
      apply sends_of_le_push.
  - cbn [manual_step snd]. split; [reflexivity|]. intro j.
    rewrite (sends_of_frame j w (broadcast posts_updated (delete_row i w)));
      [lia|reflexivity].
  - cbn [manual_step snd]. split; [reflexivity|intro j; lia].
Qed.

Section RaceOnDuePost.

Variable gw : Gateway.
Variable now : string.
Variable w0 : World.
Variable P : Post.
Variable user : UserRow.
Variable r : Z.

Hypothesis keyed0 : well_keyed (db w0).
Hypothesis stored0 : In P (rows (db w0)).
Hypothesis due0 : is_due now P = true.
Hypothesis owner0 : user_id P = SInt r.
Hypothesis user0 : users_get (user_id P) w0 = Some user.
Hypothesis resolves : gw user P = true.
Hypothesis plain0 : jammed P = false.

Lemma gone_incl (b b' : DB) : incl (rows b') (rows b) -> gone P b -> gone P b'.
Proof.
  unfold gone, ids. intros Hi Hg Hin. apply Hg.
  apply in_map_iff in Hin. destruct Hin as [x [Hx Hin]].
  apply in_map_iff. exists x. split; [exact Hx|apply Hi; exact Hin].
Qed.

Lemma gone_delete_other (j : Z) (b : DB) :
  j <> id P -> gone P (fst (sql_delete j b)) -> gone P b.
Proof.
  unfold gone, ids. intros Hj Hg Hin. apply Hg.
  apply in_map_iff in Hin. destruct Hin as [x [Hx Hin]].
  apply in_map_iff. exists x. split; [exact Hx|].
  apply delete_rows_in. split; [exact Hin|congruence].
Qed.

Lemma gone_delete_same (b : DB) : gone P (fst (sql_delete (id P) b)).
Proof.
  unfold gone, ids. intro Hin. apply in_map_iff in Hin.
  destruct Hin as [x [Hx Hin]]. apply delete_rows_in in Hin. tauto.
Qed.

Lemma stored_is_P (w : World) (p : Post) :
  incl (rows (db w)) (rows (db w0)) -> In p (rows (db w)) -> id p = id P -> p = P.
Proof.
  intros Hi Hin Hid. apply (in_keyed_eq (rows (db w0))); auto.
Qed.

Lemma users_get_frame (w : World) (v : sqlval) :
  usersDb w = usersDb w0 -> users_get v w = users_get v w0.
Proof. unfold users_get. intros ->. reflexivity. Qed.

Lemma doomed_incl (m : ManualPc) (w w' : World) :
  incl (rows (db w')) (rows (db w)) -> doomed P m w -> doomed P m w'.
Proof.
  intros Hi [H|H]; [left; eapply gone_incl; eassumption|right; exact H].
Qed.

(** The file a task is about to stream for [P] is on disk when it is
    chosen. *)
Lemma stream_of_kept (w : World) (other : Prop) :
  stream_kept P (stream_of P w) w other.
Proof.
  unfold stream_kept, stream_of. intros name H.
  pose proof plain0 as J. unfold jammed in J.
  destruct (uploaded P) as [n|]; [|discriminate].
  destruct (existsSync n w) eqn:E; [|discriminate].
  inversion H; subst n. split; [reflexivity|left].
  unfold existsSync in E. rewrite J in E. exact E.
Qed.

(** When the unlink of that file throws, the other task has been at it. *)
Lemma stream_kept_thrown (stream : option string) (w : World) (other : Prop) :
  stream_kept P stream w other -> after_send stream w = None -> other.
Proof.
  intros Hk Ha. destruct stream as [name|]; [|discriminate].
  destruct (Hk name eq_refl) as [_ [H|H]]; [|exact H].
  cbn [after_send] in Ha. unfold unlinkSync in Ha. rewrite H in Ha. discriminate.
Qed.

Lemma stream_kept_frame (stream : option string) (w w' : World) (o o' : Prop) :
  (o -> o') -> (files w' = files w \/ o') ->
  stream_kept P stream w o -> stream_kept P stream w' o'.
Proof.
  intros Ho Hf Hk name Hs. destruct (Hk name Hs) as [Hu [H|H]].
  - split; [exact Hu|]. destruct Hf as [Hf|Hf]; [left|right; exact Hf].
    unfold stored_file in *. rewrite Hf. exact H.
  - split; [exact Hu|right; apply Ho; exact H].
Qed.

(** The handler's invariant survives a step of the tick. *)
Lemma manual_inv_frame (m : ManualPc) (c c' : CronPc) (w w' : World) :
  incl (rows (db w')) (rows (db w)) ->
  sends_by false (id P) w' = sends_by false (id P) w ->
  (forall j, sends_of j w <= sends_of j w')%nat ->
  c' <> CQuery ->
  manual_inv P user c m w -> manual_inv P user c' m w'.
Proof.
  intros Hi Hs Hm Hc. destruct m; cbn [manual_inv]; auto.
  - congruence.
  - intros [H1 [H2 H3]]. split; [exact H1|]. split; [exact H2|].
    eapply stream_kept_frame; [| |exact H3]; [intros _; exact Hc|right; exact Hc].
  - intro H. specialize (Hm (id P)). lia.
  - intros [H1 H2]. specialize (Hm (id P)). split; [lia|right; exact Hc].
Qed.

(** The tick's invariant survives a step of the handler. *)
Lemma cron_inv_frame (c : CronPc) (m m' : ManualPc) (w w' : World) :
  incl (rows (db w')) (rows (db w)) ->
  sends_by true (id P) w' = sends_by true (id P) w ->
  (forall j, sends_of j w <= sends_of j w')%nat ->
  (doomed P m w -> doomed P m' w') ->
  (files w' = files w \/ doomed P m' w') ->
  cron_inv P user m c w -> cron_inv P user m' c w'.
Proof.
  intros Hi Hs Hm Hd Hf. destruct c; cbn [cron_inv].
  - congruence.
  - intros [H|H]; [left; exact H|right; apply Hd; exact H].
  - intros [[H1 [H2 H3]]|[H|H]]; [left|right; left; exact H|right; right; apply Hd; exact H].
    split; [exact H1|]. split; [exact H2|].
    eapply stream_kept_frame; [exact Hd|exact Hf|exact H3].
  - intros [H1 H2]. split; [specialize (Hm (id post)); lia|].
    destruct H2 as [H|[H|H]]; auto.
  - exact Hd.
Qed.

Lemma sys_step_cron (q : Requester) (i : Z) (s : Sys) :
  sys_step gw now q i s TCron =
  {| world := snd (cron_step gw now (cron s) (world s));
     cron := fst (cron_step gw now (cron s) (world s));
     manual := manual s |}.
Proof. unfold sys_step. destruct (cron_step gw now (cron s) (world s)). reflexivity. Qed.

Lemma sys_step_manual (q : Requester) (i : Z) (s : Sys) :
  sys_step gw now q i s TManual =
  {| world := snd (manual_step gw q i (manual s) (world s));
     cron := cron s;
     manual := fst (manual_step gw q i (manual s) (world s)) |}.
Proof.
  unfold sys_step. destruct (manual_step gw q i (manual s) (world s)). reflexivity.
Qed.

(** What the cron task's own step establishes. *)
Lemma cron_step_inv (m : ManualPc) (c : CronPc) (w : World) :
  incl (rows (db w)) (rows (db w0)) ->
  usersDb w = usersDb w0 ->
  (gone P (db w) -> (1 <= sends_of (id P) w)%nat) ->
  cron_inv P user m c w ->
  (gone P (db (snd (cron_step gw now c w))) ->
     (1 <= sends_of (id P) (snd (cron_step gw now c w)))%nat) /\
  cron_inv P user m (fst (cron_step gw now c w)) (snd (cron_step gw now c w)).
Proof.
  intros Hi Hu Hg Hc.
  destruct c as [|posts [|a rest]|posts u a stream rest|posts a rest|].
  - cbn [cron_step fst snd cron_inv]. split; [exact Hg|].
    destruct (sql_get (id P) (db w)) as [p|] eqn:E.
    + apply sql_get_some in E. destruct E as [Hin Hid].
      assert (p = P) by (eapply stored_is_P; eassumption). subst p.
      left. unfold sql_select_due. apply filter_In. split; assumption.
    + right. left. apply sql_get_none. exact E.
  - cbn [cron_step fst snd cron_inv] in *. rewrite cron_finish_db.
    rewrite (sends_of_frame (id P) w (cron_finish posts w))
      by apply cron_finish_outbox.
    split; [exact Hg|]. destruct Hc as [[]|Hc].
    destruct Hc as [H|H]; [left|right; exact H].
    unfold gone. rewrite cron_finish_db. exact H.
  - cbn [cron_step cron_inv] in *.
    destruct (users_get (user_id a) w) as [u|] eqn:E; cbn [fst snd cron_inv].
    + split; [exact Hg|]. destruct Hc as [[->|Hc]|Hc]; auto.
      left. split; [reflexivity|]. split; [|apply stream_of_kept].
      rewrite (users_get_frame w (user_id P) Hu) in E. congruence.
    + split; [exact Hg|]. destruct Hc as [[->|Hc]|Hc]; auto.
      rewrite (users_get_frame w (user_id P) Hu) in E. congruence.
  - cbn [cron_inv] in Hc.
    destruct (cron_send_cases gw now posts u a stream rest w)
      as [[G E]|[[G [T E]]|[G [fs [T E]]]]]; rewrite E; cbn [fst snd cron_inv].
    + split; [exact Hg|]. destruct Hc as [[-> [-> _]]|Hc]; [congruence|].
      destruct Hc as [H|H]; [left; exact H|right].
      eapply doomed_incl; [|exact H]. apply incl_refl.
    + split.
      * intro H. apply Hg in H.
        rewrite sends_of_log.
        pose proof (sends_of_le_push (id P)
                      {| origin := Cron; recipient := u; payload := a |} w). lia.
      * destruct Hc as [[-> [-> Hk]]|Hc].
        -- right. eapply doomed_incl; [apply incl_refl|].
           apply (stream_kept_thrown stream
                    (push_delivery {| origin := Cron; recipient := user; payload := P |} w)).
           ++ eapply stream_kept_frame; [| |exact Hk]; [tauto|left; reflexivity].
           ++ exact T.
        -- destruct Hc as [H|H]; [left; exact H|right].
           eapply doomed_incl; [|exact H]. apply incl_refl.
    + rewrite sends_of_files.
      rewrite ?sends_of_files.
      rewrite !sends_of_push. cbn [payload]. rewrite Z.eqb_refl.
      split; [intro H; apply Hg in H; lia|]. split; [lia|].
      destruct Hc as [[-> _]|[H|H]]; auto.
  - cbn [cron_step fst snd cron_inv] in *.
    rewrite (sends_of_frame (id P) w (delete_row (id a) w)) by reflexivity.
    destruct Hc as [Hs Hc]. split.
    + intro H. destruct (Z.eq_dec (id a) (id P)) as [E|E].
      * rewrite <- E. exact Hs.
      * apply Hg. eapply gone_delete_other; eassumption.
    + destruct Hc as [->|[Hc|Hc]].
      * right. left. apply gone_delete_same.
      * left. exact Hc.
      * right. eapply doomed_incl; [apply delete_row_incl|exact Hc].
  - cbn [cron_step fst snd cron_inv] in *. split; assumption.
Qed.

(** What the handler's own step establishes. *)
Lemma manual_step_inv (c : CronPc) (m : ManualPc) (w : World) :
  incl (rows (db w)) (rows (db w0)) ->
  usersDb w = usersDb w0 ->
  (gone P (db w) -> (1 <= sends_of (id P) w)%nat) ->
  manual_inv P user c m w ->
  let m' := fst (manual_step gw (Some r) (id P) m w) in
  let w' := snd (manual_step gw (Some r) (id P) m w) in
  (gone P (db w') -> (1 <= sends_of (id P) w')%nat) /\
  manual_inv P user c m' w' /\
  (doomed P m w -> doomed P m' w') /\
  (files w' = files w \/ doomed P m' w').
Proof.
  intros Hi Hu Hg Hm. cbv zeta.
  destruct m as [|p|p|u p stream| |x].
  - cbn [manual_step manual_inv] in *.
    destruct (sql_get (id P) (db w)) as [p|] eqn:E; cbn [fst snd manual_inv].
    + split; [exact Hg|]. split.
      * apply sql_get_some in E. destruct E as [Hin Hid].
        eapply stored_is_P; eassumption.
      * split; [intros [H|H]; [left; exact H|discriminate]|left; reflexivity].
    + apply sql_get_none in E. split; [exact Hg|].
      split; [split; [apply Hg; exact E|left; exact E]|].
      split; [intros [H|H]; [left; exact H|discriminate]|left; reflexivity].
  - cbn [manual_step manual_inv] in *. subst p.
    unfold verifyOwnershipOrReject. rewrite owner0. cbn [same_owner].
    rewrite Z.eqb_refl. cbn [fst snd manual_inv].
    split; [exact Hg|]. split; [reflexivity|].
    split; [intros [H|H]; [left; exact H|discriminate]|left; reflexivity].
  - cbn [manual_step manual_inv] in *. subst p.
    rewrite (users_get_frame w (user_id P) Hu), user0.
    cbn [fst snd manual_inv]. split; [exact Hg|].
    split; [split; [reflexivity|split; [reflexivity|apply stream_of_kept]]|].
    split; [intros [H|H]; [left; exact H|discriminate]|left; reflexivity].
  - cbn [manual_inv] in Hm. destruct Hm as [-> [-> Hk]].
    destruct (manual_send_cases gw (Some r) (id P) user P stream w)
      as [[G E]|[[G [T E]]|[G [fs [T E]]]]]; rewrite E; cbn [fst snd manual_inv];
      [congruence| |].
    + rewrite !sends_of_push. cbn [payload]. rewrite Z.eqb_refl.
      split; [intros _; lia|]. split.
      * split; [lia|]. right.
        apply (stream_kept_thrown stream
                 (push_delivery {| origin := Manual; recipient := user; payload := P |} w)).
        -- eapply stream_kept_frame; [| |exact Hk]; [tauto|left; reflexivity].
        -- exact T.
      * split; [intros [H|H]; [left; exact H|discriminate]|left; reflexivity].
    + rewrite sends_of_files.
      rewrite !sends_of_push. cbn [payload]. rewrite Z.eqb_refl.
      split; [intros _; lia|]. split; [lia|].
      split; [intros _; right; reflexivity|right; right; reflexivity].
  - cbn [manual_step fst snd manual_inv] in *.
    rewrite (sends_of_frame (id P) w
               (broadcast posts_updated (delete_row (id P) w))) by reflexivity.
    assert (Hgone : gone P (db (broadcast posts_updated (delete_row (id P) w))))
      by (cbn [db broadcast]; apply gone_delete_same).
    split; [intros _; exact Hm|]. split; [split; [exact Hm|left; exact Hgone]|].
    split; [intros _; left; exact Hgone|left; reflexivity].
  - cbn [manual_step fst snd manual_inv] in *. split; [exact Hg|].
    split; [exact Hm|]. split; [tauto|left; reflexivity].
Qed.

Lemma sys_step_inv (s : Sys) (t : Turn) :
  race_inv w0 P user s -> race_inv w0 P user (sys_step gw now (Some r) (id P) s t).
Proof.
  intros [Hi [Hu [Hg [Hc Hm]]]]. destruct t.
  - rewrite sys_step_cron. unfold race_inv. cbn [world cron manual].
    pose proof (cron_step_incl gw now (cron s) (world s)) as Hinc.
    pose proof (cron_step_frame gw now (cron s) (world s)) as [Hfu [Hfs Hnq]].
    pose proof (cron_step_potential gw now (id P) (cron s) (world s)) as [_ [Hsb _]].
    pose proof (cron_step_inv (manual s) (cron s) (world s) Hi Hu Hg Hc) as [Hg' Hc'].
    split; [eapply incl_tran; eassumption|].
    split; [congruence|]. split; [exact Hg'|]. split; [exact Hc'|].
    eapply manual_inv_frame; eassumption.
  - rewrite sys_step_manual. unfold race_inv. cbn [world cron manual].
    pose proof (manual_step_incl gw (Some r) (id P) (manual s) (world s)) as Hinc.
    pose proof (manual_step_frame gw (Some r) (id P) (manual s) (world s))
      as [Hfu Hfs].
    pose proof (manual_step_potential gw (Some r) (id P) (manual s) (world s))
      as [_ [Hsb _]].
    pose proof (manual_step_inv (cron s) (manual s) (world s) Hi Hu Hg Hm)
      as [Hg' [Hm' [Hd Hf]]].
    split; [eapply incl_tran; eassumption|].
    split; [congruence|]. split; [exact Hg'|]. split; [|exact Hm'].
    eapply cron_inv_frame; eassumption.
Qed.

Lemma run_inv (sched : list Turn) (s : Sys) :
  race_inv w0 P user s -> race_inv w0 P user (run gw now (Some r) (id P) sched s).
Proof.
  revert s. induction sched as [|t sched IH]; intros s H; simpl; [exact H|].
  apply IH. apply sys_step_inv. exact H.
Qed.

Hypothesis fresh0 : outbox w0 = [].

Lemma start_inv : race_inv w0 P user (start w0).
Proof.
  unfold race_inv, start. cbn [world cron manual cron_inv manual_inv].
  split; [apply incl_refl|]. split; [reflexivity|].
  split; [|split; unfold sends_by; rewrite fresh0; reflexivity].
  intro H. exfalso. apply H. apply in_map. exact stored0.
Qed.

Lemma start_potential :
  cron_potential (id P) (start w0) = 1%nat /\
  manual_potential (id P) (start w0) = 1%nat.
Proof.
  unfold cron_potential, manual_potential, start, sends_by.
  cbn [world cron manual cron_pending manual_pending]. rewrite fresh0.
  unfold count_id. rewrite (count_keyed _ _ keyed0 stored0). split; reflexivity.
Qed.

End RaceOnDuePost.

(** C1, as stated, fails: post 1 is due, its owner asks for it to be sent
    while a tick is under way, every send resolves, both tasks run to their
    end, and the post has been sent twice. *)
Lemma race_sends_twice :
  finished (run always demo_now (Some 7) 1 overlap_schedule
              (start (demo_world demo_due_db))) /\
  sends_of 1 (world (run always demo_now (Some 7) 1 overlap_schedule
                       (start (demo_world demo_due_db)))) = 2%nat.
Proof.
  split; [split; [reflexivity|eexists; reflexivity]|reflexivity].
Qed.

Example apart_sends_once :
  sends_of 1 (world (run always demo_now (Some 7) 1 apart_schedule
                       (start (demo_world demo_due_db)))) = 1%nat.
Proof. reflexivity. Qed.

(** The same race over a post with an upload: both tasks stream the file,
    the tick unlinks it and deletes the row, the unlink of the handler
    throws and the handler answers 500; the post has been sent twice. *)
Example race_over_upload :
  let s := run always demo_now (Some 7) 1
             ([TManual; TManual; TManual] ++ repeat TCron 7 ++ repeat TManual 2)
             (start demo_photo_world) in
  manual s = MDone (Failure 500) /\
  sends_of 1 (world s) = 2%nat /\
  sql_get 1 (db (world s)) = None.
Proof. repeat split; reflexivity. Qed.

(** With a url that names the uploads directory, on a gateway on which
    every send resolves, the unlink throws in both tasks and the row stays:
    the handler and then the tick each send the post, though neither
    overlaps the other. *)
Example race_over_directory :
  let s := run always demo_now (Some 7) 2 (repeat TManual 5 ++ repeat TCron 8)
             (start demo_photo_world) in
  finished s /\
  sends_of 2 (world s) = 2%nat /\
  sql_get 2 (db (world s))
  = Some (demo_photo 2 "/uploads/." (Some "2024-01-02T00:00:00.000Z"%string)).
Proof.
  split; [split; [reflexivity|eexists; reflexivity]|split; reflexivity].
Qed.

(** C1, amended. For a stored due post whose owner has credentials and
    whose send resolves, a tick and the owner's manual send of that post,
    their steps interleaved in any order, send the post at most twice.
    When its upload, if it has one, is not [uploads/] itself, then once
    both have run to their end the post has been sent at least once and its
    row is gone; and when one of the two has finished before the other
    takes its first step, it has been sent exactly once. *)
Theorem race_sends_once_or_twice
    (gw : Gateway) (now : string) (w0 : World) (P : Post) (user : UserRow) (r : Z)
    (sched : list Turn) :
  well_keyed (db w0) ->
  In P (rows (db w0)) ->
  is_due now P = true ->
  user_id P = SInt r ->
  users_get (user_id P) w0 = Some user ->
  gw user P = true ->
  outbox w0 = [] ->
  let go := run gw now (Some r) (id P) in
  let s := go sched (start w0) in
  (sends_of (id P) (world s) <= 2)%nat /\
  (jammed P = false ->
   (finished s ->
      (1 <= sends_of (id P) (world s))%nat /\ sql_get (id P) (db (world s)) = None) /\
   (forall before_ after_,
      sched = before_ ++ after_ ->
      (manual (go before_ (start w0)) = MGet /\ cron (go before_ (start w0)) = CDone) \/
      (cron (go before_ (start w0)) = CQuery /\
       exists x, manual (go before_ (start w0)) = MDone x) ->
      finished s ->
      sends_of (id P) (world s) = 1%nat)).
Proof.
  intros Hk Hin Hdue Ho Hu Hg Hout go s.
  pose proof (start_inv w0 P user Hin Hout) as Hinv0.
  pose proof (start_potential w0 P Hk Hin Hout) as [Hc0 Hm0].
  split.
  { rewrite sends_of_split.
    pose proof (run_potential gw now (Some r) (id P) sched (start w0))
      as [H1 H2].
    fold go in H1, H2. fold s in H1, H2.
    unfold cron_potential, manual_potential in *. lia. }
  intro Hj.
  assert (Hinv : forall l, race_inv w0 P user (go l (start w0))).
  { intro l. apply (run_inv gw now w0 P user r Hk Hin Hdue Ho Hu Hg Hj). exact Hinv0. }
  assert (Hfin : finished s -> (1 <= sends_of (id P) (world s))%nat /\
                               sql_get (id P) (db (world s)) = None).
  { intros [Hcd [x Hx]]. destruct (Hinv sched) as [_ [_ [Hgs [Hc _]]]].
    fold s in Hc, Hgs. rewrite Hcd, Hx in Hc. cbn [cron_inv] in Hc.
    destruct Hc as [Hc|Hc]; [|discriminate].
    split; [apply Hgs; exact Hc|]. apply sql_get_none. exact Hc. }
  split; [exact Hfin|].
  intros l1 l2 Hs Hmid Hf. destruct (Hfin Hf) as [Hge _].
  assert (Es : s = go l2 (go l1 (start w0))).
  { unfold s, go, run. rewrite Hs. apply fold_left_app. }
  pose proof (run_potential gw now (Some r) (id P) l2 (go l1 (start w0)))
    as [H1 H2].
  pose proof (run_potential gw now (Some r) (id P) l1 (start w0))
    as [H3 H4].
  fold go in H1, H2, H3, H4. rewrite <- Es in H1, H2.
  destruct (Hinv l1) as [_ [_ [_ [Hc Hm]]]].
  rewrite sends_of_split in *.
  unfold cron_potential, manual_potential in *.
  destruct Hmid as [[Em Ec]|[Ec [x Em]]]; rewrite Em, Ec in *;
    cbn [cron_inv manual_inv cron_pending manual_pending] in *.
  - destruct Hc as [Hc|Hc]; [|discriminate].
    rewrite (count_id_zero _ _ Hc) in H2. lia.
  - destruct Hm as [_ [Hm|Hm]]; [|congruence].
    rewrite (count_id_zero _ _ Hm) in H1. lia.
Qed.

Lemma race_sends_once_or_twice_witness :
  (sends_of 1%Z (world (run always demo_now (Some 7%Z) 1%Z overlap_schedule
                          (start (demo_world demo_due_db)))) <= 2)%nat.
Proof.
  exact (proj1 (race_sends_once_or_twice always demo_now (demo_world demo_due_db)
           (demo_post 1 (Some "2024-01-01T00:00:00.000Z"%string))
           {| uid := 7; telegram_token := "t"; channel_id := "c" |} 7
           overlap_schedule
           demo_due_db_keyed (or_introl eq_refl) eq_refl eq_refl eq_refl eq_refl
           eq_refl)).
Defined.

(** ** A task running alone is the handler *)

Lemma run_cron_step (gw : Gateway) (now : string) (r : Requester) (i : Z)
    (n : nat) (w : World) (c : CronPc) (m : ManualPc) :
  run gw now r i (repeat TCron (S n)) {| world := w; cron := c; manual := m |}
  = run gw now r i (repeat TCron n)
      {| world := snd (cron_step gw now c w); cron := fst (cron_step gw now c w);
         manual := m |}.
Proof.
  unfold run. cbn [repeat fold_left]. rewrite sys_step_cron. reflexivity.
Qed.

Lemma cron_loop_alone (gw : Gateway) (now : string) (r : Requester) (i : Z)
    (m : ManualPc) (posts rest : list Post) (w : World) :
  exists n,
    run gw now r i (repeat TCron n) {| world := w; cron := CLoop posts rest; manual := m |}
    = {| world := cron_finish posts (cron_loop gw rest w); cron := CDone; manual := m |}.
Proof.
  revert w. induction rest as [|a rest IH]; intro w.
  - exists 1%nat. reflexivity.
  - cbn [cron_loop]. destruct (users_get (user_id a) w) as [u|] eqn:Eu.
    + destruct (gw u a) eqn:Eg.
      * cbv zeta.
        destruct (after_send (stream_of a w)
                    (push_delivery {| origin := Cron; recipient := u; payload := a |} w))
          as [w2|] eqn:Ea.
        -- destruct (IH (delete_row (id a) w2)) as [n Hn].
           exists (S (S (S n))). rewrite <- Hn.
           rewrite run_cron_step. cbn [cron_step]. rewrite Eu. cbn [fst snd].
           rewrite run_cron_step. cbn [cron_step]. rewrite Eg, Ea. cbn [fst snd].
           rewrite run_cron_step. reflexivity.
        -- destruct (IH (log_error (id a)
                           (push_delivery
                              {| origin := Cron; recipient := u; payload := a |} w)))
             as [n Hn].
           exists (S (S n)). rewrite <- Hn.
           rewrite run_cron_step. cbn [cron_step]. rewrite Eu. cbn [fst snd].
           rewrite run_cron_step. cbn [cron_step]. rewrite Eg, Ea. reflexivity.
      * destruct (IH (log_error (id a) w)) as [n Hn].
        exists (S (S n)). rewrite <- Hn.
        rewrite run_cron_step. cbn [cron_step]. rewrite Eu. cbn [fst snd].
        rewrite run_cron_step. cbn [cron_step]. rewrite Eg. reflexivity.
    + destruct (IH w) as [n Hn]. exists (S n). rewrite <- Hn.
      rewrite run_cron_step. cbn [cron_step]. rewrite Eu. reflexivity.
Qed.

Lemma cron_task_alone (gw : Gateway) (now : string) (r : Requester) (i : Z)
    (m : ManualPc) (w : World) :
  exists n,
    run gw now r i (repeat TCron n) {| world := w; cron := CQuery; manual := m |}
    = {| world := cron_tick gw now w; cron := CDone; manual := m |}.
Proof.
  destruct (cron_loop_alone gw now r i m (sql_select_due now (db w))
              (sql_select_due now (db w)) w) as [n Hn].
  exists (S n). rewrite run_cron_step. exact Hn.
Qed.

Lemma manual_task_alone (gw : Gateway) (now : string) (r : Requester) (i : Z)
    (c : CronPc) (w : World) :
  run gw now r i (repeat TManual 5) {| world := w; cron := c; manual := MGet |}
  = {| world := snd (sendPost gw r i w); cron := c;
       manual := MDone (fst (sendPost gw r i w)) |}.
Proof.
  unfold sendPost, run. cbn [repeat fold_left].
  rewrite !sys_step_manual. cbn [world cron manual manual_step].
  destruct (sql_get i (db w)) as [p|]; cbn [fst snd manual_step]; [|reflexivity].
  destruct (verifyOwnershipOrReject p r); cbn [fst snd manual_step]; [reflexivity|].
  destruct (users_get (user_id p) w) as [u|]; cbn [fst snd manual_step];
    [|reflexivity].
  destruct (gw u p); [|reflexivity]. cbv zeta.
  destruct (after_send _ _); reflexivity.
Qed.

(** * Further properties of the routes *)

(** ** Requests that are turned away *)


Lemma owner_accepted (r : Z) (post : Post) :
  user_id post = SInt r -> verifyOwnershipOrReject post (Some r) = None.
Proof.
  intro H. unfold verifyOwnershipOrReject, same_owner. rewrite H, Z.eqb_refl. reflexivity.
Qed.



(** X2. A request for an id no row has is answered 404 and changes
    nothing, on each of the six routes that address a post. *)
Theorem missing_post_changes_nothing
    (Number_text integer_text : string -> option Z)
    (w : World) (q : Request) (r : Requester) (i : Z) :
  targets q = Some (r, i) ->
  sql_get i (db w) = None ->
  handle_request Number_text integer_text w q = w /\
  answer Number_text integer_text w q = Some (Failure 404).
Proof.
  intros Ht Hget.
  destruct q; cbn [targets] in Ht; try discriminate; inversion Ht; subst;
    cbn [handle_request answer];
    unfold update, delete, deleteImage, schedulePost, cancelSchedule, sendPost, owned;
    rewrite Hget; split; reflexivity.
Qed.

Lemma missing_post_changes_nothing_witness :
  answer demo_number demo_integer_text (demo_world demo_due_db)
    (ReqSend always (Some 7) 9) = Some (Failure 404).
Proof.
  exact (proj2 (missing_post_changes_nothing demo_number demo_integer_text
           (demo_world demo_due_db)
           (ReqSend always (Some 7) 9) (Some 7) 9 eq_refl eq_refl)).
Defined.

(** ** The primary key *)

(** Whatever holds of the table and survives each statement survives each
    request and each tick. *)
Section TableInvariant.

Variable Number_text : string -> option Z.
Variable integer_text : string -> option Z.
Variable Pd : DB -> Prop.

Hypothesis Pd_delete : forall i b, Pd b -> Pd (fst (sql_delete i b)).
Hypothesis Pd_update :
  forall i f b, (forall p, id (f p) = id p) -> Pd b -> Pd (update_where i f b).
Hypothesis Pd_insert :
  forall u t d x b k b', Pd b -> sql_insert u t d x b = Some (k, b') -> Pd b'.

Lemma owned_table (discard : bool) (r : Requester) (i : Z) (stmt : DB -> DB)
    (w : World) :
  (forall b, Pd b -> Pd (stmt b)) ->
  Pd (db w) -> Pd (db (snd (owned discard r i stmt w))).
Proof.
  intros Hs H. unfold owned. destruct (sql_get i (db w)) as [p|]; [|exact H].
  destruct (verifyOwnershipOrReject p r); [exact H|].
  destruct (if discard then _ else _) as [w1|] eqn:E; [|exact H].
  cbn. apply Hs. rewrite (discard_table _ _ _ _ E). exact H.
Qed.

Lemma cron_loop_table (gw : Gateway) (l : list Post) (w : World) :
  Pd (db w) -> Pd (db (cron_loop gw l w)).
Proof.
  apply (cron_loop_keeps gw (fun w' => Pd (db w'))); auto.
  intros i w' H. unfold delete_row. cbn [db set_db]. apply Pd_delete. exact H.
Qed.

Lemma handle_request_table (w : World) (q : Request) :
  Pd (db w) -> Pd (db (handle_request Number_text integer_text w q)).
Proof.
  intro H. destruct q; cbn [handle_request].
  - unfold create. destruct r as [r|]; [|exact H].
    destruct (as_integer Number_text (c_userId body)) as [k|]; [|exact H].
    destruct (negb (k =? r)); [exact H|].
    destruct (sql_insert _ _ _ _ _) as [[j b']|] eqn:E; [|exact H].
    cbn. eapply Pd_insert; eassumption.
  - unfold update. destruct (sql_get i (db w)) as [p|]; [|exact H].
    destruct (verifyOwnershipOrReject p r); [exact H|].
    destruct (if replaces_url _ _ then _ else _) as [w1|] eqn:E; [|exact H].
    cbn. apply Pd_update; [reflexivity|].
    rewrite (discard_table _ _ _ _ E). exact H.
  - apply owned_table; [|exact H]. intro b. apply Pd_delete.
  - apply owned_table; [|exact H]. intros b Hb. apply Pd_update; [reflexivity|exact Hb].
  - apply owned_table; [|exact H]. intros b Hb. apply Pd_update; [reflexivity|exact Hb].
  - apply owned_table; [|exact H]. intros b Hb. apply Pd_update; [reflexivity|exact Hb].
  - unfold sendPost. destruct (sql_get i (db w)) as [p|]; [|exact H].
    destruct (verifyOwnershipOrReject p r); [exact H|].
    destruct (users_get (user_id p) w) as [u|]; [|exact H].
    destruct (gw u p); [|exact H]. cbv zeta.
    destruct (after_send _ _) as [w2|] eqn:E; [|exact H].
    apply after_send_some in E. destruct E as [fs ->].
    cbn [snd broadcast db]. unfold delete_row. cbn [set_db set_files db push_delivery].
    apply Pd_delete. exact H.
  - unfold cron_tick. rewrite cron_finish_db. apply cron_loop_table. exact H.
  - exact H.
Qed.

Lemma serve_table (qs : list Request) (w : World) :
  Pd (db w) -> Pd (db (serve Number_text integer_text qs w)).
Proof.
  revert w. induction qs as [|q qs IH]; intros w H; simpl; [exact H|].
  apply IH. apply handle_request_table. exact H.
Qed.

End TableInvariant.

Lemma key_inv_delete (i : Z) (b : DB) : key_inv b -> key_inv (fst (sql_delete i b)).
Proof.
  intros [Hn Hb]. split.
  - apply (delete_well_keyed i b Hn).
  - intros j Hj. apply Hb. simpl in Hj. unfold ids in *.
    apply in_map_iff in Hj. destruct Hj as [x [Hx Hj]]. apply filter_In in Hj.
    apply in_map_iff. exists x. tauto.
Qed.

Lemma key_inv_update (i : Z) (f : Post -> Post) (b : DB) :
  (forall p, id (f p) = id p) -> key_inv b -> key_inv (update_where i f b).
Proof.
  intros Hf [Hn Hb]. unfold key_inv. rewrite (update_where_ids i f Hf b).
  split; assumption.
Qed.

Lemma key_inv_insert (u : sqlval) (t d x : option string) (b : DB) (k : Z) (b' : DB) :
  key_inv b -> sql_insert u t d x b = Some (k, b') -> key_inv b'.
Proof.
  intros [Hn Hb] H. unfold sql_insert in H. destruct t as [t|]; [|discriminate].
  inversion H; subst; clear H. unfold key_inv, ids. cbn [rows seq].
  rewrite map_app. cbn [map id]. split.
  - apply NoDup_app; [exact Hn|repeat constructor; simpl; tauto|].
    intros j Hj [<-|[]]. apply max_id_bound in Hj. lia.
  - intros j Hj. apply in_app_iff in Hj. destruct Hj as [Hj|[<-|[]]]; [|lia].
    apply max_id_bound in Hj. lia.
Qed.

Lemma seq_grows_delete (n i : Z) (b : DB) : n <= seq b -> n <= seq (fst (sql_delete i b)).
Proof. trivial. Qed.

Lemma seq_grows_insert (n : Z) (u : sqlval) (t d x : option string) (b : DB)
    (k : Z) (b' : DB) :
  n <= seq b -> sql_insert u t d x b = Some (k, b') -> n <= seq b'.
Proof.
  intros Hn H. unfold sql_insert in H. destruct t; [|discriminate].
  inversion H; subst. cbn [seq]. lia.
Qed.

(** X3. Every request and every tick keeps the ids of the stored posts
    distinct and at most the AUTOINCREMENT mark; so this holds after any
    sequence of them from an empty table. *)
Theorem primary_key_kept (Number_text integer_text : string -> option Z) :
  (forall (w : World) (q : Request),
      key_inv (db w) -> key_inv (db (handle_request Number_text integer_text w q))) /\
  (forall (us : list UserRow) (cs : list Client) (fs : list string)
          (qs : list Request),
      key_inv (db (serve Number_text integer_text qs (boot us cs fs)))).
Proof.
  split.
  - intros w q. apply handle_request_table.
    + apply key_inv_delete.
    + apply key_inv_update.
    + intros u t d x b k b'. apply key_inv_insert.
  - intros us cs fs qs. apply serve_table.
    + apply key_inv_delete.
    + apply key_inv_update.
    + intros u t d x b k b'. apply key_inv_insert.
    + split; [constructor|]. intros j [].
Qed.

(** X4. An id is never handed out again: an id that some row carries at one
    moment is smaller than the id of any post created after any further
    requests and ticks, also when that row has been deleted meanwhile. *)
Theorem ids_never_reused
    (Number_text integer_text : string -> option Z)
    (w : World) (j : Z) (qs : list Request) (r : Requester) (body : CreateBody) (k : Z) :
  key_inv (db w) ->
  In j (ids (rows (db w))) ->
  fst (create Number_text integer_text r body
         (serve Number_text integer_text qs w)) = Success (Some k) ->
  j < k.
Proof.
  intros [Hn Hb] Hj Hc.
  assert (Hs : j <= seq (db (serve Number_text integer_text qs w))).
  { apply (serve_table Number_text integer_text (fun b => j <= seq b)).
    - intros i b. apply seq_grows_delete.
    - intros i f b _ H. exact H.
    - intros u t d x b k' b'. apply seq_grows_insert.
    - apply Hb. exact Hj. }
  unfold create in Hc. destruct r as [r|]; [|discriminate].
  destruct (as_integer Number_text (c_userId body)) as [u|]; [|discriminate].
  destruct (negb (u =? r)); [discriminate|].
  destruct (sql_insert _ _ _ _ _) as [[k' b']|] eqn:E; [|discriminate].
  cbn in Hc. inversion Hc; subst k'.
  unfold sql_insert in E. destruct (bind (c_title body)); [|discriminate].
  inversion E. lia.
Qed.

Lemma demo_due_db_key_inv : key_inv demo_due_db.
Proof.
  split; [exact demo_due_db_keyed|].
  simpl. intros j [<-|[<-|[<-|[]]]]; lia.
Qed.

Lemma ids_never_reused_witness : 2 < 4.
Proof.
  exact (ids_never_reused demo_number demo_integer_text (demo_world demo_due_db) 2
           [ReqDelete (Some 7) 2; ReqDelete (Some 7) 3]
           (Some 7) demo_create 4
           demo_due_db_key_inv (or_intror (or_introl eq_refl)) eq_refl).
Defined.

(** ** Reading back what the routes wrote *)

Lemma find_snoc_fresh (k : Z) (l : list Post) (x : Post) :
  ~ In k (ids l) -> id x = k ->
  find (fun p => id p =? k) (l ++ [x]) = Some x.
Proof.
  intros Hf Hx. induction l as [|a l IH]; simpl.
  - rewrite Hx, Z.eqb_refl. reflexivity.
  - destruct (id a =? k) eqn:E.
    + apply Z.eqb_eq in E. exfalso. apply Hf. left. exact E.
    + apply IH. intro H. apply Hf. right. exact H.
Qed.


Lemma sql_get_delete_same (i : Z) (b : DB) : sql_get i (fst (sql_delete i b)) = None.
Proof.
  apply sql_get_none. intro H. apply in_map_iff in H.
  destruct H as [x [Hx H]]. apply delete_rows_in in H. tauto.
Qed.

Lemma sql_get_delete_other (i j : Z) (b : DB) :
  j <> i -> sql_get j (fst (sql_delete i b)) = sql_get j b.
Proof.
  intro H. unfold sql_get. simpl. induction (rows b) as [|a l IH]; simpl; [reflexivity|].
  destruct (id a =? i) eqn:Ei; simpl.
  - apply Z.eqb_eq in Ei. destruct (id a =? j) eqn:Ej; [|exact IH].
    apply Z.eqb_eq in Ej. congruence.
  - destruct (id a =? j); [reflexivity|exact IH].
Qed.

(** What the routes built on [owned] do for the owner of the post. *)
Lemma owned_accepted (discard : bool) (r i : Z) (stmt : DB -> DB) (w : World)
    (post : Post) :
  sql_get i (db w) = Some post ->
  user_id post = SInt r ->
  owned discard (Some r) i stmt w =
  match (if discard then discard_upload post w else Some w) with
  | None => (Failure 500, w)
  | Some w1 => (Success None, broadcast posts_updated (set_db (stmt (db w1)) w1))
  end.
Proof.
  intros H Ho. unfold owned. rewrite H, (owner_accepted r post Ho). reflexivity.
Qed.

(** The two delete routes for the owner: the unlink throws for an upload
    that is a directory, otherwise the upload is removed and the statement
    issued. *)
Lemma owned_discard (r i : Z) (stmt : DB -> DB) (w : World) (post : Post) :
  sql_get i (db w) = Some post ->
  user_id post = SInt r ->
  owned true (Some r) i stmt w =
  if jammed post then (Failure 500, w)
  else (Success None,
        broadcast posts_updated
          (set_db (stmt (db w))
             (set_files (filter (fun f => negb (names post f)) (files w)) w))).
Proof.
  intros H Ho. rewrite (owned_accepted true r i stmt w post H Ho).
  destruct (discard_upload_cases post w) as [[J E]|[J E]]; rewrite J, E; reflexivity.
Qed.



(** A post created with [userId: "0x7"] by requester 7 is stored, and its
    creator can neither read it nor find it in the listing under path 7. *)
Example created_with_text_owner :
  let w' := snd (create demo_number demo_integer_text (Some 7)
                   {| c_userId := VText "0x7"; c_title := JString "T";
                      c_description := JUndefined; c_url := JUndefined |}
                   (boot [] [] [])) in
  fst (create demo_number demo_integer_text (Some 7)
         {| c_userId := VText "0x7"; c_title := JString "T";
            c_description := JUndefined; c_url := JUndefined |}
         (boot [] [] [])) = Success (Some 1) /\
  getPost (Some 7) 1 w' = Failure 403 /\
  listByOwner demo_number demo_integer_text demo_datetime (Some 7) "7" w' = Rows [].
Proof. repeat split; reflexivity. Qed.

(** X6. When the owner deletes a post whose upload, if any, is not the
    uploads directory itself, the request succeeds, the post can no longer
    be read by anyone, every other post reads as before, the upload is
    removed from the disk, one [posts_updated] is broadcast and nothing is
    sent to Telegram.  When the url names the uploads directory, the unlink
    throws: the answer is 500 and nothing has changed. *)
Theorem deleted_post_is_gone (r i : Z) (w : World) (post : Post) :
  sql_get i (db w) = Some post ->
  user_id post = SInt r ->
  if jammed post then delete (Some r) i w = (Failure 500, w)
  else
    fst (delete (Some r) i w) = Success None /\
    (forall r', getPost r' i (snd (delete (Some r) i w)) = Failure 404) /\
    (forall j, j <> i ->
       sql_get j (db (snd (delete (Some r) i w))) = sql_get j (db w)) /\
    files (snd (delete (Some r) i w))
    = filter (fun f => negb (names post f)) (files w) /\
    published (snd (delete (Some r) i w)) = published w ++ [posts_updated] /\
    outbox (snd (delete (Some r) i w)) = outbox w.
Proof.
  intros H Ho. unfold delete. rewrite (owned_discard r i _ w post H Ho).
  destruct (jammed post); [reflexivity|].
  cbn [fst snd db broadcast set_db set_files published outbox files].
  split; [reflexivity|]. split; [|split; [|repeat split; reflexivity]].
  - intro r'. unfold getPost. cbn [db broadcast set_db set_files].
    rewrite sql_get_delete_same. reflexivity.
  - intros j Hj. apply sql_get_delete_other. exact Hj.
Qed.

Lemma deleted_post_is_gone_witness :
  fst (delete (Some 7) 2 (demo_world demo_due_db)) = Success None.
Proof.
  exact (proj1 (deleted_post_is_gone 7 2 (demo_world demo_due_db)
                  (demo_post 2 (Some "2024-01-02T00:00:00.000Z"%string))
                  eq_refl eq_refl)).
Defined.

(** The two outcomes on the table with uploads: post 1 is deleted and its
    file removed; for post 2, whose url ends in [/uploads/.], the answer is
    500 and the row stays. *)
Example delete_photo_demo :
  fst (delete (Some 7) 1 demo_photo_world) = Success None /\
  files (snd (delete (Some 7) 1 demo_photo_world)) = [] /\
  delete (Some 7) 2 demo_photo_world = (Failure 500, demo_photo_world) /\
  deleteImage (Some 7) 2 demo_photo_world = (Failure 500, demo_photo_world).
Proof. repeat split; reflexivity. Qed.

(** X7. When the owner removes the image of a post whose upload, if any, is
    not the uploads directory itself, the post keeps its id, owner, title,
    description, schedule and [sent] flag and has no url any more, the
    upload is removed from the disk and every other post reads as before.
    When the url names the uploads directory, the unlink throws: the answer
    is 500 and nothing has changed. *)
Theorem image_removed_only (r i : Z) (w : World) (post : Post) :
  sql_get i (db w) = Some post ->
  user_id post = SInt r ->
  if jammed post then deleteImage (Some r) i w = (Failure 500, w)
  else
    fst (deleteImage (Some r) i w) = Success None /\
    sql_get i (db (snd (deleteImage (Some r) i w))) =
      Some {| id := id post; user_id := user_id post; title := title post;
              description := description post; url := None;
              scheduledAt := scheduledAt post; sent := sent post |} /\
    (forall j, j <> i ->
       sql_get j (db (snd (deleteImage (Some r) i w))) = sql_get j (db w)) /\
    files (snd (deleteImage (Some r) i w))
    = filter (fun f => negb (names post f)) (files w).
Proof.
  intros H Ho. unfold deleteImage. rewrite (owned_discard r i _ w post H Ho).
  destruct (jammed post); [reflexivity|].
  cbn [fst snd db broadcast set_db set_files files]. unfold sql_clear_url.
  split; [reflexivity|]. split; [|split; [|reflexivity]].
  - etransitivity; [apply update_where_get_same; [reflexivity|exact H]|reflexivity].
  - intros j Hj. apply update_where_get_other; [reflexivity|exact Hj].
Qed.

Lemma image_removed_only_witness :
  fst (deleteImage (Some 7) 2 (demo_world demo_due_db)) = Success None.
Proof.
  exact (proj1 (image_removed_only 7 2 (demo_world demo_due_db)
                  (demo_post 2 (Some "2024-01-02T00:00:00.000Z"%string))
                  eq_refl eq_refl)).
Defined.

(** ** Scheduling *)

(** X8. When the owner schedules a post, the post takes the time of the
    request (NULL when the body carries none) and [sent = 0] and keeps
    everything else; it is then returned by the candidate query exactly at
    those [now] whose text the scheduled text does not come after, byte by
    byte, and never when the body carried no time; the other posts read as
    before. *)
Theorem scheduled_post_is_armed (r i : Z) (at_ : jsval) (w : World) (post : Post) :
  sql_get i (db w) = Some post ->
  user_id post = SInt r ->
  let w' := snd (schedulePost (Some r) i at_ w) in
  let post' := {| id := id post; user_id := user_id post; title := title post;
                  description := description post; url := url post;
                  scheduledAt := bind at_; sent := 0 |} in
  fst (schedulePost (Some r) i at_ w) = Success None /\
  sql_get i (db w') = Some post' /\
  (forall now, In post' (sql_select_due now (db w')) <->
               exists s, at_ = JString s /\ bytewise_le s now) /\
  (forall j, j <> i -> sql_get j (db w') = sql_get j (db w)).
Proof.
  intros H Ho w' post'. subst w'. unfold schedulePost.
  rewrite (owned_accepted false r i _ w post H Ho).
  cbn [fst snd db broadcast set_db]. unfold sql_schedule.
  assert (Hg : sql_get i (update_where i
                 (fun p => {| id := id p; user_id := user_id p; title := title p;
                              description := description p; url := url p;
                              scheduledAt := bind at_; sent := 0 |}) (db w))
               = Some post').
  { etransitivity; [apply update_where_get_same; [reflexivity|exact H]|reflexivity]. }
  split; [reflexivity|]. split; [exact Hg|]. split.
  - intro now. unfold sql_select_due. rewrite filter_In.
    apply sql_get_some in Hg. destruct Hg as [Hin _].
    unfold is_due. cbn [sent scheduledAt post']. cbn [Z.eqb andb].
    destruct at_ as [| |s]; cbn [bind].
    + split; [intros [_ X]; discriminate|intros [s [X _]]; discriminate].
    + split; [intros [_ X]; discriminate|intros [s [X _]]; discriminate].
    + rewrite text_le_iff. split.
      * intros [_ X]. exists s. split; [reflexivity|exact X].
      * intros [s' [X Y]]. inversion X; subst. split; assumption.
  - intros j Hj. apply update_where_get_other; [reflexivity|exact Hj].
Qed.

Lemma scheduled_post_is_armed_witness :
  fst (schedulePost (Some 7) 3 (JString "2024-05-01T00:00:00.000Z")
         (demo_world demo_due_db)) = Success None.
Proof.
  exact (proj1 (scheduled_post_is_armed 7 3 (JString "2024-05-01T00:00:00.000Z")
                  (demo_world demo_due_db) (demo_post 3 None) eq_refl eq_refl)).
Defined.

Example schedule_demo :
  sql_select_due demo_now
    (db (snd (schedulePost (Some 7) 3 (JString "2024-05-01T00:00:00.000Z")
                (demo_world demo_due_db))))
  = [demo_post 1 (Some "2024-01-01T00:00:00.000Z"%string);
     demo_post 2 (Some "2024-01-02T00:00:00.000Z"%string);
     demo_post 3 (Some "2024-05-01T00:00:00.000Z"%string)].
Proof. reflexivity. Qed.

(** X9. Scheduling an unsent draft and then cancelling the schedule gives
    back the table as it was before the two requests. *)
Theorem schedule_then_cancel_restores (r i : Z) (at_ : jsval) (w : World) (post : Post) :
  well_keyed (db w) ->
  sql_get i (db w) = Some post ->
  user_id post = SInt r ->
  scheduledAt post = None ->
  sent post = 0 ->
  let w1 := snd (schedulePost (Some r) i at_ w) in
  fst (cancelSchedule (Some r) i w1) = Success None /\
  db (snd (cancelSchedule (Some r) i w1)) = db w.
Proof.
  intros Hk H Ho Hs Hz w1. subst w1. unfold schedulePost.
  rewrite (owned_accepted false r i _ w post H Ho). cbn [snd].
  assert (Hg : sql_get i (db (broadcast posts_updated
                               (set_db (sql_schedule i (bind at_) (db w)) w)))
               = Some {| id := id post; user_id := user_id post; title := title post;
                         description := description post; url := url post;
                         scheduledAt := bind at_; sent := 0 |}).
  { cbn [db broadcast set_db]. unfold sql_schedule.
    etransitivity; [apply update_where_get_same; [reflexivity|exact H]|reflexivity]. }
  unfold cancelSchedule.
  rewrite (owned_accepted false r i (sql_unschedule i) _ _ Hg Ho).
  cbn [fst snd db broadcast set_db].
  split; [reflexivity|].
  unfold sql_unschedule, sql_schedule, update_where. cbn [rows seq].
  destruct (db w) as [l n] eqn:Edb. cbn [rows seq]. f_equal.
  rewrite map_map. rewrite <- (map_id l) at 2. apply map_ext_in.
  intros p Hp. unfold patch. destruct (id p =? i) eqn:E.
  - cbn [id]. rewrite E. apply Z.eqb_eq in E.
    assert (p = post).
    { apply sql_get_some in H. destruct H as [Hin Hid].
      unfold well_keyed in Hk. cbn [rows] in *.
      apply (in_keyed_eq l); auto. congruence. }
    subst p. destruct post. cbn in *. subst. reflexivity.
  - rewrite E. reflexivity.
Qed.

Lemma schedule_then_cancel_restores_witness :
  db (snd (cancelSchedule (Some 7) 3
             (snd (schedulePost (Some 7) 3 (JString "2024-05-01T00:00:00.000Z")
                     (demo_world demo_due_db)))))
  = demo_due_db.
Proof.
  exact (proj2 (schedule_then_cancel_restores 7 3 (JString "2024-05-01T00:00:00.000Z")
                  (demo_world demo_due_db) (demo_post 3 None)
                  demo_due_db_keyed eq_refl eq_refl eq_refl eq_refl)).
Defined.

(** ** Sending by hand *)

(** What the handler does once the send has resolved. *)
Lemma sendPost_resolved (gw : Gateway) (r i : Z) (w : World) (post : Post)
    (user : UserRow) :
  sql_get i (db w) = Some post ->
  user_id post = SInt r ->
  users_get (user_id post) w = Some user ->
  gw user post = true ->
  let w1 := push_delivery {| origin := Manual; recipient := user; payload := post |} w in
  sendPost gw (Some r) i w =
  if jammed post then (Failure 500, w1)
  else (Success None,
        broadcast posts_updated
          (delete_row i
             (set_files (filter (fun f => negb (names post f)) (files w)) w1))).
Proof.
  intros H Ho Hu Hg w1. unfold sendPost.
  rewrite H, (owner_accepted r post Ho), Hu, Hg. cbv zeta. fold w1.
  destruct (after_send_cases post w w1 eq_refl) as [[J E]|[J E]]; rewrite J, E;
    reflexivity.
Qed.

(** X10. When the owner asks for a stored post to be sent now, scheduled or
    not: without a users row for the owner the answer is 400 and nothing
    happens; when the send throws the answer is 500 and nothing happens, so
    the post stays as it was; when the send resolves the post has been sent
    once, to the owner's channel, and then, unless its url names the uploads
    directory, its row and its upload are gone, the other posts read as
    before and one [posts_updated] is broadcast; when the url names the
    uploads directory the unlink after the send throws, the answer is 500
    and the row stays, the send being the only change. *)
Theorem manual_send_outcomes (gw : Gateway) (r i : Z) (w : World) (post : Post) :
  sql_get i (db w) = Some post ->
  user_id post = SInt r ->
  match users_get (user_id post) w with
  | None => sendPost gw (Some r) i w = (Failure 400, w)
  | Some user =>
      if gw user post then
        if jammed post then
          sendPost gw (Some r) i w =
          (Failure 500,
           push_delivery {| origin := Manual; recipient := user; payload := post |} w)
        else
          let w' := snd (sendPost gw (Some r) i w) in
          fst (sendPost gw (Some r) i w) = Success None /\
          outbox w' = outbox w ++
                      [ {| origin := Manual; recipient := user; payload := post |} ] /\
          sql_get i (db w') = None /\
          (forall j, j <> i -> sql_get j (db w') = sql_get j (db w)) /\
          files w' = filter (fun f => negb (names post f)) (files w) /\
          published w' = published w ++ [posts_updated]
      else sendPost gw (Some r) i w = (Failure 500, w)
  end.
Proof.
  intros H Ho.
  destruct (users_get (user_id post) w) as [user|] eqn:Hu.
  - destruct (gw user post) eqn:Hg.
    + rewrite (sendPost_resolved gw r i w post user H Ho Hu Hg).
      destruct (jammed post); [reflexivity|].
      cbn [fst snd]. unfold delete_row.
      cbn [db broadcast set_db set_files push_delivery outbox published files].
      split; [reflexivity|]. split; [reflexivity|].
      split; [|split; [|split; reflexivity]].
      * apply sql_get_delete_same.
      * intros j Hj. apply sql_get_delete_other. exact Hj.
    + unfold sendPost. rewrite H, (owner_accepted r post Ho), Hu, Hg. reflexivity.
  - unfold sendPost. rewrite H, (owner_accepted r post Ho), Hu. reflexivity.
Qed.

Lemma manual_send_outcomes_witness :
  sendPost demo_gateway (Some 7) 3 (demo_world demo_due_db)
  = (Failure 500, demo_world demo_due_db).
Proof.
  exact (manual_send_outcomes demo_gateway 7 3 (demo_world demo_due_db)
           (demo_post 3 None) eq_refl eq_refl).
Defined.

(** A manual send of the post whose url ends in [/uploads/.], on a
    gateway on which the send resolves: the post is sent, the answer is 500
    and the row is still there, so it can be sent again. *)
Example manual_send_jammed_demo :
  fst (sendPost always (Some 7) 2 demo_photo_world) = Failure 500 /\
  sends_of 2 (snd (sendPost always (Some 7) 2 demo_photo_world)) = 1%nat /\
  db (snd (sendPost always (Some 7) 2 demo_photo_world)) = demo_photo_db.
Proof. repeat split; reflexivity. Qed.

(** ** The whole effect of a tick *)

Lemma filter_pointwise {A : Type} (f g : A -> bool) (l : list A) :
  (forall x, In x l -> f x = g x) -> filter f l = filter g l.
Proof.
  induction l as [|a l IH]; simpl; intro H; [reflexivity|].
  rewrite (H a (or_introl eq_refl)). rewrite IH; [reflexivity|].
  intros x Hx. apply H. right. exact Hx.
Qed.

Lemma filter_twice {A : Type} (f g : A -> bool) (l : list A) :
  filter f (filter g l) = filter (fun x => g x && f x) l.
Proof.
  induction l as [|a l IH]; simpl; [reflexivity|].
  destruct (g a); simpl; [destruct (f a)|]; rewrite IH; reflexivity.
Qed.

Lemma cron_loop_rows_eq (gw : Gateway) (l : list Post) (w : World) :
  rows (db (cron_loop gw l w)) =
  filter (fun p => negb (existsb (fun q => (id q =? id p) && removes gw w q) l))
         (rows (db w)).
Proof.
  revert w. induction l as [|a l IH]; intro w.
  - simpl. symmetry. apply filter_all_id. reflexivity.
  - cbn [cron_loop existsb]. unfold removes at 1, delivers.
    destruct (users_get (user_id a) w) as [u|] eqn:Eu.
    + destruct (loop_body_cases gw a u w) as [G|[[G [J E]]|[G [J E]]]];
        rewrite G; cbv zeta; try rewrite E; rewrite IH, ?J; cbn [negb andb].
      * cbn [db log_error]. apply filter_pointwise. intros p _.
        rewrite andb_false_r. reflexivity.
      * cbn [db log_error push_delivery]. apply filter_pointwise. intros p _.
        rewrite andb_false_r. reflexivity.
      * unfold delete_row.
        cbn [db set_db set_files push_delivery sql_delete fst rows].
        rewrite filter_twice. apply filter_pointwise. intros p _.
        rewrite andb_true_r, negb_orb, (Z.eqb_sym (id a) (id p)). reflexivity.
    + rewrite IH. apply filter_pointwise. intros p _.
      rewrite andb_false_r. reflexivity.
Qed.

Lemma cron_loop_outbox_eq (gw : Gateway) (l : list Post) (w : World) :
  outbox (cron_loop gw l w) = outbox w ++ flat_map (tick_delivery gw w) l.
Proof.
  revert w. induction l as [|a l IH]; intro w.
  - simpl. rewrite app_nil_r. reflexivity.
  - cbn [cron_loop flat_map]. unfold tick_delivery at 1.
    destruct (users_get (user_id a) w) as [u|] eqn:Eu.
    + destruct (loop_body_cases gw a u w) as [G|[[G [J E]]|[G [J E]]]];
        rewrite G; cbv zeta; try rewrite E; rewrite IH.
      * reflexivity.
      * cbn [outbox log_error push_delivery]. rewrite <- app_assoc. reflexivity.
      * cbn [outbox delete_row set_db set_files push_delivery].
        rewrite <- app_assoc. reflexivity.
    + rewrite IH. reflexivity.
Qed.

Lemma cron_loop_errlog_eq (gw : Gateway) (l : list Post) (w : World) :
  errlog (cron_loop gw l w) = errlog w ++ flat_map (tick_failure gw w) l.
Proof.
  revert w. induction l as [|a l IH]; intro w.
  - simpl. rewrite app_nil_r. reflexivity.
  - cbn [cron_loop flat_map]. unfold tick_failure at 1.
    destruct (users_get (user_id a) w) as [u|] eqn:Eu.
    + destruct (loop_body_cases gw a u w) as [G|[[G [J E]]|[G [J E]]]];
        rewrite G; cbv zeta; try rewrite E; rewrite IH, ?J.
      * cbn [errlog log_error]. rewrite <- app_assoc. reflexivity.
      * cbn [errlog log_error push_delivery]. rewrite <- app_assoc. reflexivity.
      * reflexivity.
    + rewrite IH. reflexivity.
Qed.

Lemma cron_loop_files_eq (gw : Gateway) (l : list Post) (w : World) :
  files (cron_loop gw l w) =
  filter (fun f => negb (existsb (fun q => tick_unlinks gw w q f) l)) (files w).
Proof.
  revert w. induction l as [|a l IH]; intro w.
  - simpl. symmetry. apply filter_all_id. reflexivity.
  - cbn [cron_loop existsb]. unfold tick_unlinks at 1, removes, delivers.
    destruct (users_get (user_id a) w) as [u|] eqn:Eu.
    + destruct (loop_body_cases gw a u w) as [G|[[G [J E]]|[G [J E]]]];
        rewrite G; cbv zeta; try rewrite E; rewrite IH, ?J; cbn [negb andb orb].
      * reflexivity.
      * reflexivity.
      * cbn [files delete_row set_db set_files push_delivery].
        rewrite filter_twice. apply filter_pointwise. intros f _.
        rewrite negb_orb. reflexivity.
    + rewrite IH. reflexivity.
Qed.

Lemma due_hit_keyed (gw : Gateway) (now : string) (w : World) (p : Post) :
  well_keyed (db w) -> In p (rows (db w)) ->
  existsb (fun q => (id q =? id p) && removes gw w q) (sql_select_due now (db w))
  = is_due now p && removes gw w p.
Proof.
  intros Hk Hp. apply Bool.eq_iff_eq_true. rewrite existsb_exists, andb_true_iff.
  split.
  - intros [q [Hq Hc]]. apply andb_true_iff in Hc. destruct Hc as [Hid Hd].
    apply Z.eqb_eq in Hid. unfold sql_select_due in Hq. apply filter_In in Hq.
    destruct Hq as [Hq Hdue].
    assert (q = p) by (apply (in_keyed_eq (rows (db w))); auto). subst q. tauto.
  - intros [Hdue Hd]. exists p. split.
    + unfold sql_select_due. apply filter_In. tauto.
    + rewrite Z.eqb_refl. exact Hd.
Qed.

(** X11. A tick removes exactly the posts that were due, whose send
    resolved and whose unlink did not throw after it, leaving every other
    row as it was and in place; it records one send for each due post whose
    send resolved, in table order; it logs the id of each due post whose
    send threw and of each whose unlink threw after the send; it skips due
    posts whose owner has no users row; it removes from the disk the
    uploads of the posts it removes; and it writes neither [users.db] nor
    the AUTOINCREMENT mark. *)
Theorem tick_whole_effect (gw : Gateway) (now : string) (w : World) :
  well_keyed (db w) ->
  let w' := cron_tick gw now w in
  rows (db w') =
    filter (fun p => negb (is_due now p && removes gw w p)) (rows (db w)) /\
  seq (db w') = seq (db w) /\
  outbox w' = outbox w ++ flat_map (tick_delivery gw w) (sql_select_due now (db w)) /\
  errlog w' = errlog w ++ flat_map (tick_failure gw w) (sql_select_due now (db w)) /\
  files w' =
    filter (fun f => negb (existsb (fun q => tick_unlinks gw w q f)
                             (sql_select_due now (db w)))) (files w) /\
  usersDb w' = usersDb w.
Proof.
  intros Hk w'. subst w'. unfold cron_tick.
  rewrite cron_finish_db, cron_finish_outbox, cron_finish_errlog, cron_finish_files.
  split; [|split; [|split; [|split; [|split]]]].
  - rewrite cron_loop_rows_eq. apply filter_pointwise. intros p Hp.
    f_equal. apply due_hit_keyed; assumption.
  - apply (cron_loop_keeps gw (fun w' => seq (db w') = seq (db w))); auto.
  - apply cron_loop_outbox_eq.
  - apply cron_loop_errlog_eq.
  - apply cron_loop_files_eq.
  - destruct (sql_select_due now (db w)); cbn [cron_finish];
      [|cbn [usersDb broadcast]]; apply cron_loop_usersDb.
Qed.

Lemma tick_whole_effect_witness :
  rows (db (cron_tick demo_gateway demo_now (demo_world demo_due_db))) =
  filter (fun p => negb (is_due demo_now p &&
                         removes demo_gateway (demo_world demo_due_db) p))
         (rows demo_due_db).
Proof.
  exact (proj1 (tick_whole_effect demo_gateway demo_now (demo_world demo_due_db)
                  demo_due_db_keyed)).
Defined.

(** A tick over the table with uploads, every send resolving: both posts
    are sent, post 1 and its file are removed, post 2, whose url ends in
    [/uploads/.], stays and its id is logged. *)
Example tick_whole_effect_demo :
  let w' := cron_tick always demo_now demo_photo_world in
  ids (rows (db w')) = [2] /\
  map (fun x => id (payload x)) (outbox w') = [1; 2] /\
  errlog w' = [2] /\ files w' = [].
Proof. repeat split; reflexivity. Qed.

(** ** From a draft to a delivered post *)

Lemma well_keyed_snoc (b : DB) (x : Post) (n : Z) :
  well_keyed b -> ~ In (id x) (ids (rows b)) ->
  well_keyed {| rows := rows b ++ [x]; seq := n |}.
Proof.
  intros Hk Hf. unfold well_keyed, ids. cbn [rows]. rewrite map_app.
  apply NoDup_app; [exact Hk|repeat constructor; simpl; tauto|].
  intros j Hj [<-|[]]. apply Hf. exact Hj.
Qed.

Lemma well_keyed_update (i : Z) (f : Post -> Post) (b : DB) :
  (forall p, id (f p) = id p) -> well_keyed b -> well_keyed (update_where i f b).
Proof. intros Hf Hk. unfold well_keyed. rewrite (update_where_ids i f Hf b). exact Hk. Qed.

Lemma tick_delivery_count (gw : Gateway) (w : World) (k : Z) (l : list Post) :
  List.length (filter (fun x => id (payload x) =? k) (flat_map (tick_delivery gw w) l))
  = List.length (filter (fun q => (id q =? k) && delivers gw w q) l).
Proof.
  induction l as [|a l IH]; [reflexivity|].
  cbn [flat_map filter]. rewrite filter_app, length_app, IH.
  unfold tick_delivery, delivers.
  destruct (users_get (user_id a) w) as [u|].
  - destruct (gw u a); cbn [filter payload]; destruct (id a =? k); reflexivity.
  - rewrite andb_false_r. reflexivity.
Qed.

Lemma one_hit_keyed (f : Post -> bool) (l : list Post) (p : Post) :
  NoDup (ids l) -> In p l -> f p = true ->
  List.length (filter (fun q => (id q =? id p) && f q) l) = 1%nat.
Proof.
  induction l as [|a l IH]; simpl; [tauto|].
  intros Hnd Hin Hf. inversion Hnd as [|? ? Hni Hnd']; subst.
  destruct Hin as [->|Hin].
  - rewrite Z.eqb_refl, Hf. simpl. f_equal.
    rewrite filter_none_id; [reflexivity|].
    intros x Hx. apply andb_false_iff. left. apply Z.eqb_neq. intro E.
    apply Hni. rewrite <- E. apply in_map. exact Hx.
  - destruct (id a =? id p) eqn:E.
    + apply Z.eqb_eq in E. exfalso. apply Hni. rewrite E. apply in_map. exact Hin.
    + simpl. auto.
Qed.

(** X12. A post that a requester creates for itself, its [userId] being
    stored as the requester's integer id, and then schedules under a text
    that does not come after the text of [now] byte by byte is, on a tick at
    [now] on which its send resolves, sent exactly once to the owner's
    channel; the three steps broadcast [posts_updated] once each; the row is
    then gone, unless its url names the uploads directory, in which case the
    unlink after the send throws, the row stays and its id is logged. *)
Theorem draft_scheduled_then_delivered
    (Number_text integer_text : string -> option Z)
    (gw : Gateway) (now s : string) (r : Z) (body : CreateBody) (w : World)
    (t : string) (user : UserRow) :
  well_keyed (db w) ->
  as_integer Number_text (c_userId body) = Some r ->
  owner_param integer_text (c_userId body) r = SInt r ->
  bind (c_title body) = Some t ->
  users_get (SInt r) w = Some user ->
  bytewise_le s now ->
  exists k,
    fst (create Number_text integer_text (Some r) body w) = Success (Some k) /\
    let w1 := snd (create Number_text integer_text (Some r) body w) in
    let w2 := snd (schedulePost (Some r) k (JString s) w1) in
    let w3 := cron_tick gw now w2 in
    let row := {| id := k; user_id := SInt r; title := t;
                  description := bind (c_description body);
                  url := bind (c_url body);
                  scheduledAt := Some s; sent := 0 |} in
    fst (schedulePost (Some r) k (JString s) w1) = Success None /\
    (gw user row = true ->
       sends_of k w3 = S (sends_of k w) /\
       In {| origin := Cron; recipient := user; payload := row |} (outbox w3) /\
       published w3 = published w ++ [posts_updated; posts_updated; posts_updated] /\
       if jammed row
       then sql_get k (db w3) = Some row /\ In k (errlog w3)
       else sql_get k (db w3) = None).
Proof.
  intros Hk Hu Hown Ht Huser Hle. apply text_le_iff in Hle.
  rewrite (create_checked _ _ _ _ _ Hu), Hown, Ht.
  cbn [sql_insert fst snd].
  set (k := Z.max (seq (db w)) (max_id (rows (db w))) + 1).
  set (draft := {| id := k; user_id := SInt r; title := t;
                   description := bind (c_description body);
                   url := bind (c_url body); scheduledAt := None; sent := 0 |}).
  set (d1 := {| rows := rows (db w) ++ [draft]; seq := k |}).
  set (w1 := broadcast posts_updated (set_db d1 w)).
  assert (Hfresh : ~ In k (ids (rows (db w)))).
  { intro H. apply max_id_bound in H. unfold k in H. lia. }
  assert (Hk1 : well_keyed d1) by (apply well_keyed_snoc; assumption).
  assert (Hg1 : sql_get k (db w1) = Some draft).
  { unfold sql_get. cbn [db w1 broadcast set_db d1 rows].
    apply find_snoc_fresh; [exact Hfresh|reflexivity]. }
  exists k. split; [reflexivity|]. cbv zeta. unfold schedulePost.
  rewrite (owned_accepted false r k (sql_schedule k (bind (JString s))) w1 draft
             Hg1 eq_refl).
  cbn [fst snd bind].
  split; [reflexivity|]. intro Hgw.
  set (row := {| id := k; user_id := SInt r; title := t;
                 description := bind (c_description body);
                 url := bind (c_url body); scheduledAt := Some s; sent := 0 |}) in *.
  set (w2 := broadcast posts_updated (set_db (sql_schedule k (Some s) (db w1)) w1)).
  assert (Hg2 : sql_get k (db w2) = Some row).
  { cbn [db w2 broadcast set_db]. unfold sql_schedule.
    etransitivity; [apply update_where_get_same; [reflexivity|exact Hg1]|reflexivity]. }
  assert (Hk2 : well_keyed (db w2)).
  { cbn [db w2 broadcast set_db]. unfold sql_schedule.
    apply well_keyed_update; [reflexivity|exact Hk1]. }
  assert (Hin2 : In row (rows (db w2))) by (apply sql_get_some in Hg2; tauto).
  assert (Hdue : In row (sql_select_due now (db w2))).
  { unfold sql_select_due. apply filter_In. split; [exact Hin2|].
    unfold is_due. cbn [sent scheduledAt row]. exact Hle. }
  assert (Hu2 : users_get (user_id row) w2 = Some user) by exact Huser.
  assert (Hd : delivers gw w2 row = true).
  { unfold delivers. rewrite Hu2. exact Hgw. }
  unfold cron_tick.
  split; [|split; [|split]].
  - unfold sends_of. rewrite cron_finish_outbox, cron_loop_outbox_eq.
    rewrite filter_app, length_app, tick_delivery_count.
    pose proof (one_hit_keyed (delivers gw w2) _ row
                  (ids_filter_NoDup _ _ Hk2) Hdue Hd) as Hone.
    change (id row) with k in Hone. unfold sql_select_due. rewrite Hone.
    cbn [outbox w2 w1 broadcast set_db]. lia.
  - rewrite cron_finish_outbox. apply cron_loop_outbox; assumption.
  - destruct (sql_select_due now (db w2)) as [|a l] eqn:E; [destruct Hdue|].
    cbn [cron_finish broadcast published]. rewrite cron_loop_published.
    cbn [published w2 w1 broadcast set_db]. rewrite <- !app_assoc. reflexivity.
  - destruct (jammed row) eqn:J.
    + split.
      * rewrite cron_finish_db. change k with (id row).
        apply sql_get_in; [apply cron_loop_well_keyed; exact Hk2|].
        apply cron_loop_rows. split; [exact Hin2|].
        intros q Hq Hr Hid.
        assert (q = row).
        { apply (in_keyed_eq (rows (db w2))); auto.
          apply (due_in_table now). exact Hq. }
        subst q. unfold removes in Hr. rewrite J, andb_false_r in Hr. discriminate.
      * rewrite cron_finish_errlog. change k with (id row).
        apply (cron_loop_jammed gw _ w2 row user); assumption.
    + rewrite cron_finish_db. apply sql_get_none. intro H.
      apply in_map_iff in H. destruct H as [x [Hx H]].
      apply cron_loop_rows in H. destruct H as [_ Hall].
      apply (Hall row Hdue); [|cbn [id row]; congruence].
      unfold removes. rewrite Hd, J. reflexivity.
Qed.

Lemma draft_scheduled_then_delivered_witness :
  exists k,
    fst (create demo_number demo_integer_text (Some 7) demo_create
           (demo_world demo_due_db)) = Success (Some k).
Proof.
  destruct (draft_scheduled_then_delivered demo_number demo_integer_text
              always demo_now
              "2024-05-01T00:00:00.000Z"%string 7 demo_create
              (demo_world demo_due_db) ""%string
              {| uid := 7; telegram_token := "t"; channel_id := "c" |}
              demo_due_db_keyed eq_refl eq_refl eq_refl eq_refl
              (proj1 (text_le_iff "2024-05-01T00:00:00.000Z" demo_now) eq_refl))
    as [k [H _]].
  exists k. exact H.
Defined.

Example draft_scheduled_then_delivered_demo :
  sends_of 4
    (cron_tick always demo_now
       (snd (schedulePost (Some 7) 4 (JString "2024-05-01T00:00:00.000Z")
               (snd (create demo_number demo_integer_text (Some 7) demo_create
                       (demo_world demo_due_db))))))
  = 1%nat.
Proof. reflexivity. Qed.

(** * The users table and the requester *)

Lemma find_app_l {A : Type} (f : A -> bool) (l l' : list A) (a : A) :
  find f l = Some a -> find f (l ++ l') = Some a.
Proof.
  induction l as [|x l IH]; simpl; [discriminate|].
  destruct (f x); [trivial|exact IH].
Qed.

Lemma find_app_r {A : Type} (f : A -> bool) (l l' : list A) :
  find f l = None -> find f (l ++ l') = find f l'.
Proof.
  induction l as [|x l IH]; simpl; [reflexivity|].
  destruct (f x); [discriminate|exact IH].
Qed.

Lemma find_map_same {A : Type} (f : A -> bool) (g : A -> A) (l : list A) :
  (forall x, f (g x) = f x) -> find f (map g l) = option_map g (find f l).
Proof.
  intro H. induction l as [|x l IH]; simpl; [reflexivity|].
  rewrite H. destruct (f x); [reflexivity|exact IH].
Qed.

Lemma existsb_false_find {A : Type} (f : A -> bool) (l : list A) :
  existsb f l = false -> find f l = None.
Proof.
  induction l as [|x l IH]; simpl; [reflexivity|].
  destruct (f x); [discriminate|exact IH].
Qed.

Lemma max_account_id_bound (l : list Account) (j : Z) :
  In j (account_ids l) -> j <= max_account_id l.
Proof.
  unfold max_account_id. induction (account_ids l) as [|a t IH]; simpl; [tauto|].
  intros [->|H]; [lia|]. specialize (IH H). lia.
Qed.

Lemma max_account_id_nonneg (l : list Account) : 0 <= max_account_id l.
Proof.
  unfold max_account_id. induction (account_ids l) as [|a t IH]; simpl; lia.
Qed.

Lemma same_account_refl (a : Account) : same_account a a.
Proof. repeat split. Qed.

Lemma same_account_trans (a b c : Account) :
  same_account a b -> same_account b c -> same_account a c.
Proof.
  unfold same_account. intros [H1 [H2 [H3 H4]]] [K1 [K2 [K3 K4]]].
  repeat split; congruence.
Qed.

Section UsersFacts.

Variable J : Type.
Variable stringify : J -> string.
Variable empty_array : J.
Variable bcrypt_hash : string -> string -> string.
Variable Number_text : string -> option Z.
Variable integer_text : string -> option Z.

(** The row a successful registration appends. *)
Lemma register_accepted (salt tok clock : string) (body : RegisterBody)
    (u u' : UsersDB) (k : Z) (tok' : string) :
  register J bcrypt_hash salt tok clock body u = (Registered k tok', u') ->
  exists n pw tg ch,
    rb_username body = JString n /\ rb_password body = JString pw /\
    rb_telegram_token body = JString tg /\ rb_channel_id body = JString ch /\
    tok' = tok /\ 1 <= k /\
    by_username n u = None /\
    find (has_token tok) (accounts u) = None /\
    ~ In k (account_ids (accounts u)) /\
    accounts u' = accounts u ++
      [ {| a_id := k; username := n; password := bcrypt_hash salt pw;
           a_telegram_token := Some tg; a_channel_id := Some ch;
           createdAt := clock; add_images := 1; use_own_posts := 0;
           use_other_channels := 0; channels_list := None; use_sites := 0;
           sites_list := None; auth_token := Some tok |} ].
Proof.
  unfold register.
  destruct (rb_username body) as [| |n]; try discriminate.
  destruct (rb_password body) as [| |pw]; try discriminate.
  destruct (rb_telegram_token body) as [| |tg]; try discriminate.
  destruct (rb_channel_id body) as [| |ch]; try discriminate.
  destruct (_ || _ || _ || _); [discriminate|].
  destruct (by_username n u) eqn:En; [discriminate|].
  unfold users_insert. unfold by_username in En.
  destruct (existsb (fun a => String.eqb (username a) n) (accounts u)
            || existsb (has_token tok) (accounts u)) eqn:Ex; [discriminate|].
  apply orb_false_iff in Ex. destruct Ex as [_ Ex].
  intro H. inversion H; subst; clear H.
  exists n, pw, tg, ch. pose proof (max_account_id_nonneg (accounts u)).
  repeat split; try reflexivity; try lia.
  - exact En.
  - apply existsb_false_find. exact Ex.
  - intro Hin. apply max_account_id_bound in Hin. lia.
Qed.

(** A refused registration writes nothing. *)
Lemma register_refused (salt tok clock : string) (body : RegisterBody)
    (u : UsersDB) (c : Z) :
  fst (register J bcrypt_hash salt tok clock body u) = Refused c ->
  snd (register J bcrypt_hash salt tok clock body u) = u.
Proof.
  unfold register.
  destruct (rb_username body) as [| |n]; try reflexivity.
  destruct (rb_password body) as [| |pw]; try reflexivity.
  destruct (rb_telegram_token body) as [| |tg]; try reflexivity.
  destruct (rb_channel_id body) as [| |ch]; try reflexivity.
  destruct (_ || _ || _ || _); [reflexivity|].
  destruct (by_username n u); [reflexivity|].
  destruct (users_insert _ _ _ _ _ _ _) as [[k u']|]; [discriminate|reflexivity].
Qed.

Lemma register_result (salt tok clock : string) (body : RegisterBody) (u : UsersDB) :
  (exists c, fst (register J bcrypt_hash salt tok clock body u) = Refused c) \/
  (exists k, fst (register J bcrypt_hash salt tok clock body u) = Registered k tok).
Proof.
  unfold register.
  destruct (rb_username body) as [| |n]; try (left; eexists; reflexivity).
  destruct (rb_password body) as [| |pw]; try (left; eexists; reflexivity).
  destruct (rb_telegram_token body) as [| |tg]; try (left; eexists; reflexivity).
  destruct (rb_channel_id body) as [| |ch]; try (left; eexists; reflexivity).
  destruct (_ || _ || _ || _); [left; eexists; reflexivity|].
  destruct (by_username n u); [left; eexists; reflexivity|].
  destruct (users_insert _ _ _ _ _ _ _) as [[k u']|];
    [right|left]; eexists; reflexivity.
Qed.

(** A lookup that only reads what identifies an account keeps finding the
    same account through every later write. *)
Lemma users_step_stable (f : Account -> bool) (u : UsersDB) (op : UserOp J) (a : Account) :
  (forall x y, same_account x y -> f y = f x) ->
  find f (accounts u) = Some a ->
  exists a', find f (accounts (users_step J stringify empty_array bcrypt_hash
                                Number_text integer_text u op))
             = Some a' /\ same_account a a'.
Proof.
  intros Hf Ha. destruct op as [salt tok clock body|r userId body]; cbn [users_step].
  - destruct (register_result salt tok clock body u) as [[c Hc]|[k Hk]].
    + rewrite (register_refused _ _ _ _ _ _ Hc). exists a. split; [exact Ha|].
      apply same_account_refl.
    + destruct (register J bcrypt_hash salt tok clock body u) as [resp u'] eqn:E.
      cbn [fst snd] in *. subst resp.
      destruct (register_accepted _ _ _ _ _ _ _ _ E)
        as [n [pw [tg [ch [_ [_ [_ [_ [_ [_ [_ [_ [_ Hacc]]]]]]]]]]]]].
      rewrite Hacc. exists a. split; [apply find_app_l; exact Ha|].
      apply same_account_refl.
  - unfold putSettings. destruct r as [r|]; [|exists a; split;
      [exact Ha|apply same_account_refl]].
    destruct (Number_text userId) as [n|];
      [|exists a; split; [exact Ha|apply same_account_refl]].
    destruct (negb (n =? r)); [exists a; split; [exact Ha|apply same_account_refl]|].
    cbn [snd]. unfold users_update_text.
    destruct (integer_text userId) as [k|];
      [|exists a; split; [exact Ha|apply same_account_refl]].
    cbn [users_update accounts]. rewrite find_map_same.
    + rewrite Ha. cbn [option_map]. eexists. split; [reflexivity|].
      destruct (a_id a =? k); repeat split.
    + intro x. apply Hf. destruct (a_id x =? k); repeat split.
Qed.

Lemma users_serve_stable (f : Account -> bool) (ops : list (UserOp J))
    (u : UsersDB) (a : Account) :
  (forall x y, same_account x y -> f y = f x) ->
  find f (accounts u) = Some a ->
  exists a', find f (accounts (users_serve J stringify empty_array bcrypt_hash
                                Number_text integer_text ops u))
             = Some a' /\ same_account a a'.
Proof.
  intro Hf. revert u a. induction ops as [|op ops IH]; intros u a Ha.
  - exists a. split; [exact Ha|apply same_account_refl].
  - destruct (users_step_stable f u op a Hf Ha) as [a1 [H1 S1]].
    destruct (IH _ _ H1) as [a2 [H2 S2]].
    exists a2. split; [exact H2|]. eapply same_account_trans; eassumption.
Qed.

Lemma has_token_stable (t : string) (x y : Account) :
  same_account x y -> has_token t y = has_token t x.
Proof. intros [_ [_ [_ H]]]. unfold has_token. rewrite H. reflexivity. Qed.

Lemma username_stable (n : string) (x y : Account) :
  same_account x y -> String.eqb (username y) n = String.eqb (username x) n.
Proof. intros [_ [H _]]. rewrite H. reflexivity. Qed.

End UsersFacts.

(** X13. An account that has been registered can log in with its password
    whatever registrations and settings updates came after it: the login
    answers with the id and the token the registration returned; and a
    password that [bcrypt.compare] rejects is answered 403. *)
Theorem registered_user_can_log_in
    (J : Type) (stringify : J -> string) (empty_array : J)
    (bcrypt_hash : string -> string -> string)
    (bcrypt_compare : string -> string -> bool)
    (Number_text integer_text : string -> option Z)
    (salt tok clock : string) (body : RegisterBody) (u u' : UsersDB) (k : Z)
    (ops : list (UserOp J)) :
  (forall s pw, bcrypt_compare pw (bcrypt_hash s pw) = true) ->
  register J bcrypt_hash salt tok clock body u = (Registered k tok, u') ->
  let u'' := users_serve J stringify empty_array bcrypt_hash Number_text integer_text ops u' in
  (exists tg ch,
      login J bcrypt_compare
        {| lb_username := rb_username body; lb_password := rb_password body |} u''
      = LoggedIn k tg ch (Some tok)) /\
  (forall pw pw',
      rb_password body = JString pw ->
      bcrypt_compare pw' (bcrypt_hash salt pw) = false ->
      login J bcrypt_compare
        {| lb_username := rb_username body; lb_password := JString pw' |} u''
      = Refused 403).
Proof.
  intros Hb Hr u''.
  destruct (register_accepted J bcrypt_hash _ _ _ _ _ _ _ _ Hr)
    as [n [pw [tg [ch [Hn [Hpw [_ [_ [_ [_ [Hnone [_ [_ Hacc]]]]]]]]]]]]].
  assert (H0 : find (fun a => String.eqb (username a) n) (accounts u') =
               Some {| a_id := k; username := n; password := bcrypt_hash salt pw;
                       a_telegram_token := Some tg; a_channel_id := Some ch;
                       createdAt := clock; add_images := 1; use_own_posts := 0;
                       use_other_channels := 0; channels_list := None;
                       use_sites := 0; sites_list := None;
                       auth_token := Some tok |}).
  { rewrite Hacc, find_app_r by exact Hnone. simpl. rewrite String.eqb_refl.
    reflexivity. }
  destruct (users_serve_stable J stringify empty_array bcrypt_hash
              Number_text integer_text _ ops u' _
              (username_stable n) H0) as [a' [Ha' [S1 [S2 [S3 S4]]]]].
  fold u'' in Ha'. cbn [a_id username password auth_token] in *.
  split.
  - exists (a_telegram_token a'), (a_channel_id a').
    unfold login. cbn [lb_username lb_password]. rewrite Hn, Hpw.
    unfold by_username. rewrite Ha', S3, Hb, S1, S4. reflexivity.
  - intros pw0 pw' Hp Hc. rewrite Hpw in Hp. inversion Hp; subst pw0.
    unfold login. cbn [lb_username lb_password]. rewrite Hn.
    unfold by_username. rewrite Ha', S3, Hc. reflexivity.
Qed.

Lemma registered_user_can_log_in_witness :
  exists tg ch,
    login string String.eqb
      {| lb_username := JString "ann"; lb_password := JString "pw" |}
      (snd (register string demo_hash "s" "tok" "now" demo_register empty_users))
    = LoggedIn 1 tg ch (Some "tok"%string).
Proof.
  exact (proj1 (registered_user_can_log_in string demo_stringify ""%string
                  demo_hash String.eqb demo_number demo_integer_text
                  "s" "tok" "now" demo_register
                  empty_users _ 1 [] (fun _ pw => String.eqb_refl pw) eq_refl)).
Defined.

(** X14. The token a registration returns identifies the new account from
    then on: a request that carries it in the [x-auth-token] header is
    taken to come from the id the registration returned, whatever [userId]
    its body, query or other headers name and whatever registrations and
    settings updates came in between. *)
Theorem token_identifies_registered_user
    (J : Type) (stringify : J -> string) (empty_array : J)
    (bcrypt_hash : string -> string -> string)
    (Number_text integer_text : string -> option Z)
    (salt tok clock : string) (body : RegisterBody) (u u' : UsersDB) (k : Z)
    (ops : list (UserOp J)) (req : Req) :
  register J bcrypt_hash salt tok clock body u = (Registered k tok, u') ->
  tok <> ""%string ->
  x_auth_token req = Some tok ->
  getRequesterId Number_text req
    (users_serve J stringify empty_array bcrypt_hash Number_text integer_text ops u') = Some k.
Proof.
  intros Hr Htok Hx.
  destruct (register_accepted J bcrypt_hash _ _ _ _ _ _ _ _ Hr)
    as [n [pw [tg [ch [_ [_ [_ [_ [_ [Hk [_ [Hnone [_ Hacc]]]]]]]]]]]]].
  assert (Ht : String.eqb tok "" = false) by (apply String.eqb_neq; exact Htok).
  assert (H0 : find (has_token tok) (accounts u') =
               Some {| a_id := k; username := n; password := bcrypt_hash salt pw;
                       a_telegram_token := Some tg; a_channel_id := Some ch;
                       createdAt := clock; add_images := 1; use_own_posts := 0;
                       use_other_channels := 0; channels_list := None;
                       use_sites := 0; sites_list := None;
                       auth_token := Some tok |}).
  { rewrite Hacc, find_app_r by exact Hnone. unfold has_token. simpl.
    rewrite String.eqb_refl. reflexivity. }
  destruct (users_serve_stable J stringify empty_array bcrypt_hash
              Number_text integer_text _ ops u' _
              (has_token_stable tok) H0) as [a' [Ha' [S1 _]]].
  cbn [a_id] in S1.
  assert (Htr : truthy_text (JString tok) = true)
    by (cbn [truthy_text]; rewrite Ht; reflexivity).
  assert (Hto : token_of req = JString tok).
  { unfold token_of. rewrite Hx. cbn [header]. unfold or_else.
    repeat rewrite Htr. reflexivity. }
  unfold getRequesterId. rewrite Hto, Ht. cbn [negb].
  unfold by_token. rewrite Ha', S1.
  destruct (k =? 0) eqn:E; [apply Z.eqb_eq in E; lia|reflexivity].
Qed.

Lemma token_identifies_registered_user_witness :
  getRequesterId demo_number (demo_request (Some "tok"%string) (VInt 99))
    (snd (register string demo_hash "s" "tok" "now" demo_register empty_users))
  = Some 1.
Proof.
  refine (token_identifies_registered_user string demo_stringify ""%string
            demo_hash demo_number demo_integer_text "s" "tok" "now" demo_register
            empty_users _ 1 [] (demo_request (Some "tok"%string) (VInt 99))
            eq_refl _ eq_refl).
  discriminate.
Defined.

(** X15. A request whose token is missing or belongs to no account is taken
    to come from whatever integer its body gives as [userId]; such a
    request therefore passes the ownership check of every post of that
    user. *)
Theorem userId_alone_passes_for_owner
    (Number_text : string -> option Z) (req : Req) (u : UsersDB) (post : Post)
    (k : Z) :
  (forall t, token_of req = JString t -> by_token t u = None) ->
  user_id post = SInt k ->
  body_userId req = VInt k ->
  getRequesterId Number_text req u = Some k /\
  verifyOwnershipOrReject post (getRequesterId Number_text req u) = None.
Proof.
  intros Hno Ho Hb.
  assert (Hl : legacy_id Number_text req = Some k).
  { unfold legacy_id. rewrite Hb. reflexivity. }
  assert (Hg : getRequesterId Number_text req u = Some k).
  { unfold getRequesterId. destruct (token_of req) as [| |t] eqn:Et; try exact Hl.
    destruct (negb (String.eqb t "")); [|exact Hl].
    rewrite (Hno t eq_refl). exact Hl. }
  split; [exact Hg|]. rewrite Hg. apply owner_accepted. exact Ho.
Qed.

Lemma userId_alone_passes_for_owner_witness :
  getRequesterId demo_number (demo_request None (VInt 7)) empty_users = Some 7.
Proof.
  refine (proj1 (userId_alone_passes_for_owner demo_number
                   (demo_request None (VInt 7)) empty_users (demo_post 1 None) 7
                   _ eq_refl eq_refl)).
  intros t H. discriminate H.
Defined.

Lemma NoDup_snoc {A : Type} (l : list A) (x : A) :
  NoDup l -> ~ In x l -> NoDup (l ++ [x]).
Proof.
  intros Hn Hx. apply NoDup_app; [exact Hn|repeat constructor; simpl; tauto|].
  intros a Ha [<-|[]]. exact (Hx Ha).
Qed.

Lemma users_inv_step
    (J : Type) (stringify : J -> string) (empty_array : J)
    (bcrypt_hash : string -> string -> string)
    (Number_text integer_text : string -> option Z) (u : UsersDB) (op : UserOp J) :
  users_inv u ->
  users_inv (users_step J stringify empty_array bcrypt_hash Number_text integer_text
               u op).
Proof.
  intros [Hid [Hname Htok]]. destruct op as [salt tok clock body|r userId body];
    cbn [users_step].
  - destruct (register_result J bcrypt_hash salt tok clock body u) as [[c Hc]|[k Hk]].
    + rewrite (register_refused _ _ _ _ _ _ _ _ Hc). repeat split; assumption.
    + destruct (register J bcrypt_hash salt tok clock body u) as [resp u'] eqn:E.
      cbn [fst snd] in *. subst resp.
      destruct (register_accepted _ _ _ _ _ _ _ _ _ _ E)
        as [n [pw [tg [ch [_ [_ [_ [_ [_ [_ [Hn [Ht [Hk Hacc]]]]]]]]]]]]].
      unfold users_inv, account_ids. rewrite Hacc, !map_app. cbn [map a_id username].
      split; [|split].
      * apply NoDup_snoc; assumption.
      * apply NoDup_snoc; [exact Hname|]. intro Hin. apply in_map_iff in Hin.
        destruct Hin as [x [Hx Hin]]. unfold by_username in Hn.
        pose proof (find_none _ _ Hn x Hin) as Hf. cbn in Hf.
        rewrite Hx, String.eqb_refl in Hf. discriminate.
      * intros a b t Ha Hb Hta Htb.
        apply in_app_iff in Ha. apply in_app_iff in Hb.
        destruct Ha as [Ha|[<-|[]]], Hb as [Hb|[<-|[]]].
        -- eapply Htok; eassumption.
        -- cbn [auth_token] in Htb. inversion Htb; subst t.
           pose proof (find_none _ _ Ht a Ha) as Hf. unfold has_token in Hf.
           rewrite Hta, String.eqb_refl in Hf. discriminate.
        -- cbn [auth_token] in Hta. inversion Hta; subst t.
           pose proof (find_none _ _ Ht b Hb) as Hf. unfold has_token in Hf.
           rewrite Htb, String.eqb_refl in Hf. discriminate.
        -- reflexivity.
  - unfold putSettings. destruct r as [r|]; [|repeat split; assumption].
    destruct (Number_text userId) as [n|]; [|repeat split; assumption].
    destruct (negb (n =? r)); [repeat split; assumption|].
    cbn [snd]. unfold users_update_text.
    destruct (integer_text userId) as [k|]; [|repeat split; assumption].
    unfold users_inv, users_update, account_ids. cbn [accounts].
    rewrite !map_map. split; [|split].
    + erewrite map_ext; [exact Hid|]. intro a. destruct (a_id a =? k); reflexivity.
    + erewrite map_ext; [exact Hname|]. intro a. destruct (a_id a =? k); reflexivity.
    + intros a b t Ha Hb Hta Htb.
      apply in_map_iff in Ha. destruct Ha as [x [<- Hx]].
      apply in_map_iff in Hb. destruct Hb as [y [<- Hy]].
      assert (x = y).
      { apply (Htok x y t Hx Hy).
        - destruct (a_id x =? k); exact Hta.
        - destruct (a_id y =? k); exact Htb. }
      subst y. reflexivity.
Qed.

(** X16. The users table never holds two accounts with the same id, the
    same username or the same token, whatever registrations and settings
    updates it has seen; a registration under a username that is taken is
    refused with 400 and writes nothing. *)
Theorem users_keys_stay_unique
    (J : Type) (stringify : J -> string) (empty_array : J)
    (bcrypt_hash : string -> string -> string)
    (Number_text integer_text : string -> option Z) :
  (forall (u : UsersDB) (op : UserOp J),
      users_inv u ->
      users_inv (users_step J stringify empty_array bcrypt_hash
                   Number_text integer_text u op)) /\
  (forall ops : list (UserOp J),
      users_inv (users_serve J stringify empty_array bcrypt_hash
                   Number_text integer_text ops empty_users)) /\
  (forall salt tok clock body u a,
      In a (accounts u) -> rb_username body = JString (username a) ->
      register J bcrypt_hash salt tok clock body u = (Refused 400, u)).
Proof.
  split; [apply users_inv_step|]. split.
  - assert (H : forall ops u, users_inv u ->
               users_inv (users_serve J stringify empty_array bcrypt_hash
                            Number_text integer_text ops u)).
    { induction ops as [|op ops IH]; intros u Hu; [exact Hu|].
      apply IH. apply users_inv_step. exact Hu. }
    intro ops. apply H. repeat split; try constructor. intros a b t [].
  - intros salt tok clock body u a Hin Hn. unfold register. rewrite Hn.
    destruct (rb_password body) as [| |pw]; try reflexivity.
    destruct (rb_telegram_token body) as [| |tg]; try reflexivity.
    destruct (rb_channel_id body) as [| |ch]; try reflexivity.
    destruct (_ || _ || _ || _); [reflexivity|].
    destruct (by_username (username a) u) eqn:E; [reflexivity|].
    unfold by_username in E. pose proof (find_none _ _ E a Hin) as Hf.
    cbn in Hf. rewrite String.eqb_refl in Hf. discriminate.
Qed.

(** ** Settings *)

Lemma flag_truthy (v : json) : negb (flag v =? 0) = truthy v.
Proof. unfold flag. destruct (truthy v); reflexivity. Qed.

(** X17. A [PUT /settings/:userId] by the account the path names is
    answered with success, and the UPDATE goes by the path text as the [id]
    column reads it.  When that is an integer, the settings of that account
    then read back as saved: each flag as the truth value of what was sent,
    each list as the value sent (the empty array when none was), the
    channel id and bot token as sent, or as they were when the request gave
    none or an empty one, the username as it was; the other accounts are
    untouched.  When the column keeps the path text as a text, no row is
    written, and the [GET] under the same path answers 404. *)
Theorem settings_read_back
    (J : Type) (stringify : J -> string) (parse : string -> option J)
    (empty_array : J) (Number_text integer_text : string -> option Z)
    (k : Z) (t : string) (body : SettingsBody J) (u : UsersDB) :
  (forall v, parse (stringify v) = Some v) ->
  (forall v, stringify v <> ""%string) ->
  Number_text t = Some k ->
  let put := putSettings J stringify empty_array Number_text integer_text
               (Some k) t body u in
  let get := getSettings J parse empty_array Number_text integer_text
               (Some k) t (snd put) in
  fst put = Updated /\
  match integer_text t with
  | Some j =>
      (forall a, by_id j u = Some a ->
         get =
         SettingsOf (username a)
           (coalesce (or_null (s_telegram_token J body)) (a_telegram_token a))
           (coalesce (or_null (s_channel_id J body)) (a_channel_id a))
           (truthy (s_add_images J body))
           (truthy (s_use_own_posts J body))
           (truthy (s_use_other_channels J body))
           (match s_channels_list J body with Some v => v | None => empty_array end)
           (truthy (s_use_sites J body))
           (match s_sites_list J body with Some v => v | None => empty_array end)) /\
      (by_id j u = None -> get = Refused 404) /\
      (forall j', j' <> j -> by_id j' (snd put) = by_id j' u)
  | None => snd put = u /\ get = Refused 404
  end.
Proof.
  intros Hp Hs Hn put get. subst get put. unfold putSettings, getSettings.
  rewrite Hn, Z.eqb_refl. cbn [negb fst snd].
  split; [reflexivity|]. unfold users_update_text, by_id_text.
  destruct (integer_text t) as [j|]; [|split; reflexivity].
  assert (Hfind : by_id j (users_update J stringify empty_array j body u) =
                  option_map
                    (fun a =>
                       {| a_id := a_id a; username := username a; password := password a;
                          a_telegram_token :=
                            coalesce (or_null (s_telegram_token J body))
                                     (a_telegram_token a);
                          a_channel_id :=
                            coalesce (or_null (s_channel_id J body)) (a_channel_id a);
                          createdAt := createdAt a;
                          add_images := flag (s_add_images J body);
                          use_own_posts := flag (s_use_own_posts J body);
                          use_other_channels := flag (s_use_other_channels J body);
                          channels_list :=
                            Some (list_text J stringify empty_array
                                    (s_channels_list J body));
                          use_sites := flag (s_use_sites J body);
                          sites_list :=
                            Some (list_text J stringify empty_array
                                    (s_sites_list J body));
                          auth_token := auth_token a |})
                    (by_id j u)).
  { unfold by_id, users_update. cbn [accounts]. rewrite find_map_same.
    - destruct (find (fun a => a_id a =? j) (accounts u)) as [a|] eqn:Ha;
        [|reflexivity].
      cbn [option_map]. apply find_some in Ha. destruct Ha as [_ E]. rewrite E.
      reflexivity.
    - intro x. destruct (a_id x =? j) eqn:E; cbn [a_id]; rewrite ?E; reflexivity. }
  split; [|split].
  - intros a Ha. rewrite Hfind, Ha. cbn [option_map].
    cbn [channels_list sites_list username a_telegram_token
         a_channel_id add_images use_own_posts use_other_channels use_sites].
    assert (Hl : forall o, list_value J parse empty_array
                             (Some (list_text J stringify empty_array o))
                           = Some (match o with Some v => v | None => empty_array end)).
    { intro o. unfold list_value, list_text.
      destruct o as [v|].
      - destruct (String.eqb (stringify v) "") eqn:E;
          [apply String.eqb_eq in E; elim (Hs v E)|apply Hp].
      - destruct (String.eqb (stringify empty_array) "") eqn:E;
          [reflexivity|apply Hp]. }
    rewrite !Hl, !flag_truthy. reflexivity.
  - intro Ha. rewrite Hfind, Ha. reflexivity.
  - intros j' Hj. unfold by_id, users_update. cbn [accounts]. rewrite find_map_same.
    + destruct (find (fun a0 => a_id a0 =? j') (accounts u)) as [x|] eqn:E;
        [|reflexivity].
      cbn [option_map]. apply find_some in E. destruct E as [_ E].
      apply Z.eqb_eq in E. destruct (a_id x =? j) eqn:E2; [|reflexivity].
      apply Z.eqb_eq in E2. congruence.
    + intro x. destruct (a_id x =? j); reflexivity.
Qed.

Lemma settings_read_back_witness :
  fst (putSettings string demo_stringify ""%string demo_number demo_integer_text
         (Some 1) "1" demo_settings
         (snd (register string demo_hash "s" "tok" "now" demo_register empty_users)))
  = Updated.
Proof.
  refine (proj1 (settings_read_back string demo_stringify demo_parse ""%string
                   demo_number demo_integer_text 1 "1"
                   demo_settings
                   (snd (register string demo_hash "s" "tok" "now" demo_register
                           empty_users))
                   (fun v => eq_refl) _ eq_refl)).
  intros v H. discriminate H.
Defined.

Example settings_demo :
  getSettings string demo_parse ""%string demo_number demo_integer_text (Some 1) "1"
    (snd (putSettings string demo_stringify ""%string demo_number demo_integer_text
            (Some 1) "1" demo_settings
            (snd (register string demo_hash "s" "tok" "now" demo_register
                    empty_users))))
  = SettingsOf "ann" (Some "t2"%string) (Some "c"%string)
               false true false "a"%string true ""%string.
Proof. reflexivity. Qed.

(** Account 7 saving its settings under the path [0x7]: the check on
    [Number("0x7")] passes, the UPDATE matches no row and the answer is
    success all the same; the GET under the same path answers 404. *)
Example settings_text_path :
  let u := {| accounts :=
                [ {| a_id := 7; username := "ann"; password := "pw";
                     a_telegram_token := Some "t"%string;
                     a_channel_id := Some "c"%string; createdAt := "now";
                     add_images := 1; use_own_posts := 0; use_other_channels := 0;
                     channels_list := None; use_sites := 0; sites_list := None;
                     auth_token := Some "tok"%string |} ];
              users_seq := 7 |} in
  putSettings string demo_stringify ""%string demo_number demo_integer_text
    (Some 7) "0x7" demo_settings u = (Updated, u) /\
  getSettings string demo_parse ""%string demo_number demo_integer_text
    (Some 7) "0x7" u = Refused 404.
Proof. split; reflexivity. Qed.

(** * Sockets and broadcasts *)

Lemma discard_shape (discard : bool) (post : Post) (w w1 : World) :
  (if discard then discard_upload post w else Some w) = Some w1 ->
  exists fs, w1 = set_files fs w.
Proof.
  destruct discard; intro H.
  - apply discard_upload_some in H. eexists. exact H.
  - inversion H; subst w1. exists (files w). symmetry. apply set_files_same.
Qed.

(** Reasoning across a request or a tick: a property of the process that
    each of the writes of [posts.js] keeps is kept by every route and by
    the tick. *)
Section RequestFrame.

Variable Number_text : string -> option Z.
Variable integer_text : string -> option Z.
Variable Q : World -> Prop.

Hypothesis Q_send : forall x w, Q w -> Q (push_delivery x w).
Hypothesis Q_files : forall fs w, Q w -> Q (set_files fs w).
Hypothesis Q_db : forall d w, Q w -> Q (set_db d w).
Hypothesis Q_broadcast : forall w, Q w -> Q (broadcast posts_updated w).
Hypothesis Q_log : forall i w, Q w -> Q (log_error i w).

Lemma owned_frame (discard : bool) (r : Requester) (i : Z) (stmt : DB -> DB)
    (w : World) :
  Q w -> Q (snd (owned discard r i stmt w)).
Proof.
  intro H. unfold owned. destruct (sql_get i (db w)) as [p|]; [|exact H].
  destruct (verifyOwnershipOrReject p r); [exact H|].
  destruct (if discard then _ else _) as [w1|] eqn:E; [|exact H].
  destruct (discard_shape _ _ _ _ E) as [fs ->].
  cbn [snd]. apply Q_broadcast, Q_db, Q_files, H.
Qed.

Lemma cron_tick_frame (gw : Gateway) (now : string) (w : World) :
  Q w -> Q (cron_tick gw now w).
Proof.
  intro H. unfold cron_tick.
  assert (Hl : Q (cron_loop gw (sql_select_due now (db w)) w)).
  { apply (cron_loop_keeps gw Q); auto.
    intros i w' H'. unfold delete_row. apply Q_db. exact H'. }
  destruct (sql_select_due now (db w)); cbn [cron_finish]; auto.
Qed.

Lemma handle_request_frame (w : World) (q : Request) :
  (forall us cs fs, q <> Outside us cs fs) ->
  Q w -> Q (handle_request Number_text integer_text w q).
Proof.
  intros Hq H. destruct q; cbn [handle_request].
  - unfold create. destruct r as [r|]; [|exact H].
    destruct (as_integer Number_text (c_userId body)) as [k|]; [|exact H].
    destruct (negb (k =? r)); [exact H|].
    destruct (sql_insert _ _ _ _ _) as [[j b']|]; [|exact H].
    cbn [snd]. apply Q_broadcast, Q_db, H.
  - unfold update. destruct (sql_get i (db w)) as [p|]; [|exact H].
    destruct (verifyOwnershipOrReject p r); [exact H|].
    destruct (if replaces_url _ _ then _ else _) as [w1|] eqn:E; [|exact H].
    destruct (discard_shape _ _ _ _ E) as [fs ->].
    cbn [snd]. apply Q_broadcast, Q_db, Q_files, H.
  - apply owned_frame. exact H.
  - apply owned_frame. exact H.
  - apply owned_frame. exact H.
  - apply owned_frame. exact H.
  - unfold sendPost. destruct (sql_get i (db w)) as [p|]; [|exact H].
    destruct (verifyOwnershipOrReject p r); [exact H|].
    destruct (users_get (user_id p) w) as [u|]; [|exact H].
    destruct (gw u p); [|exact H]. cbv zeta.
    destruct (after_send _ _) as [w2|] eqn:E.
    + apply after_send_some in E. destruct E as [fs ->].
      cbn [snd]. unfold delete_row. apply Q_broadcast, Q_db, Q_files, Q_send, H.
    + cbn [snd]. apply Q_send, H.
  - apply cron_tick_frame. exact H.
  - exfalso. exact (Hq us cs fs eq_refl).
Qed.

End RequestFrame.

Lemma inbox_broadcast_absent (h : nat) (m : Message) (w : World) :
  ~ In h (map handle (clients w)) -> inbox h (broadcast m w) = inbox h w.
Proof.
  intro H. unfold inbox, broadcast. cbn [wire]. rewrite filter_app.
  rewrite (filter_none_id _ (map _ _)); [apply app_nil_r|].
  intros x Hx. apply in_map_iff in Hx. destruct Hx as [c [<- Hc]].
  apply filter_In in Hc. destruct Hc as [Hc _]. cbn [fst].
  apply Nat.eqb_neq. intro E. apply H. rewrite <- E. apply in_map. exact Hc.
Qed.

(** A request or a tick sends nothing to a socket that is not in the Set,
    and, unless it comes from outside, leaves the Set as it is. *)
Lemma handle_request_absent (Number_text integer_text : string -> option Z)
    (h : nat) (w : World) (q : Request) :
  stays_away h (EvRequest q) ->
  ~ In h (map handle (clients w)) ->
  ~ In h (map handle (clients (handle_request Number_text integer_text w q))) /\
  inbox h (handle_request Number_text integer_text w q) = inbox h w.
Proof.
  intros Hq H.
  destruct q as [r body|r i body|r i|r i|r i at_|r i|gw r i|gw now|us cs fs];
    try (apply (handle_request_frame Number_text integer_text
                  (fun w' => ~ In h (map handle (clients w')) /\
                             inbox h w' = inbox h w));
         [intros x w' Hw'; exact Hw'
         |intros fs w' Hw'; exact Hw'
         |intros d w' Hw'; exact Hw'
         |intros w' [H1 H2]; split;
            [exact H1|rewrite (inbox_broadcast_absent h _ w' H1); exact H2]
         |intros j w' Hw'; exact Hw'
         |intros us cs fs; discriminate
         |split; [exact H|reflexivity]]).
  cbn [handle_request clients]. split; [exact Hq|reflexivity].
Qed.

(** X18. Once a socket has closed it is sent nothing more: whatever
    requests, ticks, connections of other sockets and state changes follow,
    its inbox stays as it was at the close. *)
Theorem closed_socket_hears_nothing
    (Number_text integer_text : string -> option Z)
    (h : nat) (w : World) (es : list Event) :
  Forall (stays_away h) es ->
  inbox h (play Number_text integer_text es (on_close h w)) = inbox h w.
Proof.
  intro Hes.
  assert (Hgen : forall es w', Forall (stays_away h) es ->
                   ~ In h (map handle (clients w')) ->
                   inbox h (play Number_text integer_text es w') = inbox h w').
  { clear es Hes. induction es as [|e es IH]; intros w' Hq Hw'; [reflexivity|].
    inversion Hq as [|? ? He Hq']; subst. cbn [play fold_left].
    change (fold_left (play_event Number_text integer_text) es
              (play_event Number_text integer_text w' e))
      with (play Number_text integer_text es
              (play_event Number_text integer_text w' e)).
    assert (Hstep : ~ In h (map handle
                              (clients (play_event Number_text integer_text w' e))) /\
                    inbox h (play_event Number_text integer_text w' e) = inbox h w').
    { destruct e as [h'|h'|h' st|q]; cbn [play_event].
      - unfold on_connection.
        destruct (existsb _ (clients w')); [split; [exact Hw'|reflexivity]|].
        cbn [clients set_clients]. split; [|reflexivity].
        rewrite map_app. intro Hin. apply in_app_iff in Hin.
        destruct Hin as [Hin|[Hin|[]]]; [exact (Hw' Hin)|].
        cbn in Hin. exact (He Hin).
      - cbn [clients on_close set_clients]. split; [|reflexivity].
        intro Hin. apply in_map_iff in Hin. destruct Hin as [c [Hc Hin]].
        apply filter_In in Hin. apply Hw'. apply in_map_iff. exists c. tauto.
      - cbn [clients on_state set_clients]. split; [|reflexivity].
        rewrite map_map. intro Hin. apply in_map_iff in Hin.
        destruct Hin as [c [Hc Hin]]. apply Hw'. apply in_map_iff. exists c.
        split; [|exact Hin]. destruct (Nat.eqb (handle c) h'); exact Hc.
      - apply handle_request_absent; assumption. }
    destruct Hstep as [H1 H2]. rewrite (IH _ Hq' H1). exact H2. }
  rewrite Hgen; [reflexivity|exact Hes|].
  cbn [clients on_close set_clients]. intro Hin. apply in_map_iff in Hin.
  destruct Hin as [c [Hc Hin]]. apply filter_In in Hin. destruct Hin as [_ Hin].
  apply negb_true_iff, Nat.eqb_neq in Hin. exact (Hin Hc).
Qed.

Lemma closed_socket_hears_nothing_witness :
  inbox 0 (play demo_number demo_integer_text
             [EvRequest (ReqCreate (Some 7) demo_create); EvConnect 1;
              EvRequest (Tick always demo_now)]
             (on_close 0 (demo_world demo_due_db)))
  = inbox 0 (demo_world demo_due_db).
Proof.
  refine (closed_socket_hears_nothing demo_number demo_integer_text
            0 (demo_world demo_due_db) _ _).
  repeat constructor. discriminate.
Defined.

(** X19. One call of [broadcast] sends its message exactly once to a socket
    that is in the Set and open, and not at all to any other socket. *)
Theorem broadcast_reaches_listeners (h : nat) (m : Message) (w : World) :
  NoDup (map handle (clients w)) ->
  inbox h (broadcast m w) =
  inbox h w ++ (if listening h w then [(h, m)] else []).
Proof.
  intro Hn. unfold inbox, broadcast, listening. cbn [wire]. rewrite filter_app.
  f_equal. induction (clients w) as [|c l IH]; [reflexivity|].
  cbn [map] in Hn. inversion Hn as [|? ? Hni Hn']; subst.
  cbn [filter existsb]. destruct (Nat.eqb (handle c) h) eqn:Eh.
  - apply Nat.eqb_eq in Eh.
    assert (Hrest : forall f, filter (fun x : nat * Message => Nat.eqb (fst x) h)
                       (map (fun c0 => (handle c0, m)) (filter f l)) = []).
    { intro f. apply filter_none_id. intros x Hx. apply in_map_iff in Hx.
      destruct Hx as [c0 [<- Hc0]]. apply filter_In in Hc0. cbn [fst].
      apply Nat.eqb_neq. intro E. apply Hni. rewrite Eh, <- E. apply in_map. tauto. }
    destruct (readyState c =? 1); cbn [andb orb map filter fst].
    + rewrite Eh, Nat.eqb_refl, Hrest. reflexivity.
    + rewrite Hrest.
      destruct (existsb _ l) eqn:Ex; [|reflexivity].
      apply existsb_exists in Ex. destruct Ex as [c0 [Hc0 Hx]].
      apply andb_true_iff in Hx. destruct Hx as [Hx _]. apply Nat.eqb_eq in Hx.
      exfalso. apply Hni. rewrite Eh, <- Hx. apply in_map. exact Hc0.
  - cbn [andb orb]. destruct (readyState c =? 1); cbn [map filter fst].
    + rewrite Eh. apply IH. exact Hn'.
    + apply IH. exact Hn'.
Qed.

Lemma broadcast_reaches_listeners_witness :
  inbox 0 (broadcast posts_updated (demo_world demo_due_db)) = [(0%nat, posts_updated)].
Proof.
  refine (broadcast_reaches_listeners 0 posts_updated (demo_world demo_due_db) _).
  repeat constructor. simpl. tauto.
Defined.

(** ** No change of the table goes unannounced *)

Lemma owned_announced (discard : bool) (r : Requester) (i : Z) (stmt : DB -> DB)
    (w : World) :
  snd (owned discard r i stmt w) = w \/
  published (snd (owned discard r i stmt w)) = published w ++ [posts_updated].
Proof.
  unfold owned. destruct (sql_get i (db w)) as [p|]; [|left; reflexivity].
  destruct (verifyOwnershipOrReject p r); [left; reflexivity|].
  destruct (if discard then _ else _) as [w1|] eqn:E; [|left; reflexivity].
  destruct (discard_shape _ _ _ _ E) as [fs ->]. right. reflexivity.
Qed.

Lemma sendPost_announced (gw : Gateway) (r : Requester) (i : Z) (w : World) :
  snd (sendPost gw r i w) = w \/
  (exists p,
     sql_get i (db w) = Some p /\ jammed p = true /\
     fst (sendPost gw r i w) = Failure 500 /\
     db (snd (sendPost gw r i w)) = db w /\
     published (snd (sendPost gw r i w)) = published w /\
     sends_of i (snd (sendPost gw r i w)) = S (sends_of i w)) \/
  published (snd (sendPost gw r i w)) = published w ++ [posts_updated].
Proof.
  unfold sendPost. destruct (sql_get i (db w)) as [p|] eqn:Hget; [|left; reflexivity].
  destruct (verifyOwnershipOrReject p r); [left; reflexivity|].
  destruct (users_get (user_id p) w) as [u|]; [|left; reflexivity].
  destruct (gw u p); [|left; reflexivity]. cbv zeta.
  destruct (after_send_cases p w
              (push_delivery {| origin := Manual; recipient := u; payload := p |} w)
              eq_refl) as [[J E]|[J E]]; rewrite E; right.
  - left. exists p. cbn [fst snd]. repeat split; try reflexivity; try exact J.
    rewrite sends_of_push. cbn [payload].
    apply sql_get_some in Hget. destruct Hget as [_ ->].
    rewrite Z.eqb_refl. lia.
  - right. reflexivity.
Qed.

(** X20. A request or a tick either broadcasts [posts_updated] exactly
    once, or leaves the table as it was and broadcasts nothing; in the
    second case the bot's sends are as they were too, but for a manual send
    of a post whose url names the uploads directory: there the post is sent,
    the unlink throws and the answer is 500. *)
Theorem every_change_is_broadcast
    (Number_text integer_text : string -> option Z) (w : World) (q : Request) :
  let w' := handle_request Number_text integer_text w q in
  (db w' = db w /\ published w' = published w /\
   (outbox w' = outbox w \/
    exists gw r i p,
      q = ReqSend gw r i /\ sql_get i (db w) = Some p /\ jammed p = true /\
      answer Number_text integer_text w q = Some (Failure 500) /\
      sends_of i w' = S (sends_of i w))) \/
  published w' = published w ++ [posts_updated].
Proof.
  cbv zeta. destruct q; cbn [handle_request].
  - unfold create. destruct r as [r|]; [|left; repeat split; left; reflexivity].
    destruct (as_integer Number_text (c_userId body)) as [k|];
      [|left; repeat split; left; reflexivity].
    destruct (negb (k =? r)); [left; repeat split; left; reflexivity|].
    destruct (sql_insert _ _ _ _ _) as [[j b']|];
      [right; reflexivity|left; repeat split; left; reflexivity].
  - unfold update. destruct (sql_get i (db w)) as [p|];
      [|left; repeat split; left; reflexivity].
    destruct (verifyOwnershipOrReject p r); [left; repeat split; left; reflexivity|].
    destruct (if replaces_url _ _ then _ else _) as [w1|] eqn:E;
      [|left; repeat split; left; reflexivity].
    destruct (discard_shape _ _ _ _ E) as [fs ->]. right. reflexivity.
  - destruct (owned_announced true r i (fun d => fst (sql_delete i d)) w) as [E|E];
      [left; unfold delete; rewrite E; repeat split; left; reflexivity|right; exact E].
  - destruct (owned_announced true r i (sql_clear_url i) w) as [E|E];
      [left; unfold deleteImage; rewrite E; repeat split; left; reflexivity
      |right; exact E].
  - destruct (owned_announced false r i (sql_schedule i (bind at_)) w) as [E|E];
      [left; unfold schedulePost; rewrite E; repeat split; left; reflexivity
      |right; exact E].
  - destruct (owned_announced false r i (sql_unschedule i) w) as [E|E];
      [left; unfold cancelSchedule; rewrite E; repeat split; left; reflexivity
      |right; exact E].
  - destruct (sendPost_announced gw r i w)
      as [E|[[p [H1 [H2 [H3 [H4 [H5 H6]]]]]]|E]].
    + left. rewrite E. repeat split. left. reflexivity.
    + left. split; [exact H4|]. split; [exact H5|]. right.
      exists gw, r, i, p. cbn [answer]. rewrite H3. repeat split; assumption.
    + right. exact E.
  - unfold cron_tick. destruct (sql_select_due now (db w)) as [|a l].
    + left. repeat split. left. reflexivity.
    + right. cbn [cron_finish broadcast published].
      rewrite cron_loop_published. reflexivity.
  - left. repeat split. left. reflexivity.
Qed.

(** ** Null in an update *)

(** X21. In an update by the owner, whatever else the body carries, an
    explicit [null] for the title, the description or the schedule is the
    same as leaving the field out: the stored value stays; only the url is
    cleared by [null].  So a post that has a schedule still has one after
    any [PUT]: the schedule cannot be cancelled through this route. *)
Theorem update_null_keeps_all_but_url
    (r i : Z) (body : UpdateBody) (w : World) (post : Post) :
  sql_get i (db w) = Some post ->
  user_id post = SInt r ->
  exists post',
    sql_get i (db (snd (update (Some r) i body w))) = Some post' /\
    (u_title body = JNull -> title post' = title post) /\
    (u_description body = JNull -> description post' = description post) /\
    (u_scheduledAt body = JNull -> scheduledAt post' = scheduledAt post) /\
    (u_url body = JNull -> url post' = None) /\
    (scheduledAt post <> None -> scheduledAt post' <> None).
Proof.
  intros Hget Ho.
  destruct (update_outcome (Some r) i body w post Hget (owner_accepted r post Ho))
    as [[C E]|[C [fs E]]]; rewrite E; cbn [fst snd].
  - exists post. split; [exact Hget|].
    assert (Hu : exists s, u_url body = JString s).
    { apply andb_true_iff in C. destruct C as [C _]. unfold replaces_url in C.
      destruct (u_url body) as [| |s]; try discriminate. eauto. }
    destruct Hu as [s Hu].
    repeat split; try reflexivity; try congruence; auto.
  - cbn [db broadcast set_db set_files]. unfold sql_update. eexists. split.
    + apply update_where_get_same; [reflexivity|exact Hget].
    + cbn [title description url scheduledAt].
      split; [intros ->; reflexivity|]. split; [intros ->; reflexivity|].
      split; [intros ->; reflexivity|]. split; [intros ->; reflexivity|].
      intro Hs. destruct (u_scheduledAt body); cbn [nullish bind]; try exact Hs.
      discriminate.
Qed.

Lemma update_null_keeps_all_but_url_witness :
  exists post',
    sql_get 2 (db (snd (update (Some 7) 2
                          {| u_title := JNull; u_description := JNull;
                             u_url := JNull; u_scheduledAt := JNull |}
                          (demo_world demo_due_db)))) = Some post' /\
    scheduledAt post' = Some "2024-01-02T00:00:00.000Z"%string.
Proof.
  destruct (update_null_keeps_all_but_url 7 2
              {| u_title := JNull; u_description := JNull;
                 u_url := JNull; u_scheduledAt := JNull |}
              (demo_world demo_due_db)
              (demo_post 2 (Some "2024-01-02T00:00:00.000Z"%string))
              eq_refl eq_refl) as [post' [H1 [_ [_ [H2 _]]]]].
  exists post'. split; [exact H1|exact (H2 eq_refl)].
Defined.

(** * Generated posts and the prompt *)

Lemma or_text_nonempty (v : jsval) (d : string) :
  d <> EmptyString -> or_text v d <> EmptyString.
Proof.
  intro Hd. unfold or_text. destruct v as [| |s]; cbn [truthy_text]; try exact Hd.
  destruct (String.eqb s "") eqn:E; cbn [negb]; [exact Hd|].
  apply String.eqb_neq. exact E.
Qed.

Lemma or_null_nonempty (v : jsval) : or_null v <> Some EmptyString.
Proof.
  unfold or_null. destruct v as [| |s]; cbn [truthy_text bind]; try discriminate.
  destruct (String.eqb s "") eqn:E; cbn [negb]; [discriminate|].
  apply String.eqb_neq in E. congruence.
Qed.

Lemma format_from_nth (l : list GenPost) (i n : nat) (p : GenPost) :
  nth_error l n = Some p ->
  nth_error (format_from i l) n = Some (format_post (i + n) p).
Proof.
  revert i n. induction l as [|a l IH]; intros i [|n] H; try discriminate H.
  - cbn in H. inversion H; subst a. cbn. rewrite Nat.add_0_r. reflexivity.
  - cbn [format_from nth_error] in *. rewrite (IH (S i) n H).
    rewrite Nat.add_succ_r. reflexivity.
Qed.

Lemma format_from_length (l : list GenPost) (i : nat) :
  List.length (format_from i l) = List.length l.
Proof. revert i. induction l as [|a l IH]; intro i; simpl; [|rewrite IH]; reflexivity. Qed.

(** X22. The posts the generation route shows are the posts the service
    returned, one for one and in order, each under the id it came with.  A
    title that is a non-empty text is shown as it is; a missing or empty
    one becomes the default title that carries the post's position counted
    from one.  A description is shown likewise, with the default
    description in place of a missing or empty one, and a missing or empty
    url is shown as [null].  So no shown post has an empty title, an empty
    description or an empty url.  The answer carries the path text. *)
Theorem generated_posts_are_filled_in
    (Number_text : string -> option Z) (r : Z) (t : string) (posts : list GenPost) :
  Number_text t = Some r ->
  exists shown,
    generatePostsRoute Number_text (Some r) t (Some posts) = Generated t shown /\
    List.length shown = List.length posts /\
    (forall n p, nth_error posts n = Some p ->
       exists s,
         nth_error shown n = Some s /\
         sh_id s = g_id p /\
         sh_title s =
           match g_title p with
           | JString x => if String.eqb x "" then default_title n else x
           | _ => default_title n
           end /\
         sh_description s =
           match g_description p with
           | JString x => if String.eqb x "" then default_description else x
           | _ => default_description
           end /\
         sh_url s =
           match g_url p with
           | JString x => if String.eqb x "" then None else Some x
           | _ => None
           end) /\
    Forall (fun s => sh_title s <> EmptyString /\
                     sh_description s <> EmptyString /\
                     sh_url s <> Some EmptyString) shown.
Proof.
  intro Hn. unfold generatePostsRoute. rewrite Hn, Z.eqb_refl. cbn [negb].
  exists (format_from 0 posts). split; [reflexivity|].
  split; [apply format_from_length|]. split.
  - intros n p Hp. exists (format_post n p).
    split; [apply (format_from_nth posts 0 n p Hp)|].
    unfold format_post, or_text, or_null. cbn [sh_id sh_title sh_description sh_url].
    split; [reflexivity|].
    split; [|split].
    + destruct (g_title p) as [| |x]; cbn [truthy_text]; try reflexivity.
      destruct (String.eqb x ""); reflexivity.
    + destruct (g_description p) as [| |x]; cbn [truthy_text]; try reflexivity.
      destruct (String.eqb x ""); reflexivity.
    + destruct (g_url p) as [| |x]; cbn [truthy_text bind]; try reflexivity.
      destruct (String.eqb x ""); reflexivity.
  - generalize 0%nat as i. induction posts as [|p l IH]; intro i; [constructor|].
    cbn [format_from]. constructor; [|apply IH].
    cbn [format_post sh_title sh_description sh_url].
    split; [|split].
    + apply or_text_nonempty. discriminate.
    + apply or_text_nonempty. discriminate.
    + apply or_null_nonempty.
Qed.

Lemma generated_posts_are_filled_in_witness :
  exists shown,
    generatePostsRoute demo_number (Some 7) "7"
      (Some [ {| g_id := VInt 5; g_title := JUndefined; g_description := JString "d";
                 g_url := JString "" |} ])
    = Generated "7" shown.
Proof.
  destruct (generated_posts_are_filled_in demo_number 7 "7"
              [ {| g_id := VInt 5; g_title := JUndefined; g_description := JString "d";
                   g_url := JString "" |} ] eq_refl) as [shown [H _]].
  exists shown. exact H.
Defined.

Example generated_posts_demo :
  generatePostsRoute demo_number (Some 7) "7"
    (Some [ {| g_id := VUndefined; g_title := JString "A"; g_description := JNull;
               g_url := JString "" |};
            {| g_id := VInt 5; g_title := JUndefined; g_description := JString "d";
               g_url := JString "u" |} ])
  = Generated "7"
      [ {| sh_id := VUndefined; sh_title := "A";
           sh_description := default_description; sh_url := None |};
        {| sh_id := VInt 5; sh_title := default_title 1;
           sh_description := "d"; sh_url := Some "u"%string |} ].
Proof. reflexivity. Qed.

(** *** The prompt *)

Lemma prefix_refl (s : string) : String.prefix s s = true.
Proof.
  induction s as [|c s IH]; [reflexivity|]. cbn.
  destruct (ascii_dec c c) as [_|N]; [exact IH|elim N; reflexivity].
Qed.

Lemma prefix_empty (s : string) : String.prefix EmptyString s = true.
Proof. destruct s; reflexivity. Qed.

Lemma prefix_app (sub s b : string) :
  String.prefix sub s = true -> String.prefix sub (String.append s b) = true.
Proof.
  revert sub. induction s as [|c s IH]; intros sub H.
  - destruct sub; [apply prefix_empty|discriminate H].
  - destruct sub as [|a sub]; [reflexivity|]. cbn in *.
    destruct (ascii_dec a c); [apply IH; exact H|discriminate H].
Qed.

Lemma includes_refl (s : string) : includes s s = true.
Proof.
  destruct s as [|c s]; [reflexivity|].
  cbn [includes]. rewrite prefix_refl. reflexivity.
Qed.

Lemma includes_app_r (sub a s : string) :
  includes sub s = true -> includes sub (String.append a s) = true.
Proof.
  intro H. induction a as [|c a IH]; [exact H|].
  cbn [String.append includes]. rewrite IH. apply orb_true_r.
Qed.

Lemma includes_app_l (sub s b : string) :
  includes sub s = true -> includes sub (String.append s b) = true.
Proof.
  induction s as [|c s IH]; intro H.
  - cbn [includes] in H. rewrite orb_false_r in H.
    destruct sub; [|discriminate H]. cbn [String.append].
    destruct b; reflexivity.
  - cbn [String.append]. cbn [includes] in *. apply orb_true_iff in H.
    apply orb_true_iff. destruct H as [H|H].
    + left. apply (prefix_app sub (String c s) b). exact H.
    + right. apply IH. exact H.
Qed.

Lemma includes_join (sep x : string) (l : list string) :
  In x l -> includes x (join sep l) = true.
Proof.
  induction l as [|a l IH]; [intros []|]. intro H.
  destruct l as [|b l'].
  - destruct H as [->|[]]. apply includes_refl.
  - change (join sep (a :: b :: l'))
      with (String.append a (String.append sep (join sep (b :: l')))).
    destruct H as [->|H].
    + apply includes_app_l. apply includes_refl.
    + apply includes_app_r, includes_app_r, IH. exact H.
Qed.

(** X23. The prompt carries the first six news items and no others: the
    line of each of them, its title and then its description, stands in the
    prompt, and appending items to a list of at least six does not change
    the prompt. *)
Theorem prompt_uses_six_items (items more : list NewsItem) :
  (forall it, In it (firstn 6 items) ->
     includes (news_line it) (buildPromptFromNews items) = true) /\
  ((6 <= List.length items)%nat ->
   buildPromptFromNews (items ++ more) = buildPromptFromNews items).
Proof.
  split.
  - intros it Hin. unfold buildPromptFromNews, news_block.
    apply includes_app_r, includes_app_r, includes_app_l.
    apply includes_join. apply in_map. exact Hin.
  - intro H. unfold buildPromptFromNews, news_block.
    rewrite firstn_app.
    replace (6 - List.length items)%nat with 0%nat by lia.
    cbn [firstn]. rewrite app_nil_r. reflexivity.
Qed.

Lemma prompt_uses_six_items_witness :
  buildPromptFromNews
    ([demo_news "a"; demo_news "b"; demo_news "c"; demo_news "d"; demo_news "e";
      demo_news "f"] ++ [demo_news "g"])
  = buildPromptFromNews
      [demo_news "a"; demo_news "b"; demo_news "c"; demo_news "d"; demo_news "e";
       demo_news "f"].
Proof.
  refine (proj2 (prompt_uses_six_items _ [demo_news "g"]) _). simpl. lia.
Defined.

(** * Ticks over time *)

Lemma cron_tick_usersDb (gw : Gateway) (now : string) (w : World) :
  usersDb (cron_tick gw now w) = usersDb w.
Proof.
  unfold cron_tick. destruct (sql_select_due now (db w)); cbn [cron_finish];
    [|cbn [usersDb broadcast]]; apply cron_loop_usersDb.
Qed.

(** X24. A due post whose send threw on one tick is tried again on the
    next: the first tick logs its id and leaves its row, and when the send
    resolves on the second the post is sent to the owner's channel and then
    removed, unless its url names the uploads directory, in which case the
    unlink after the send throws, the row stays and its id is logged
    again. *)
Theorem failed_post_is_retried
    (gw1 gw2 : Gateway) (now1 now2 : string) (w : World) (p : Post) (user : UserRow) :
  well_keyed (db w) ->
  In p (sql_select_due now1 (db w)) ->
  users_get (user_id p) w = Some user ->
  gw1 user p = false ->
  gw2 user p = true ->
  text_le now1 now2 = true ->
  let w1 := cron_tick gw1 now1 w in
  let w2 := cron_tick gw2 now2 w1 in
  In (id p) (errlog w1) /\
  In p (rows (db w1)) /\
  In {| origin := Cron; recipient := user; payload := p |} (outbox w2) /\
  if jammed p
  then In p (rows (db w2)) /\
       In (id p) (flat_map (tick_failure gw2 w1) (sql_select_due now2 (db w1)))
  else sql_get (id p) (db w2) = None.
Proof.
  intros Hk Hdue Hu Hg1 Hg2 Hle w1 w2.
  assert (Hin : In p (rows (db w)) /\ is_due now1 p = true).
  { unfold sql_select_due in Hdue. apply filter_In in Hdue. exact Hdue. }
  destruct Hin as [Hin Hd1].
  assert (Hin1 : In p (rows (db w1))).
  { unfold w1, cron_tick. rewrite cron_finish_db. apply cron_loop_rows.
    split; [exact Hin|]. intros q Hq Hd E.
    assert (q = p).
    { apply (in_keyed_eq (rows (db w))); auto.
      unfold sql_select_due in Hq. apply filter_In in Hq. tauto. }
    subst q. unfold removes, delivers in Hd. rewrite Hu, Hg1 in Hd. discriminate. }
  assert (Hk1 : well_keyed (db w1)).
  { unfold w1, cron_tick. rewrite cron_finish_db. apply cron_loop_well_keyed.
    exact Hk. }
  assert (Hu1 : users_get (user_id p) w1 = Some user).
  { unfold users_get, w1. rewrite cron_tick_usersDb. exact Hu. }
  assert (Hdue2 : In p (sql_select_due now2 (db w1))).
  { unfold sql_select_due. apply filter_In. split; [exact Hin1|].
    unfold is_due in *. apply andb_true_iff in Hd1. destruct Hd1 as [Hs Ht].
    rewrite Hs. cbn [andb]. destruct (scheduledAt p) as [s|]; [|discriminate].
    eapply text_le_trans; eassumption. }
  split; [|split; [exact Hin1|]].
  - unfold w1, cron_tick. rewrite cron_finish_errlog, cron_loop_errlog_eq.
    apply in_or_app. right. apply in_flat_map. exists p. split; [exact Hdue|].
    unfold tick_failure. rewrite Hu, Hg1. left. reflexivity.
  - unfold w2, cron_tick. rewrite cron_finish_outbox, cron_finish_db. split.
    + apply cron_loop_outbox; assumption.
    + destruct (jammed p) eqn:J.
      * split.
        -- apply cron_loop_rows. split; [exact Hin1|]. intros q Hq Hr E.
           assert (q = p).
           { apply (in_keyed_eq (rows (db w1))); auto.
             apply (due_in_table now2). exact Hq. }
           subst q. unfold removes in Hr. rewrite J, andb_false_r in Hr. discriminate.
        -- apply in_flat_map. exists p. split; [exact Hdue2|].
           unfold tick_failure. rewrite Hu1, Hg2, J. left. reflexivity.
      * apply sql_get_none. intro H. apply in_map_iff in H. destruct H as [x [Hx H]].
        apply cron_loop_rows in H. destruct H as [_ Hall].
        apply (Hall p Hdue2); [|congruence].
        unfold removes, delivers. rewrite Hu1, Hg2, J. reflexivity.
Qed.

Lemma failed_post_is_retried_witness :
  In (demo_post 2 (Some "2024-01-02T00:00:00.000Z"%string))
     (rows (db (cron_tick demo_gateway demo_now (demo_world demo_due_db)))).
Proof.
  exact (proj1 (proj2 (failed_post_is_retried demo_gateway always
           demo_now demo_now (demo_world demo_due_db)
           (demo_post 2 (Some "2024-01-02T00:00:00.000Z"%string))
           {| uid := 7; telegram_token := "t"; channel_id := "c" |}
           demo_due_db_keyed (or_intror (or_introl eq_refl))
           eq_refl eq_refl eq_refl eq_refl))).
Defined.

Example failed_post_is_retried_demo :
  sql_get 2 (db (cron_tick always demo_now
                   (cron_tick demo_gateway demo_now (demo_world demo_due_db))))
  = None.
Proof. reflexivity. Qed.

(** ** A tick among requests *)

Section TickAmongRequests.

Variable Number_text : string -> option Z.
Variable integer_text : string -> option Z.
Variable gw : Gateway.
Variable now : string.
Variable P : Post.
Variable user : UserRow.
Variable r : Z.

Hypothesis owner0 : user_id P = SInt r.

Lemma credentials_get (w : World) :
  credentials r user w -> users_get (user_id P) w = Some user.
Proof. unfold credentials, users_get. rewrite owner0. trivial. Qed.

Lemma read_inv_step (st : CronPc * World) :
  credentials r user (snd st) ->
  read_inv gw P user st ->
  credentials r user (snd (cron_step gw now (fst st) (snd st))) /\
  read_inv gw P user (cron_step gw now (fst st) (snd st)).
Proof.
  destruct st as [c w]. cbn [fst snd]. intros Hc Hr. split.
  - unfold credentials.
    rewrite (proj1 (cron_step_frame gw now c w)). exact Hc.
  - unfold read_inv in *. cbn [fst snd] in Hr.
    assert (Hkeep : forall c' w',
              (forall x, In x (outbox w) -> In x (outbox w')) ->
              (forall j, In j (errlog w) -> In j (errlog w')) ->
              (if gw user P
               then In {| origin := Cron; recipient := user; payload := P |} (outbox w)
               else In (id P) (errlog w)) ->
              match fst (c', w') with
              | CLoop _ rest => In P rest
              | CSend _ u p _ rest => (p = P /\ u = user) \/ In P rest
              | CDelete _ _ rest => In P rest
              | _ => False
              end \/
              (if gw user P
               then In {| origin := Cron; recipient := user; payload := P |}
                       (outbox (snd (c', w')))
               else In (id P) (errlog (snd (c', w'))))).
    { intros c' w' Ho He H. right. cbn [snd]. destruct (gw user P); auto. }
    destruct c as [|posts [|a rest]|posts u a stream rest|posts a rest|].
    + destruct Hr as [[]|Hr]. cbn [cron_step]. apply Hkeep; auto.
    + destruct Hr as [[]|Hr]. cbn [cron_step]. apply Hkeep; [| |exact Hr].
      * intros x Hx. rewrite cron_finish_outbox. exact Hx.
      * intros j Hj. rewrite cron_finish_errlog. exact Hj.
    + destruct Hr as [Hr|Hr].
      * cbn [cron_step]. destruct Hr as [->|Hr].
        -- rewrite (credentials_get w Hc). left. cbn [fst]. left. split; reflexivity.
        -- destruct (users_get (user_id a) w); left; cbn [fst]; [right|]; exact Hr.
      * cbn [cron_step]. destruct (users_get (user_id a) w); apply Hkeep; auto.
    + destruct (cron_send_cases gw now posts u a stream rest w)
        as [[G E]|[[G [T E]]|[G [fs [T E]]]]]; rewrite E.
      * destruct Hr as [[[-> ->]|Hr]|Hr].
        -- right. cbn [snd]. rewrite G. cbn [errlog log_error].
           apply in_or_app. right. left. reflexivity.
        -- left. exact Hr.
        -- apply Hkeep; [intros x Hx; exact Hx| |exact Hr].
           intros j Hj. cbn [errlog log_error]. apply in_or_app. left. exact Hj.
      * destruct Hr as [[[-> ->]|Hr]|Hr].
        -- right. cbn [snd]. rewrite G. cbn [outbox log_error push_delivery].
           apply in_or_app. right. left. reflexivity.
        -- left. exact Hr.
        -- apply Hkeep; [| |exact Hr].
           ++ intros x Hx. cbn [outbox log_error push_delivery].
              apply in_or_app. left. exact Hx.
           ++ intros j Hj. cbn [errlog log_error push_delivery].
              apply in_or_app. left. exact Hj.
      * destruct Hr as [[[-> ->]|Hr]|Hr].
        -- right. cbn [snd]. rewrite G. cbn [outbox set_files push_delivery].
           apply in_or_app. right. left. reflexivity.
        -- left. exact Hr.
        -- apply Hkeep; [| |exact Hr].
           ++ intros x Hx. cbn [outbox set_files push_delivery].
              apply in_or_app. left. exact Hx.
           ++ intros j Hj. exact Hj.
    + cbn [cron_step]. destruct Hr as [Hr|Hr]; [left; exact Hr|].
      apply Hkeep; auto.
    + cbn [cron_step]. exact Hr.
Qed.

Lemma read_inv_request (st : CronPc * World) (q : Request) :
  keeps_user r user (HRequest q) ->
  credentials r user (snd st) ->
  read_inv gw P user st ->
  credentials r user (handle_request Number_text integer_text (snd st) q) /\
  read_inv gw P user (fst st, handle_request Number_text integer_text (snd st) q).
Proof.
  destruct st as [c w]. cbn [fst snd]. intros Hq Hc Hr.
  destruct q as [rq body|rq i body|rq i|rq i|rq i at_|rq i|g rq i|g nw|us cs fs];
    try (apply (handle_request_frame Number_text integer_text
                  (fun w' => credentials r user w' /\ read_inv gw P user (c, w')));
         [intros x w' [H1 H2]; split; [exact H1|];
          destruct H2 as [H2|H2]; [left; exact H2|right]; cbn [snd] in *;
          destruct (gw user P); [cbn; apply in_or_app; left; exact H2|exact H2]
         |intros fs w' H'; exact H'
         |intros d w' H'; exact H'
         |intros w' H'; exact H'
         |intros j w' [H1 H2]; split; [exact H1|];
          destruct H2 as [H2|H2]; [left; exact H2|right]; cbn [snd] in *;
          destruct (gw user P); [exact H2|cbn; apply in_or_app; left; exact H2]
         |intros us cs fs; discriminate
         |split; [exact Hc|exact Hr]]).
  cbn [handle_request]. split; [exact Hq|exact Hr].
Qed.

Lemma read_inv_through (hs : list Happening) (st : CronPc * World) :
  Forall (keeps_user r user) hs ->
  credentials r user (snd st) ->
  read_inv gw P user st ->
  read_inv gw P user (tick_through Number_text integer_text gw now hs st).
Proof.
  revert st. induction hs as [|h hs IH]; intros st Hhs Hc Hr; [exact Hr|].
  inversion Hhs as [|? ? Hh Hhs']; subst. cbn [tick_through fold_left].
  change (fold_left (tick_among Number_text integer_text gw now) hs
            (tick_among Number_text integer_text gw now st h))
    with (tick_through Number_text integer_text gw now hs
            (tick_among Number_text integer_text gw now st h)).
  destruct h as [|q]; cbn [tick_among].
  - destruct (read_inv_step st Hc Hr) as [H1 H2]. apply IH; assumption.
  - destruct (read_inv_request st q Hh Hc Hr) as [H1 H2]. apply IH; assumption.
Qed.

End TickAmongRequests.

(** X25. A tick sends what its query returned, whatever requests are
    served while it is under way (a cancel, an edit or a delete of a
    returned post, another send, uploads, changes to other accounts): once
    the loop has run to its end, a returned post whose owner has
    credentials has been sent as it was read when its send resolves, and
    its id has been logged when its send throws. *)
Theorem tick_sends_what_it_read
    (Number_text integer_text : string -> option Z)
    (gw : Gateway) (now : string) (hs : list Happening)
    (posts rest : list Post) (w : World) (P : Post) (user : UserRow) (r : Z) :
  In P rest ->
  user_id P = SInt r ->
  find (fun u => uid u =? r) (usersDb w) = Some user ->
  Forall (keeps_user r user) hs ->
  let st := tick_through Number_text integer_text gw now hs (CLoop posts rest, w) in
  fst st = CDone ->
  if gw user P
  then In {| origin := Cron; recipient := user; payload := P |} (outbox (snd st))
  else In (id P) (errlog (snd st)).
Proof.
  intros Hin Ho Hu Hhs st Hd.
  pose proof (read_inv_through Number_text integer_text gw now P user r Ho hs
                (CLoop posts rest, w) Hhs Hu (or_introl Hin)) as H.
  fold st in H. unfold read_inv in H. rewrite Hd in H.
  destruct H as [[]|H]. exact H.
Qed.

Lemma tick_sends_what_it_read_witness :
  In {| origin := Cron;
        recipient := {| uid := 7; telegram_token := "t"; channel_id := "c" |};
        payload := demo_post 2 (Some "2024-01-02T00:00:00.000Z"%string) |}
     (outbox (snd (tick_through demo_number demo_integer_text always demo_now
                     (HRequest (ReqCancel (Some 7) 2) :: repeat HStep 7)
                     (CLoop (sql_select_due demo_now demo_due_db)
                            (sql_select_due demo_now demo_due_db),
                      demo_world demo_due_db)))).
Proof.
  refine (tick_sends_what_it_read demo_number demo_integer_text always demo_now
            (HRequest (ReqCancel (Some 7) 2) :: repeat HStep 7)
            (sql_select_due demo_now demo_due_db)
            (sql_select_due demo_now demo_due_db)
            (demo_world demo_due_db)
            (demo_post 2 (Some "2024-01-02T00:00:00.000Z"%string))
            {| uid := 7; telegram_token := "t"; channel_id := "c" |} 7
            (or_intror (or_introl eq_refl)) eq_refl eq_refl _ eq_refl).
  repeat constructor.
Defined.

(** The image of post 1 is removed while its send is under way: the send
    resolves, the unlink of the file that was streamed throws, the DELETE is
    skipped, and the row is still there when the tick ends. *)
Example tick_keeps_row_after_image_removed :
  let st := tick_through demo_number demo_integer_text always demo_now
              [HStep; HStep; HRequest (ReqDeleteImage (Some 7) 1); HStep; HStep;
               HStep; HStep]
              (CQuery, demo_photo_world) in
  fst st = CDone /\
  sends_of 1 (snd st) = 1%nat /\
  errlog (snd st) = [1; 2] /\
  ids (rows (db (snd st))) = [1; 2].
Proof. repeat split; reflexivity. Qed.
